(** * TrendRadar: title ledger, weighting, matching, snapshot files and batching

    A shallow embedding of the core of [main.py] of TrendRadar:
    - [process_source_data] / [read_all_today_titles] (the per-day title ledger),
    - [calculate_news_weight], [matches_word_groups] and the grouping and
      sorting parts of [count_word_frequency],
    - [save_titles_to_file] / [parse_file_titles] (the snapshot text format),
    - [split_content_into_batches] (the byte-budgeted batch splitter),
    - [detect_latest_new_titles], [html_escape], [format_rank_display],
      [load_frequency_words], [prepare_report_data],
      [format_title_for_platform], [clean_title] and the report-mode
      selection of [count_word_frequency].

    Python [str] values are modelled as Rocq [string]s holding their UTF-8
    encoding, so [len(s.encode("utf-8"))] is [String.length s] and
    concatenation of Python strings is concatenation of byte strings.
    Python dicts iterated in insertion order are association lists; the
    ledger dicts, only ever read by key, are stdpp [gmap]s. *)

From Stdlib Require Import ZArith QArith Sorting.Sorted Lia.
From stdpp Require Import base gmap strings list pretty.

Open Scope Z_scope.

(* ================================================================== *)
(** ** Python helpers shared by the whole development *)

(** [a or b] on strings: the empty string is falsy. *)
Definition py_or (a b : string) : string :=
  if String.eqb a "" then b else a.

(** Lookup in an insertion-ordered association list (a Python dict, whose
    keys are distinct). *)
Fixpoint assoc {V} (l : list (string * V)) (k : string) : option V :=
  match l with
  | [] => None
  | (k', v) :: l' => if String.eqb k' k then Some v else assoc l' k
  end.

(* ================================================================== *)
(** ** The title ledger: [process_source_data], [read_all_today_titles] *)

Module Ledger.

(** One title of one parsed snapshot: the dict built by [parse_file_titles]. *)
Record Obs := mkObs {
  ob_ranks : list Z;
  ob_url : string;
  ob_mobileUrl : string;
  ob_summary : string
}.

(** One entry of [title_info[source_id][title]]. *)
Record Info := mkInfo {
  first_time : string;
  last_time : string;
  count : Z;
  ranks : list Z;
  url : string;
  mobileUrl : string;
  summary : string
}.

(** [title_data]: the titles of one source in one snapshot (a dict). *)
Definition TitleData := list (string * Obs).

(** The two dicts threaded through [process_source_data]. *)
Record State := mkState {
  all_results : gmap string (gmap string Obs);
  title_info : gmap string (gmap string Info)
}.

Definition empty_state : State := mkState ∅ ∅.

(** The dict literal stored for a title seen for the first time. *)
Definition new_info (time_info : string) (d : Obs) : Info :=
  mkInfo time_info time_info 1 (ob_ranks d) (ob_url d) (ob_mobileUrl d)
    (ob_summary d).

(** [merged_ranks = existing_ranks.copy()]
    [for rank in ranks: if rank not in merged_ranks: merged_ranks.append(rank)] *)
Definition merge_ranks (existing new : list Z) : list Z :=
  fold_left (fun merged r =>
    if bool_decide (r ∈ merged) then merged else merged ++ [r]) new existing.

(** Python raises [KeyError] when [title_info[source_id][title]] is
    missing; in every state built by [read_all_today_titles] it is present
    (lemma [synced_reachable]), so the value read there is never used. *)
Definition missing_info : Info := mkInfo "" "" 0 [] "" "" "".

(** One iteration of the [else] branch loop of [process_source_data]
    (the source is already in [all_results]). *)
Definition merge_step (time_info : string)
    (acc : gmap string Obs * gmap string Info) (item : string * Obs)
    : gmap string Obs * gmap string Info :=
  let '(ar, ti) := acc in
  let '(title, data) := item in
  match ar !! title with
  | None =>
      (<[title := data]> ar, <[title := new_info time_info data]> ti)
  | Some existing =>
      let merged := merge_ranks (ob_ranks existing) (ob_ranks data) in
      let ar' := <[title := mkObs merged
                    (py_or (ob_url existing) (ob_url data))
                    (py_or (ob_mobileUrl existing) (ob_mobileUrl data))
                    (py_or (ob_summary existing) (ob_summary data))]> ar in
      let i := default missing_info (ti !! title) in
      let i' := mkInfo (first_time i) time_info (count i + 1) merged
                  (if String.eqb (url i) "" then ob_url data else url i)
                  (if String.eqb (mobileUrl i) "" then ob_mobileUrl data
                   else mobileUrl i)
                  (if String.eqb (summary i) "" then ob_summary data
                   else summary i) in
      (ar', <[title := i']> ti)
  end.

Definition process_source_data (source_id : string) (title_data : TitleData)
    (time_info : string) (st : State) : State :=
  match all_results st !! source_id with
  | None =>
      let ti0 := default ∅ (title_info st !! source_id) in
      let ti_s := fold_left (fun m '(t, d) => <[t := new_info time_info d]> m)
                    title_data ti0 in
      let ar_s := fold_left (fun m '(t, d) => <[t := d]> m) title_data ∅ in
      mkState (<[source_id := ar_s]> (all_results st))
              (<[source_id := ti_s]> (title_info st))
  | Some ar_s =>
      let '(ar_s', ti_s') :=
        fold_left (merge_step time_info) title_data
          (ar_s, default ∅ (title_info st !! source_id)) in
      mkState (<[source_id := ar_s']> (all_results st))
              (<[source_id := ti_s']> (title_info st))
  end.

(** A parsed snapshot file: its time stamp ([file_path.stem]) and its
    [titles_by_id] dict. *)
Definition Snapshot := (string * list (string * TitleData))%type.

(** The [current_platform_ids] filter of [read_all_today_titles]. *)
Definition filter_platforms (ids : option (list string))
    (titles_by_id : list (string * TitleData)) : list (string * TitleData) :=
  match ids with
  | None => titles_by_id
  | Some l => filter (fun p => p.1 ∈ l) titles_by_id
  end.

Definition process_snapshot (ids : option (list string)) (st : State)
    (snap : Snapshot) : State :=
  fold_left (fun st '(sid, td) => process_source_data sid td snap.1 st)
    (filter_platforms ids snap.2) st.

(** [read_all_today_titles]: the files, already sorted by name, folded into
    the empty ledger (the [id_to_name] part is left out). *)
Definition read_all_today_titles (ids : option (list string))
    (files : list Snapshot) : State :=
  fold_left (process_snapshot ids) files empty_state.

Definition ledger_entry (st : State) (sid title : string) : option Info :=
  title_info st !! sid ≫= (.!! title).

(** Specification side. *)

(** A parsed snapshot: [titles_by_id] and each [title_data] are dicts
    (distinct keys), and each observation's ranks are duplicate free
    ([parse_file_titles] always stores the one-element list [[rank]]). *)
Definition wf_snapshot (snap : Snapshot) : Prop :=
  NoDup (map fst snap.2) /\
  Forall (fun p => NoDup (map fst p.2) /\ Forall (fun q => NoDup (ob_ranks q.2)) p.2)
    snap.2.

(** The observation of [(sid, title)] in a snapshot, after filtering. *)
Definition obs_in (ids : option (list string)) (snap : Snapshot)
    (sid title : string) : option Obs :=
  assoc (filter_platforms ids snap.2) sid ≫= fun td => assoc td title.

(** Duplicate removal keeping the first occurrence of every value. *)
Fixpoint dedup_first (seen : list Z) (l : list Z) : list Z :=
  match l with
  | [] => []
  | r :: l' => if bool_decide (r ∈ seen) then dedup_first seen l'
               else r :: dedup_first (seen ++ [r]) l'
  end.

(** Every rank observed for [(sid, title)], snapshot after snapshot. *)
Definition observed_ranks (ids : option (list string)) (files : list Snapshot)
    (sid title : string) : list Z :=
  concat (map (fun f => match obs_in ids f sid title with
                        | Some d => ob_ranks d | None => [] end) files).

(** Number of snapshots in which [(sid, title)] occurs. *)
Definition occurrences (ids : option (list string)) (files : list Snapshot)
    (sid title : string) : Z :=
  Z.of_nat (length (filter (fun f => is_Some (obs_in ids f sid title)) files)).

(** The count recorded for [(sid, title)], 0 when there is no entry. *)
Definition count_of (st : State) (sid title : string) : Z :=
  match ledger_entry st sid title with Some e => count e | None => 0 end.

(** The entry [process_source_data] leaves for a title already in the
    ledger (reading [title_info]'s ranks, equal to [all_results]' ones by
    [synced]). *)
Definition merge_info (time_info : string) (d : Obs) (e : Info) : Info :=
  mkInfo (first_time e) time_info (count e + 1) (merge_ranks (ranks e) (ob_ranks d))
    (if String.eqb (url e) "" then ob_url d else url e)
    (if String.eqb (mobileUrl e) "" then ob_mobileUrl d else mobileUrl e)
    (if String.eqb (summary e) "" then ob_summary d else summary e).

Definition upd_entry (time_info : string) (d : Obs) (o : option Info) : Info :=
  match o with None => new_info time_info d | Some e => merge_info time_info d e end.

(** [all_results] and [title_info] have the same keys and the same ranks. *)
Definition synced_inner (ar : gmap string Obs) (ti : gmap string Info) : Prop :=
  forall t, match ar !! t, ti !! t with
            | None, None => True
            | Some o, Some e => ob_ranks o = ranks e
            | _, _ => False
            end.

Definition synced (st : State) : Prop :=
  forall sid, match all_results st !! sid, title_info st !! sid with
              | None, None => True
              | Some a, Some i => synced_inner a i
              | _, _ => False
              end.

(** The fill-once fields of an entry are kept by a later entry. *)
Definition fill_once_kept (e e' : Info) : Prop :=
  (url e <> "" -> url e' = url e) /\
  (mobileUrl e <> "" -> mobileUrl e' = mobileUrl e) /\
  (summary e <> "" -> summary e' = summary e).

End Ledger.

(* ================================================================== *)
(** ** Python string operations *)

Module PyStr.

(** [needle in hay] *)
Fixpoint contains (needle hay : string) : bool :=
  String.prefix needle hay ||
  match hay with EmptyString => false | String _ hay' => contains needle hay' end.

(** [s.replace(old, new)] for a non-empty [old], scanning left to right. *)
Fixpoint replace_fuel (fuel : nat) (old new s : string) : string :=
  match fuel with
  | O => s
  | S fuel' =>
      match s with
      | EmptyString => EmptyString
      | String c s' =>
          if String.prefix old s
          then new ++ replace_fuel fuel' old new
                        (String.substring (String.length old) (String.length s) s)
          else String c (replace_fuel fuel' old new s')
      end
  end.

Definition replace (old new s : string) : string :=
  replace_fuel (S (String.length s)) old new s.

End PyStr.

(* ================================================================== *)
(** ** Weighting, matching and grouping: [calculate_news_weight],
       [matches_word_groups], [count_word_frequency] *)

Module Freq.
Import Ledger.

(** [CONFIG["WEIGHT_CONFIG"]]; the floats are modelled as exact rationals. *)
Record WeightConfig := mkWeightConfig {
  RANK_WEIGHT : Q;
  FREQUENCY_WEIGHT : Q;
  HOTNESS_WEIGHT : Q
}.

(** The dict appended to [word_stats[group_key]["titles"][source_id]]. *)
Record StatTitle := mkStatTitle {
  t_title : string;
  t_source_name : string;
  t_first_time : string;
  t_last_time : string;
  t_time_display : string;
  t_count : Z;
  t_ranks : list Z;
  t_rank_threshold : Z;
  t_url : string;
  t_mobileUrl : string;
  t_is_new : bool
}.

Definition Z_sum (l : list Z) : Z := fold_right Z.add 0 l.

(** [calculate_news_weight]. Its only caller passes the dicts built by
    [count_word_frequency], which always hold ["count"], so
    [title_data.get("count", len(ranks))] is [t_count]. *)
Definition calculate_news_weight (cfg : WeightConfig) (title_data : StatTitle)
    (rank_threshold : Z) : Q :=
  let ranks := t_ranks title_data in
  match ranks with
  | [] => 0%Q
  | _ =>
      let count := t_count title_data in
      let rank_scores := map (fun rank => 11 - Z.min rank 10) ranks in
      let n := inject_Z (Z.of_nat (length ranks)) in
      let rank_weight := (inject_Z (Z_sum rank_scores) / n)%Q in
      let frequency_weight := inject_Z (Z.min count 10 * 10) in
      let high_rank_count :=
        Z.of_nat (length (filter (fun rank => rank <= rank_threshold) ranks)) in
      let hotness_ratio := (inject_Z high_rank_count / n)%Q in
      let hotness_weight := (hotness_ratio * 100)%Q in
      (rank_weight * RANK_WEIGHT cfg + frequency_weight * FREQUENCY_WEIGHT cfg
       + hotness_weight * HOTNESS_WEIGHT cfg)%Q
  end.

(** A keyword group of [load_frequency_words]. *)
Record WordGroup := mkWordGroup {
  required : list string;
  normal : list string;
  group_key : string
}.

(** [word_stats[group_key]]: a count and the titles per source id. *)
Record WordStat := mkWordStat {
  ws_count : Z;
  ws_titles : list (string * list StatTitle)
}.

(** A [Stat] of the returned list (the float ["percentage"] is left out). *)
Record Stat := mkStat {
  word : string;
  stat_count : Z;
  titles : list StatTitle
}.

(** [d[k] = f(d[k])] on an insertion-ordered dict whose key is present. *)
Fixpoint assoc_update {V} (k : string) (f : V -> V) (l : list (string * V))
    : list (string * V) :=
  match l with
  | [] => []
  | (k', v) :: l' => if String.eqb k' k then (k', f v) :: l'
                     else (k', v) :: assoc_update k f l'
  end.

(** [if k not in d: d[k] = v0] followed by [d[k] = f(d[k])]. *)
Definition assoc_upsert {V} (k : string) (v0 : V) (f : V -> V) (l : list (string * V))
    : list (string * V) :=
  match assoc l k with
  | Some _ => assoc_update k f l
  | None => l ++ [(k, f v0)]
  end.

(** Stable insertion sort, placing an element before the first one it is
    [le] to: for a total preorder [le] this is the unique stable sort, so it
    computes what Python's [sorted] / [list.sort] compute. *)
Fixpoint insert_by {A} (le : A -> A -> bool) (x : A) (l : list A) : list A :=
  match l with
  | [] => [x]
  | y :: l' => if le x y then x :: y :: l' else y :: insert_by le x l'
  end.

Fixpoint sort_by {A} (le : A -> A -> bool) (l : list A) : list A :=
  match l with
  | [] => []
  | x :: l' => insert_by le x (sort_by le l')
  end.

Section CountWordFrequency.

(** Python's [str.lower]. *)
Variable lower : string -> string.

Definition matches_word_groups (title : string) (word_groups : list WordGroup)
    (filter_words : list string) : bool :=
  match word_groups with
  | [] => true
  | _ =>
      let title_lower := lower title in
      if existsb (fun fw => PyStr.contains (lower fw) title_lower) filter_words
      then false
      else
        existsb (fun group =>
          (match required group with
           | [] => true
           | rs => forallb (fun w => PyStr.contains (lower w) title_lower) rs
           end) &&
          (match normal group with
           | [] => true
           | ns => existsb (fun w => PyStr.contains (lower w) title_lower) ns
           end)) word_groups
  end.

(** [format_time_display] *)
Definition format_time_display (first_time last_time : string) : string :=
  if String.eqb first_time "" then ""
  else
    let clean_time t := PyStr.replace "分" "" (PyStr.replace "时" ":" t) in
    let f := clean_time first_time in
    let l := clean_time last_time in
    if String.eqb f l || String.eqb l "" then f
    else "[" ++ f ++ " ~ " ++ l ++ "]".

(** The inputs of [count_word_frequency] after its mode selection:
    [results_to_process], [all_news_are_new] and the lookup tables. *)
Variable word_groups0 : list WordGroup.
Variable filter_words0 : list string.
Variable id_to_name : list (string * string).
Variable title_info : gmap string (gmap string Info).
Variable rank_threshold : Z.
Variable new_titles : list (string * TitleData).
Variable all_news_are_new : bool.

(** [if not word_groups: word_groups = [All News]; filter_words = []] *)
Definition word_groups : list WordGroup :=
  match word_groups0 with
  | [] => [mkWordGroup [] [] "All News"]
  | gs => gs
  end.

Definition filter_words : list string :=
  match word_groups0 with [] => [] | _ => filter_words0 end.

Definition all_news_mode : bool :=
  match word_groups with
  | [g] => String.eqb (group_key g) "All News"
  | _ => false
  end.

(** The [for group in word_groups] loop: the key of the group that
    receives the title (the iteration that reaches [break]). *)
Fixpoint group_loop (title_lower : string) (gs : list WordGroup) : option string :=
  match gs with
  | [] => None
  | group :: gs' =>
      if all_news_mode then Some (group_key group)
      else if negb (match required group with
                    | [] => true
                    | rs => forallb (fun w => PyStr.contains (lower w) title_lower) rs
                    end)
      then group_loop title_lower gs'
      else if negb (match normal group with
                    | [] => true
                    | ns => existsb (fun w => PyStr.contains (lower w) title_lower) ns
                    end)
      then group_loop title_lower gs'
      else Some (group_key group)
  end.

(** The title dict built inside the loop before the [append]. *)
Definition build_entry (source_id title : string) (title_data : Obs) : StatTitle :=
  let '(first_time, last_time, count_info, ranks, url, mobile_url) :=
    match title_info !! source_id ≫= (.!! title) with
    | Some info =>
        (Ledger.first_time info, Ledger.last_time info, Ledger.count info,
         (match Ledger.ranks info with [] => ob_ranks title_data | rs => rs end),
         Ledger.url info, Ledger.mobileUrl info)
    | None =>
        ("", "", 1, ob_ranks title_data, ob_url title_data, ob_mobileUrl title_data)
    end in
  let ranks := match ranks with [] => [99] | rs => rs end in
  let source_name := default source_id (assoc id_to_name source_id) in
  let is_new :=
    if all_news_are_new then true
    else match assoc new_titles source_id with
         | Some nt => bool_decide (title ∈ map fst nt)
         | None => false
         end in
  mkStatTitle title source_name first_time last_time
    (format_time_display first_time last_time) count_info ranks rank_threshold
    url mobile_url is_new.

Record CwfState := mkCwfState {
  word_stats : list (string * WordStat);
  total_titles : Z;
  processed_titles : list (string * string)
}.

Definition empty_word_stat : WordStat := mkWordStat 0 [].

(** [for group in word_groups: word_stats[group_key] = {...}] *)
Definition init_word_stats : list (string * WordStat) :=
  fold_left (fun ws group =>
    assoc_upsert (group_key group) empty_word_stat (fun _ => empty_word_stat) ws)
    word_groups [].

(** The body of [for title, title_data in titles_data.items()]. *)
Definition process_title (source_id : string) (st : CwfState)
    (item : string * Obs) : CwfState :=
  let '(title, title_data) := item in
  if bool_decide ((source_id, title) ∈ processed_titles st) then st
  else if negb (matches_word_groups title word_groups filter_words) then st
  else
    match group_loop (lower title) word_groups with
    | None => st
    | Some key =>
        let entry := build_entry source_id title title_data in
        mkCwfState
          (assoc_update key (fun w =>
             mkWordStat (ws_count w + 1)
               (assoc_upsert source_id [] (fun l => l ++ [entry]) (ws_titles w)))
             (word_stats st))
          (total_titles st)
          (processed_titles st ++ [(source_id, title)])
    end.

Definition process_source (st : CwfState) (src : string * TitleData) : CwfState :=
  let '(source_id, titles_data) := src in
  let st := mkCwfState (word_stats st)
              (total_titles st + Z.of_nat (length titles_data)) (processed_titles st) in
  fold_left (process_title source_id) titles_data st.

Definition group_titles (results_to_process : list (string * TitleData)) : CwfState :=
  fold_left process_source results_to_process (mkCwfState init_word_stats 0 []).

Variable cfg : WeightConfig.

Fixpoint list_min (l : list Z) : Z :=
  match l with [] => 0 | [r] => r | r :: l' => Z.min r (list_min l') end.

Definition min_rank_key (x : StatTitle) : Z :=
  match t_ranks x with [] => 999 | rs => list_min rs end.

(** [key(a) <= key(b)] for the key
    [(-calculate_news_weight(x, rank_threshold), min(x["ranks"]) or 999, -x["count"])],
    compared as a Python tuple. *)
Definition title_key_le (a b : StatTitle) : bool :=
  let wa := (- calculate_news_weight cfg a rank_threshold)%Q in
  let wb := (- calculate_news_weight cfg b rank_threshold)%Q in
  negb (Qle_bool wb wa) ||
  (Qeq_bool wa wb &&
   ((min_rank_key a <? min_rank_key b) ||
    ((min_rank_key a =? min_rank_key b) && (- t_count a <=? - t_count b)))).

(** [stats.sort(key=lambda x: x["count"], reverse=True)] (stable). *)
Definition stat_count_ge (a b : Stat) : bool := stat_count b <=? stat_count a.

Definition count_word_frequency (results_to_process : list (string * TitleData))
    : list Stat * Z :=
  let st := group_titles results_to_process in
  let stats :=
    map (fun '(key, data) =>
           let all_titles := concat (map snd (ws_titles data)) in
           mkStat key (ws_count data) (sort_by title_key_le all_titles))
        (word_stats st) in
  (sort_by stat_count_ge stats, total_titles st).

End CountWordFrequency.

(** Specification side of the weight (the spec's formula). *)
Definition weight_formula (cfg : WeightConfig) (x : StatTitle) (rank_threshold : Z) : Q :=
  let rs := t_ranks x in
  let n := inject_Z (Z.of_nat (length rs)) in
  let rank_score :=
    (fold_right Qplus 0 (map (fun r => inject_Z (11 - Z.min r 10)) rs) / n)%Q in
  let frequency_score := inject_Z (Z.min (t_count x) 10 * 10) in
  let hotness_score :=
    (100 * inject_Z (Z.of_nat (length (filter (fun r => (r <= rank_threshold)%Z) rs))) / n)%Q in
  (rank_score * RANK_WEIGHT cfg + frequency_score * FREQUENCY_WEIGHT cfg
   + hotness_score * HOTNESS_WEIGHT cfg)%Q.

(** The order of a [Stat]'s titles in the spec's words: descending weight,
    then ascending minimum rank (999 without ranks), then descending count. *)
Definition title_order (cfg : WeightConfig) (rank_threshold : Z) (a b : StatTitle) : Prop :=
  let wa := calculate_news_weight cfg a rank_threshold in
  let wb := calculate_news_weight cfg b rank_threshold in
  (wb < wa)%Q \/
  ((wa == wb)%Q /\
   (min_rank_key a < min_rank_key b \/
    (min_rank_key a = min_rank_key b /\ t_count b <= t_count a))).

(** Group selection in the spec's words: a group matches when all its
    required words occur in the lowered title and its normal list is empty
    or one of its words occurs; a title hit by a filter word goes nowhere,
    otherwise it goes to the first matching group. *)
Definition group_matches (lower : string -> string) (title_lower : string)
    (g : WordGroup) : bool :=
  forallb (fun w => PyStr.contains (lower w) title_lower) (required g) &&
  (Nat.eqb (length (normal g)) 0 ||
   existsb (fun w => PyStr.contains (lower w) title_lower) (normal g)).

Definition expected_group (lower : string -> string) (groups : list WordGroup)
    (filters : list string) (title : string) : option string :=
  let title_lower := lower title in
  if existsb (fun fw => PyStr.contains (lower fw) title_lower) filters then None
  else option_map group_key (find (group_matches lower title_lower) groups).

(** The (group key, source id, title) triples recorded in [word_stats]. *)
Definition titles_triples (k : string) (L : list (string * list StatTitle))
    : list (string * string * string) :=
  flat_map (fun '(sid, es) => map (fun e => (k, sid, t_title e)) es) L.

Definition ws_triples (ws : list (string * WordStat)) : list (string * string * string) :=
  flat_map (fun '(k, w) => titles_triples k (ws_titles w)) ws.

(** The (source id, title) pairs of [results_to_process]. *)
Definition result_pairs (results : list (string * TitleData)) : list (string * string) :=
  flat_map (fun '(sid, td) => map (fun p => (sid, p.1)) td) results.

End Freq.

(* ================================================================== *)
(** ** The batch splitter: [split_content_into_batches] *)

Module Batch.
Import Freq.
Local Open Scope string_scope.

(** A newline character. *)
Definition nl : string := String (Ascii.ascii_of_nat 10) EmptyString.

Definition len (s : string) : Z := Z.of_nat (String.length s).

(** An entry of [report_data["new_titles"]]. *)
Record NewSource := mkNewSource {
  source_name : string;
  src_titles : list StatTitle
}.

(** The fields of [report_data] read by the splitter. *)
Record ReportData := mkReportData {
  stats : list Stat;
  new_titles : list NewSource;
  failed_ids : list string;
  total_new_count : Z
}.

Record UpdateInfo := mkUpdateInfo {
  remote_version : string;
  current_version : string
}.

(** [title_data.copy()] followed by [title_data_copy["is_new"] = False]. *)
Definition copy_not_new (t : StatTitle) : StatTitle :=
  mkStatTitle (t_title t) (t_source_name t) (t_first_time t) (t_last_time t)
    (t_time_display t) (t_count t) (t_ranks t) (t_rank_threshold t) (t_url t)
    (t_mobileUrl t) false.

(** The state of the splitter: [batches], [current_batch] and
    [current_batch_has_content]. *)
Record BState := mkBState {
  batches : list string;
  current_batch : string;
  has_content : bool
}.

(** The three shapes of update of [current_batch] found in the splitter:
    - [SAdd piece reset]: [test_content = current_batch + piece]; if it does
      not fit with the footer, flush the current batch (when it has content)
      and restart from [reset]; otherwise append; in both cases the batch
      has content;
    - [STry piece]: append [piece] only when it fits (the group separator);
    - [SBlock first rest]: one new-titles source: [SAdd] of the source header
      with its first line, [SAdd] of every further line, then the
      unconditional [current_batch += "\n"]. *)
Inductive Step :=
  | SAdd (piece reset : string)
  | STry (piece : string)
  | SBlock (first : string * string) (rest : list (string * string)).

Section Split.

(** [format_title_for_platform(platform, title_data, show_source)]. *)
Variable format_title_for_platform : string -> StatTitle -> bool -> string.
(** [CONFIG["FEISHU_MESSAGE_SEPARATOR"]] and the configured batch sizes. *)
Variable FEISHU_MESSAGE_SEPARATOR : string.
Variables DINGTALK_BATCH_SIZE FEISHU_BATCH_SIZE MESSAGE_BATCH_SIZE : Z.
(** [now.strftime('%Y-%m-%d %H:%M:%S')]. *)
Variable now_str : string.

Definition default_max_bytes (format_type : string) : Z :=
  if String.eqb format_type "dingtalk" then DINGTALK_BATCH_SIZE
  else if String.eqb format_type "feishu" then FEISHU_BATCH_SIZE
  else if String.eqb format_type "ntfy" then 3800
  else MESSAGE_BATCH_SIZE.

Definition base_header (format_type : string) (total_titles : Z) : string :=
  if String.eqb format_type "wework" then
    "**Total News:** " ++ pretty total_titles ++ nl ++ nl ++ nl ++ nl
  else if String.eqb format_type "telegram" then
    "Total News: " ++ pretty total_titles ++ nl ++ nl
  else if String.eqb format_type "ntfy" then
    "**Total News:** " ++ pretty total_titles ++ nl ++ nl
  else if String.eqb format_type "feishu" then ""
  else if String.eqb format_type "dingtalk" then
    "**Total News:** " ++ pretty total_titles ++ nl ++ nl ++
    "**Time:** " ++ now_str ++ nl ++ nl ++
    "**Type:** TrendRadar Analysis Report" ++ nl ++ nl ++
    "---" ++ nl ++ nl
  else "".

Definition base_footer (format_type : string) (update_info : option UpdateInfo) : string :=
  let md_update :=
    match update_info with
    | Some u => nl ++ "> TrendRadar New Version **" ++ remote_version u ++
                "** Found, Current **" ++ current_version u ++ "**"
    | None => ""
    end in
  if String.eqb format_type "wework" then
    nl ++ nl ++ nl ++ "> Updated: " ++ now_str ++ md_update
  else if String.eqb format_type "telegram" then
    nl ++ nl ++ "Updated: " ++ now_str ++
    match update_info with
    | Some u => nl ++ "TrendRadar New Version " ++ remote_version u ++
                " Found, Current " ++ current_version u
    | None => ""
    end
  else if String.eqb format_type "ntfy" then
    nl ++ nl ++ "> Updated: " ++ now_str ++ md_update
  else if String.eqb format_type "feishu" then
    nl ++ nl ++ "<font color='grey'>Updated: " ++ now_str ++ "</font>" ++
    match update_info with
    | Some u => nl ++ "<font color='grey'>TrendRadar New Version " ++
                remote_version u ++ " Found, Current " ++ current_version u ++ "</font>"
    | None => ""
    end
  else if String.eqb format_type "dingtalk" then
    nl ++ nl ++ "> Updated: " ++ now_str ++ md_update
  else "".

Definition stats_header (format_type : string) (stats : list Stat) : string :=
  match stats with
  | [] => ""
  | _ =>
      if String.eqb format_type "telegram" then
        "📊 Trending Keywords Stats" ++ nl ++ nl
      else if String.eqb format_type "wework" || String.eqb format_type "ntfy" ||
              String.eqb format_type "feishu" || String.eqb format_type "dingtalk" then
        "📊 **Trending Keywords Stats**" ++ nl ++ nl
      else ""
  end.

Definition word_header (format_type sequence_display word : string) (count : Z) : string :=
  let c := pretty count in
  if String.eqb format_type "wework" || String.eqb format_type "ntfy" ||
     String.eqb format_type "dingtalk" then
    if (10 <=? count)%Z then
      "🔥 " ++ sequence_display ++ " **" ++ word ++ "** : **" ++ c ++ "** items" ++ nl ++ nl
    else if (5 <=? count)%Z then
      "📈 " ++ sequence_display ++ " **" ++ word ++ "** : **" ++ c ++ "** items" ++ nl ++ nl
    else
      "📌 " ++ sequence_display ++ " **" ++ word ++ "** : " ++ c ++ " items" ++ nl ++ nl
  else if String.eqb format_type "telegram" then
    if (10 <=? count)%Z then
      "🔥 " ++ sequence_display ++ " " ++ word ++ " : " ++ c ++ " items" ++ nl ++ nl
    else if (5 <=? count)%Z then
      "📈 " ++ sequence_display ++ " " ++ word ++ " : " ++ c ++ " items" ++ nl ++ nl
    else
      "📌 " ++ sequence_display ++ " " ++ word ++ " : " ++ c ++ " items" ++ nl ++ nl
  else if String.eqb format_type "feishu" then
    if (10 <=? count)%Z then
      "🔥 <font color='grey'>" ++ sequence_display ++ "</font> **" ++ word ++
      "** : <font color='red'>" ++ c ++ "</font> items" ++ nl ++ nl
    else if (5 <=? count)%Z then
      "📈 <font color='grey'>" ++ sequence_display ++ "</font> **" ++ word ++
      "** : <font color='orange'>" ++ c ++ "</font> items" ++ nl ++ nl
    else
      "📌 <font color='grey'>" ++ sequence_display ++ "</font> **" ++ word ++
      "** : " ++ c ++ " items" ++ nl ++ nl
  else "".

(** The title text of the keyword-group section. *)
Definition stat_title_text (format_type : string) (t : StatTitle) : string :=
  if String.eqb format_type "wework" || String.eqb format_type "telegram" ||
     String.eqb format_type "ntfy" || String.eqb format_type "feishu" ||
     String.eqb format_type "dingtalk"
  then format_title_for_platform format_type t true
  else t_title t.

(** The title text of the new-titles section ([ntfy] is not listed there). *)
Definition new_title_text (format_type : string) (t : StatTitle) : string :=
  let t := copy_not_new t in
  if String.eqb format_type "wework" || String.eqb format_type "telegram" ||
     String.eqb format_type "feishu" || String.eqb format_type "dingtalk"
  then format_title_for_platform format_type t false
  else t_title t.

Definition first_news_line (format_type : string) (stat : Stat) : string :=
  match titles stat with
  | [] => ""
  | t :: rest =>
      "  1. " ++ stat_title_text format_type t ++ nl ++
      (if (1 <? length (titles stat))%nat then nl else "")
  end.

(** [news_line] for index [j] of the keyword-group section. *)
Definition news_line (format_type : string) (stat : Stat) (j : nat) (t : StatTitle) : string :=
  "  " ++ pretty (S j) ++ ". " ++ stat_title_text format_type t ++ nl ++
  (if (j <? length (titles stat) - 1)%nat then nl else "").

Definition separator (format_type : string) : string :=
  if String.eqb format_type "wework" then nl ++ nl ++ nl ++ nl
  else if String.eqb format_type "telegram" then nl ++ nl
  else if String.eqb format_type "ntfy" then nl ++ nl
  else if String.eqb format_type "feishu" then nl ++ FEISHU_MESSAGE_SEPARATOR ++ nl ++ nl
  else if String.eqb format_type "dingtalk" then nl ++ "---" ++ nl ++ nl
  else "".

Definition new_header (format_type : string) (total_new : Z) : string :=
  let n := pretty total_new in
  if String.eqb format_type "wework" then
    nl ++ nl ++ nl ++ nl ++ "🆕 **New Trending News** (Total " ++ n ++ " items)" ++ nl ++ nl
  else if String.eqb format_type "telegram" then
    nl ++ nl ++ "🆕 New Trending News (Total " ++ n ++ " items)" ++ nl ++ nl
  else if String.eqb format_type "ntfy" then
    nl ++ nl ++ "🆕 **New Trending News** (Total " ++ n ++ " items)" ++ nl ++ nl
  else if String.eqb format_type "feishu" then
    nl ++ FEISHU_MESSAGE_SEPARATOR ++ nl ++ nl ++
    "🆕 **New Trending News** (Total " ++ n ++ " items)" ++ nl ++ nl
  else if String.eqb format_type "dingtalk" then
    nl ++ "---" ++ nl ++ nl ++ "🆕 **New Trending News** (Total " ++ n ++ " items)" ++ nl ++ nl
  else "".

Definition source_header (format_type : string) (src : NewSource) : string :=
  let n := pretty (length (src_titles src)) in
  if String.eqb format_type "telegram" then
    source_name src ++ " (" ++ n ++ " items):" ++ nl ++ nl
  else if String.eqb format_type "wework" || String.eqb format_type "ntfy" ||
          String.eqb format_type "feishu" || String.eqb format_type "dingtalk" then
    "**" ++ source_name src ++ "** (" ++ n ++ " items):" ++ nl ++ nl
  else "".

Definition source_first_line (format_type : string) (src : NewSource) : string :=
  match src_titles src with
  | [] => ""
  | t :: _ => "  1. " ++ new_title_text format_type t ++ nl
  end.

Definition source_news_line (format_type : string) (j : nat) (t : StatTitle) : string :=
  "  " ++ pretty (S j) ++ ". " ++ new_title_text format_type t ++ nl.

Definition failed_header (format_type : string) : string :=
  if String.eqb format_type "wework" then
    nl ++ nl ++ nl ++ nl ++ "⚠️ **Platforms Failed to Fetch:**" ++ nl ++ nl
  else if String.eqb format_type "telegram" then
    nl ++ nl ++ "⚠️ Platforms Failed to Fetch:" ++ nl ++ nl
  else if String.eqb format_type "ntfy" then
    nl ++ nl ++ "⚠️ **Platforms Failed to Fetch:**" ++ nl ++ nl
  else if String.eqb format_type "feishu" then
    nl ++ FEISHU_MESSAGE_SEPARATOR ++ nl ++ nl ++ "⚠️ **Platforms Failed to Fetch:**" ++ nl ++ nl
  else if String.eqb format_type "dingtalk" then
    nl ++ "---" ++ nl ++ nl ++ "⚠️ **Platforms Failed to Fetch:**" ++ nl ++ nl
  else "".

Definition failed_line (format_type id_value : string) : string :=
  if String.eqb format_type "feishu" then "  • <font color='red'>" ++ id_value ++ "</font>" ++ nl
  else if String.eqb format_type "dingtalk" then "  • **" ++ id_value ++ "**" ++ nl
  else "  • " ++ id_value ++ nl.

Definition mode_text (mode : string) : string :=
  if String.eqb mode "incremental" then "No new matching trending keywords in incremental mode"
  else if String.eqb mode "current" then "No matching trending keywords in current ranking mode"
  else "No matching trending keywords".

(** [total_titles = sum(len(stat["titles"]) for stat in stats if stat["count"] > 0)] *)
Definition total_titles (stats : list Stat) : Z :=
  Z.of_nat (sum_list_with (fun s => length (titles s)) (filter (fun s => 0 < stat_count s) stats)).

(** The steps of the keyword-group section. *)
Definition group_unit (format_type : string) (total_count : nat) (i : nat) (stat : Stat) : string :=
  let sequence_display := "[" ++ pretty (S i) ++ "/" ++ pretty total_count ++ "]" in
  word_header format_type sequence_display (word stat) (stat_count stat) ++
  first_news_line format_type stat.

Definition group_steps (format_type bh sh : string) (total_count : nat) (i : nat)
    (stat : Stat) : list Step :=
  let sequence_display := "[" ++ pretty (S i) ++ "/" ++ pretty total_count ++ "]" in
  let wh := word_header format_type sequence_display (word stat) (stat_count stat) in
  let unit := group_unit format_type total_count i stat in
  (SAdd unit (bh ++ sh ++ unit) ::
  imap (fun k t => let line := news_line format_type stat (S k) t in
                   SAdd line (bh ++ sh ++ wh ++ line)) (drop 1 (titles stat)) ++
  (if (i <? total_count - 1)%nat then [STry (separator format_type)] else []))%list.

Definition stats_steps (format_type bh : string) (stats : list Stat) : list Step :=
  match stats with
  | [] => []
  | _ =>
      let sh := stats_header format_type stats in
      SAdd sh (bh ++ sh) ::
      concat (imap (group_steps format_type bh sh (length stats)) stats)
  end.

(** The steps of the new-titles section. *)
Definition source_unit (format_type : string) (src : NewSource) : string :=
  source_header format_type src ++ source_first_line format_type src.

Definition source_step (format_type bh nh : string) (src : NewSource) : Step :=
  let sh := source_header format_type src in
  let unit := source_unit format_type src in
  SBlock (unit, bh ++ nh ++ unit)
    (imap (fun k t => let line := source_news_line format_type (S k) t in
                      (line, bh ++ nh ++ sh ++ line)) (drop 1 (src_titles src))).

Definition new_steps (format_type bh : string) (report_data : ReportData) : list Step :=
  match new_titles report_data with
  | [] => []
  | srcs =>
      let nh := new_header format_type (total_new_count report_data) in
      SAdd nh (bh ++ nh) :: map (source_step format_type bh nh) srcs
  end.

(** The steps of the failed-ids section. *)
Definition failed_steps (format_type bh : string) (ids : list string) : list Step :=
  match ids with
  | [] => []
  | _ =>
      let fh := failed_header format_type in
      SAdd fh (bh ++ fh) ::
      map (fun id => let line := failed_line format_type id in
                     SAdd line (bh ++ fh ++ line)) ids
  end.

Definition all_steps (format_type : string) (report_data : ReportData) : list Step :=
  let bh := base_header format_type (total_titles (stats report_data)) in
  (stats_steps format_type bh (stats report_data) ++
   new_steps format_type bh report_data ++
   failed_steps format_type bh (failed_ids report_data))%list.

Section Exec.
Variables (base_footer : string) (max_bytes : Z).

Definition add_piece (st : BState) (piece reset : string) : BState :=
  let test_content := current_batch st ++ piece in
  if (max_bytes <=? len test_content + len base_footer)%Z then
    mkBState (if has_content st then (batches st ++ [(current_batch st ++ base_footer)%string])%list
              else batches st) reset true
  else mkBState (batches st) test_content true.

Definition try_piece (st : BState) (piece : string) : BState :=
  let test_content := current_batch st ++ piece in
  if (len test_content + len base_footer <? max_bytes)%Z then
    mkBState (batches st) test_content (has_content st)
  else st.

Definition exec_step (st : BState) (s : Step) : BState :=
  match s with
  | SAdd piece reset => add_piece st piece reset
  | STry piece => try_piece st piece
  | SBlock (piece, reset) rest =>
      let st := add_piece st piece reset in
      let st := fold_left (fun st '(p, r) => add_piece st p r) rest st in
      mkBState (batches st) (current_batch st ++ nl) (has_content st)
  end.

(** Run the steps from [current_batch = base_header] and finish the last batch. *)
Definition run_steps (base_header : string) (steps : list Step) : list string :=
  let st := fold_left exec_step steps (mkBState [] base_header false) in
  if has_content st then (batches st ++ [(current_batch st ++ base_footer)%string])%list
  else batches st.
End Exec.

(** [if max_bytes is None: max_bytes = ...] *)
Definition effective_max_bytes (format_type : string) (max_bytes : option Z) : Z :=
  match max_bytes with Some m => m | None => default_max_bytes format_type end.

(** The single batch returned when there is nothing to report. *)
Definition no_content_batch (bh bf mode : string) : string :=
  bh ++ "📭 " ++ mode_text mode ++ nl ++ nl ++ bf.

Definition split_content_into_batches (report_data : ReportData) (format_type : string)
    (update_info : option UpdateInfo) (max_bytes : option Z) (mode : string) : list string :=
  let max_bytes := effective_max_bytes format_type max_bytes in
  let bh := base_header format_type (total_titles (stats report_data)) in
  let bf := base_footer format_type update_info in
  match stats report_data, new_titles report_data, failed_ids report_data with
  | [], [], [] => [no_content_batch bh bf mode]
  | _, _, _ => run_steps bf max_bytes bh (all_steps format_type report_data)
  end.

End Split.

(** Specification side of the byte bound: the strings a batch may be
    restarted from ([reset] of the steps). *)
Definition step_resets (s : Step) : list string :=
  match s with
  | SAdd _ r => [r]
  | STry _ => []
  | SBlock (_, r) rest => r :: map snd rest
  end.

Definition resets (steps : list Step) : list string := concat (map step_resets steps).

(** [p] occurs contiguously in [s]. *)
Definition str_infix (p s : string) : Prop := exists x y, s = x ++ p ++ y.

(** The atomic units of a report: a keyword-group header with its first
    title line, and a new-titles source header with its first title line. *)
Definition is_atomic_unit (format_title_for_platform : string -> StatTitle -> bool -> string)
    (report_data : ReportData) (format_type u : string) : Prop :=
  (exists i stat, stats report_data !! i = Some stat /\
     u = group_unit format_title_for_platform format_type (length (stats report_data)) i stat) \/
  (exists src, src ∈ new_titles report_data /\
     u = source_unit format_title_for_platform format_type src).

End Batch.

(* ================================================================== *)
(** ** Text helpers: [clean_title], [html_escape], [format_rank_display] *)

Module Text.
Local Open Scope string_scope.

Definition byte (c : Ascii.ascii) : nat := Ascii.nat_of_ascii c.

(** The number of bytes of the UTF-8 encoded whitespace character (in the
    sense of [str.isspace], which is also what [\s] and [str.strip] use) at
    the head of [s]; 0 when [s] does not start with one. The whitespace
    characters are U+0009..U+000D, U+001C..U+0020, U+0085, U+00A0, U+1680,
    U+2000..U+200A, U+2028, U+2029, U+202F, U+205F and U+3000. *)
Definition ws_len (s : string) : nat :=
  match s with
  | EmptyString => 0
  | String a r =>
      let n := byte a in
      if (((9 <=? n) && (n <=? 13)) || ((28 <=? n) && (n <=? 32)))%nat then 1
      else
        match r with
        | EmptyString => 0
        | String b r' =>
            let m := byte b in
            if ((n =? 194) && ((m =? 133) || (m =? 160)))%nat then 2
            else
              match r' with
              | EmptyString => 0
              | String c _ =>
                  let k := byte c in
                  if ((n =? 225) && (m =? 154) && (k =? 128))%nat then 3
                  else if ((n =? 226) && (m =? 128) &&
                          (((128 <=? k) && (k <=? 138)) || (k =? 168) || (k =? 169) ||
                           (k =? 175)))%nat then 3
                  else if ((n =? 226) && (m =? 129) && (k =? 159))%nat then 3
                  else if ((n =? 227) && (m =? 128) && (k =? 128))%nat then 3
                  else 0
              end
        end
  end.

(** The string without its first [k] bytes. *)
Fixpoint drop_bytes (k : nat) (s : string) : string :=
  match k, s with
  | O, _ => s
  | S k', String _ r => drop_bytes k' r
  | S _, EmptyString => EmptyString
  end.

(** Skip the whitespace characters at the head of [s]. *)
Fixpoint skip_ws (fuel : nat) (s : string) : string :=
  match fuel with
  | O => s
  | S fuel' =>
      match ws_len s with
      | O => s
      | k => skip_ws fuel' (drop_bytes k s)
      end
  end.

(** [re.sub(r"\s+", " ", s)] *)
Fixpoint sub_ws_fuel (fuel : nat) (s : string) : string :=
  match fuel with
  | O => s
  | S fuel' =>
      match s with
      | EmptyString => EmptyString
      | String c r =>
          match ws_len s with
          | O => String c (sub_ws_fuel fuel' r)
          | _ => " " ++ sub_ws_fuel fuel' (skip_ws (S (String.length s)) s)
          end
      end
  end.

Definition sub_ws (s : string) : string := sub_ws_fuel (S (String.length s)) s.

(** [s.lstrip()] *)
Definition lstrip (s : string) : string := skip_ws (S (String.length s)) s.

(** [s] consists of whitespace characters only. *)
Definition all_ws (s : string) : bool := String.eqb (lstrip s) "".

(** [s.rstrip()] *)
Fixpoint rstrip (s : string) : string :=
  match s with
  | EmptyString => EmptyString
  | String c r => if all_ws s then EmptyString else String c (rstrip r)
  end.

(** [s.strip()] *)
Definition strip (s : string) : string := rstrip (lstrip s).

Definition lf : string := String (Ascii.ascii_of_nat 10) EmptyString.
Definition cr : string := String (Ascii.ascii_of_nat 13) EmptyString.
(** A double quote character. *)
Definition dq : string := String (Ascii.ascii_of_nat 34) EmptyString.

(** [clean_title] on a [str] title. *)
Definition clean_title (title : string) : string :=
  let cleaned_title := PyStr.replace cr " " (PyStr.replace lf " " title) in
  let cleaned_title := sub_ws cleaned_title in
  strip cleaned_title.

(** [html_escape] on a [str] text. *)
Definition html_escape (text : string) : string :=
  PyStr.replace "'" "&#x27;"
    (PyStr.replace dq "&quot;"
      (PyStr.replace ">" "&gt;"
        (PyStr.replace "<" "&lt;"
          (PyStr.replace "&" "&amp;" text)))).

(** [format_rank_display]: [sorted(set(ranks))] is the sorted list of the
    distinct ranks. *)
Definition format_rank_display (ranks : list Z) (rank_threshold : Z)
    (format_type : string) : string :=
  match ranks with
  | [] => ""
  | _ =>
      let unique_ranks := Freq.sort_by Z.leb (remove_dups ranks) in
      let min_rank := default 0 (head unique_ranks) in
      let max_rank := default 0 (last unique_ranks) in
      let '(highlight_start, highlight_end) :=
        if String.eqb format_type "html" then ("<font color='red'><strong>", "</strong></font>")
        else if String.eqb format_type "feishu" then ("<font color='red'>**", "**</font>")
        else if String.eqb format_type "dingtalk" then ("**", "**")
        else if String.eqb format_type "wework" then ("**", "**")
        else if String.eqb format_type "telegram" then ("<b>", "</b>")
        else ("**", "**") in
      if (min_rank <=? rank_threshold)%Z then
        if (min_rank =? max_rank)%Z
        then highlight_start ++ "[" ++ pretty min_rank ++ "]" ++ highlight_end
        else highlight_start ++ "[" ++ pretty min_rank ++ " - " ++ pretty max_rank ++ "]"
             ++ highlight_end
      else
        if (min_rank =? max_rank)%Z then "[" ++ pretty min_rank ++ "]"
        else "[" ++ pretty min_rank ++ " - " ++ pretty max_rank ++ "]"
  end.

(** Specification side. *)

(** The entity of a character escaped by [html_escape], the character
    itself otherwise. *)
Definition escape_char (c : Ascii.ascii) : string :=
  if bool_decide (c = Ascii.ascii_of_nat 38) then "&amp;"
  else if bool_decide (c = Ascii.ascii_of_nat 60) then "&lt;"
  else if bool_decide (c = Ascii.ascii_of_nat 62) then "&gt;"
  else if bool_decide (c = Ascii.ascii_of_nat 34) then "&quot;"
  else if bool_decide (c = Ascii.ascii_of_nat 39) then "&#x27;"
  else String c EmptyString.

Fixpoint escape_each (s : string) : string :=
  match s with
  | EmptyString => EmptyString
  | String c r => escape_char c ++ escape_each r
  end.

(** The largest element of a non-empty list. *)
Fixpoint list_max (l : list Z) : Z :=
  match l with [] => 0 | [r] => r | r :: l' => Z.max r (list_max l') end.

End Text.

(* ================================================================== *)
(** ** Snapshot files: one title line of [save_titles_to_file] and its
       parsing in [parse_file_titles] *)

Module Snapshot.
Local Open Scope string_scope.

Definition nl : string := String (Ascii.ascii_of_nat 10) EmptyString.
Definition cr : string := String (Ascii.ascii_of_nat 13) EmptyString.

(** [s.rsplit(sep, 1)] when [sep in s] (for a non-empty [sep]): the split at
    the last occurrence; [None] when [sep] does not occur. *)
Fixpoint rsplit1 (sep s : string) : option (string * string) :=
  match s with
  | EmptyString => None
  | String c rest =>
      match rsplit1 sep rest with
      | Some (a, b) => Some (String c a, b)
      | None =>
          if String.prefix sep s
          then Some (EmptyString, String.substring (String.length sep) (String.length s) s)
          else None
      end
  end.

(** [s.split(sep, 1)] when [sep in s]: the split at the first occurrence. *)
Fixpoint split1 (sep s : string) : option (string * string) :=
  match s with
  | EmptyString => None
  | String c rest =>
      if String.prefix sep s
      then Some (EmptyString, String.substring (String.length sep) (String.length s) s)
      else match split1 sep rest with
           | Some (a, b) => Some (String c a, b)
           | None => None
           end
  end.

(** [s.endswith("]")] *)
Fixpoint endswith_bracket (s : string) : bool :=
  match s with
  | EmptyString => false
  | String c EmptyString => bool_decide (c = Ascii.ascii_of_nat 93)
  | String _ rest => endswith_bracket rest
  end.

(** [s[:-1]] *)
Definition drop_last (s : string) : string :=
  String.substring 0 (String.length s - 1) s.

Definition is_digit (c : Ascii.ascii) : bool :=
  let n := Ascii.nat_of_ascii c in ((48 <=? n) && (n <=? 57))%nat.

Fixpoint all_digits (s : string) : bool :=
  match s with
  | EmptyString => true
  | String c rest => is_digit c && all_digits rest
  end.

(** [s.isdigit()] on ASCII text. *)
Definition isdigit (s : string) : bool :=
  negb (String.eqb s EmptyString) && all_digits s.

(** [int(s)] for a string of decimal digits. *)
Fixpoint digits_value_acc (acc : nat) (s : string) : nat :=
  match s with
  | EmptyString => acc
  | String c rest => digits_value_acc (10 * acc + (Ascii.nat_of_ascii c - 48)) rest
  end.

Definition int_of_digits (s : string) : nat := digits_value_acc 0 s.

(** One title line written by [save_titles_to_file] (lines 594-605), for an
    already cleaned title. *)
Definition save_title_line (rank : nat) (cleaned_title url mobile_url summary : string)
    : string :=
  let line := pretty rank ++ ". " ++ cleaned_title in
  let line := if String.eqb url "" then line else line ++ " [URL:" ++ url ++ "]" in
  let line := if String.eqb mobile_url "" then line
              else line ++ " [MOBILE:" ++ mobile_url ++ "]" in
  let line := if String.eqb summary "" then line
              else let clean_summary := PyStr.replace cr "" (PyStr.replace nl " " summary) in
                   line ++ " [SUMMARY:" ++ clean_summary ++ "]" in
  line ++ nl.

(** The dictionary stored for a parsed title line. *)
Record ParsedTitle := mkParsedTitle {
  p_title : string;
  p_ranks : list nat;
  p_url : string;
  p_mobile_url : string;
  p_summary : string
}.

(** [if tag in title_part: title_part, part = title_part.rsplit(tag, 1);
    value = part[:-1] if part.endswith("]")] *)
Definition take_tag (tag title_part : string) : string * string :=
  match rsplit1 tag title_part with
  | Some (tp, part) => (tp, if endswith_bracket part then drop_last part else "")
  | None => (title_part, "")
  end.

(** The body of the title-line loop of [parse_file_titles] (lines 709-737). *)
Definition parse_title_line (clean_title : string -> string) (line : string)
    : ParsedTitle :=
  let title_part := Text.strip line in
  let '(rank, title_part) :=
    match split1 ". " title_part with
    | Some (rank_str, rest) =>
        if isdigit rank_str then (Some (int_of_digits rank_str), rest)
        else (None, title_part)
    | None => (None, title_part)
    end in
  let '(title_part, mobile_url) := take_tag " [MOBILE:" title_part in
  let '(title_part, url) := take_tag " [URL:" title_part in
  let '(title_part, summary) := take_tag " [SUMMARY:" title_part in
  {| p_title := clean_title (Text.strip title_part);
     p_ranks := match rank with Some r => [r] | None => [1%nat] end;
     p_url := url;
     p_mobile_url := mobile_url;
     p_summary := summary |}.

End Snapshot.

(* ================================================================== *)
(** ** New titles of the latest snapshot: [detect_latest_new_titles] *)

Module NewTitles.
Import Ledger.

(** The loop of [detect_latest_new_titles] filling [historical_titles]
    from one (filtered) snapshot. *)
Definition add_history (historical_titles : gmap string (gset string))
    (historical_data : list (string * TitleData)) : gmap string (gset string) :=
  fold_left (fun h '(source_id, titles_data) =>
      <[source_id := fold_left (fun s '(title, _) => {[title]} ∪ s) titles_data
                       (default ∅ (h !! source_id))]> h)
    historical_data historical_titles.

(** [detect_latest_new_titles] on the day's parsed snapshots, sorted by file
    name (a missing directory gives no snapshot). *)
Definition detect_latest_new_titles (ids : option (list string))
    (files : list Snapshot) : list (string * TitleData) :=
  if (length files <? 2)%nat then []
  else
    let latest_titles := filter_platforms ids (default ("", []) (last files)).2 in
    let historical_titles :=
      fold_left (fun h f => add_history h (filter_platforms ids f.2))
        (removelast files) ∅ in
    fold_left (fun new_titles '(source_id, latest_source_titles) =>
        let historical_set := default ∅ (historical_titles !! source_id) in
        let source_new_titles :=
          filter (fun p => p.1 ∉ historical_set) latest_source_titles in
        match source_new_titles with
        | [] => new_titles
        | _ => new_titles ++ [(source_id, source_new_titles)]
        end)
      latest_titles [].

End NewTitles.

(* ================================================================== *)
(** ** Specification side of the ledger's per-title fields *)

Module LedgerSpec.
Import Ledger.

(** The observations of [(sid, title)], snapshot after snapshot, with the
    snapshot's time stamp. *)
Definition observations (ids : option (list string)) (files : list Snapshot)
    (sid title : string) : list (string * Obs) :=
  omap (fun f => (fun d => (f.1, d)) <$> obs_in ids f sid title) files.

(** The first non-empty string of a list, [""] when there is none. *)
Definition first_nonempty (l : list string) : string :=
  default "" (head (filter (fun u => u <> "") l)).

End LedgerSpec.

(* ================================================================== *)
(** ** The keyword file: [load_frequency_words] *)

Module Config.
Import Freq.
Local Open Scope string_scope.

(** [s.split(sep)] for a non-empty [sep]: the pieces between the
    non-overlapping occurrences of [sep], searched from the left. Every
    split consumes at least one byte, so [String.length s + 1] rounds are
    enough. *)
Fixpoint split_fuel (fuel : nat) (sep s : string) : list string :=
  match fuel with
  | O => [s]
  | S fuel' =>
      match Snapshot.split1 sep s with
      | Some (a, b) => a :: split_fuel fuel' sep b
      | None => [s]
      end
  end.

Definition py_split (sep s : string) : list string :=
  split_fuel (S (String.length s)) sep s.

(** [w[1:]] for a word whose first character is ASCII. *)
Definition drop_first (w : string) : string :=
  match w with EmptyString => EmptyString | String _ r => r end.

(** [[group.strip() for group in content.split("\n\n") if group.strip()]] *)
Definition blocks (content : string) : list string :=
  filter (fun g => g <> "") (map Text.strip (py_split (Text.lf ++ Text.lf) content)).

(** [[word.strip() for word in group.split("\n") if word.strip()]] *)
Definition block_words (group : string) : list string :=
  filter (fun w => w <> "") (map Text.strip (py_split Text.lf group)).

(** One iteration of [for word in words]: the state is
    [group_required_words], [group_normal_words], [group_filter_words] and
    the global [filter_words]. *)
Definition word_step (acc : list string * list string * list string * list string)
    (word : string) : list string * list string * list string * list string :=
  let '(req, norm, gfw, fw) := acc in
  if String.prefix "!" word
  then (req, norm, app gfw [drop_first word], app fw [drop_first word])
  else if String.prefix "+" word
  then (app req [drop_first word], norm, gfw, fw)
  else (req, app norm [word], gfw, fw).

(** One iteration of [for group in word_groups]: the state is
    [processed_groups] and [filter_words]. *)
Definition group_step (acc : list WordGroup * list string) (group : string)
    : list WordGroup * list string :=
  let '(processed_groups, filter_words) := acc in
  let '(group_required_words, group_normal_words, _, filter_words) :=
    fold_left word_step (block_words group) ([], [], [], filter_words) in
  match group_required_words, group_normal_words with
  | [], [] => (processed_groups, filter_words)
  | _, _ =>
      let group_key :=
        match group_normal_words with
        | [] => String.concat " " group_required_words
        | _ => String.concat " " group_normal_words
        end in
      (app processed_groups [mkWordGroup group_required_words group_normal_words group_key],
       filter_words)
  end.

(** [load_frequency_words] on [content], the text read from the keyword
    file (opened in text mode, so its line ends are already "\n"). *)
Definition load_frequency_words (content : string) : list WordGroup * list string :=
  fold_left group_step (blocks content) ([], []).

(** Specification side: the words of the file, block by block, in order. *)
Definition config_words (content : string) : list string :=
  List.concat (map block_words (blocks content)).

End Config.

(* ================================================================== *)
(** ** The report data: [prepare_report_data] *)

Module Report.
Import Ledger Freq.
Local Open Scope string_scope.

(** A title dict built by [prepare_report_data]. *)
Record ReportTitle := mkReportTitle {
  r_title : string;
  r_source_name : string;
  r_time_display : string;
  r_count : Z;
  r_ranks : list Z;
  r_rank_threshold : Z;
  r_url : string;
  r_mobile_url : string;
  r_is_new : bool
}.

(** An entry of ["stats"] (the float ["percentage"] is left out). *)
Record ReportStat := mkReportStat {
  rs_word : string;
  rs_count : Z;
  rs_titles : list ReportTitle
}.

(** An entry of ["new_titles"]. *)
Record ReportSource := mkReportSource {
  rn_source_id : string;
  rn_source_name : string;
  rn_titles : list ReportTitle
}.

Record Report := mkReport {
  r_stats : list ReportStat;
  r_new_titles : list ReportSource;
  r_failed_ids : list string;
  r_total_new_count : Z
}.

Section Prepare.

(** Python's [str.lower]. *)
Variable lower : string -> string.
(** [CONFIG["RANK_THRESHOLD"]]. *)
Variable rank_threshold : Z.
(** The result of the call [load_frequency_words()]. *)
Variable word_groups : list WordGroup.
Variable filter_words : list string.

(** The [processed_title] dict of a new title. *)
Definition new_title_entry (source_name : string) (p : string * Obs) : ReportTitle :=
  let '(title, title_data) := p in
  mkReportTitle title source_name "" 1 (ob_ranks title_data) rank_threshold
    (ob_url title_data) (ob_mobileUrl title_data) true.

(** The [processed_title] dict of a title of a stat. *)
Definition stat_title_entry (title_data : StatTitle) : ReportTitle :=
  mkReportTitle (t_title title_data) (t_source_name title_data)
    (t_time_display title_data) (t_count title_data) (t_ranks title_data)
    (t_rank_threshold title_data) (t_url title_data) (t_mobileUrl title_data)
    (t_is_new title_data).

(** [prepare_report_data]; [None] for [failed_ids], [new_titles] or
    [id_to_name] is the empty list, which Python treats alike. *)
Definition prepare_report_data (stats : list Stat) (failed_ids : list string)
    (new_titles : list (string * TitleData)) (id_to_name : list (string * string))
    (mode : string) : Report :=
  let hide_new_section := String.eqb mode "incremental" in
  let processed_new_titles :=
    if hide_new_section then []
    else
      let filtered_new_titles :=
        match new_titles, id_to_name with
        | _ :: _, _ :: _ =>
            fold_left (fun acc '(source_id, titles_data) =>
              let filtered_titles :=
                filter (fun p => matches_word_groups lower p.1 word_groups filter_words = true)
                  titles_data in
              match filtered_titles with
              | [] => acc
              | _ => app acc [(source_id, filtered_titles)]
              end) new_titles []
        | _, _ => []
        end in
      match filtered_new_titles, id_to_name with
      | _ :: _, _ :: _ =>
          fold_left (fun acc '(source_id, titles_data) =>
            let source_name := default source_id (assoc id_to_name source_id) in
            let source_titles := map (new_title_entry source_name) titles_data in
            match source_titles with
            | [] => acc
            | _ => app acc [mkReportSource source_id source_name source_titles]
            end) filtered_new_titles []
      | _, _ => []
      end in
  let processed_stats :=
    fold_left (fun acc stat =>
      if (stat_count stat <=? 0)%Z then acc
      else app acc [mkReportStat (word stat) (stat_count stat)
                     (map stat_title_entry (titles stat))]) stats [] in
  mkReport processed_stats processed_new_titles failed_ids
    (Z.of_nat (sum_list_with (fun source => length (rn_titles source)) processed_new_titles)).

End Prepare.

(** [format_title_for_platform] on a title dict of the report data. *)
Definition format_title_for_platform (platform : string) (title_data : ReportTitle)
    (show_source : bool) : string :=
  let rank_display :=
    Text.format_rank_display (r_ranks title_data) (r_rank_threshold title_data) platform in
  let link_url := py_or (r_mobile_url title_data) (r_url title_data) in
  let cleaned_title := Text.clean_title (r_title title_data) in
  let title_prefix := if r_is_new title_data then "🆕 " else "" in
  let time_display := r_time_display title_data in
  let count := r_count title_data in
  if String.eqb platform "feishu" then
    let formatted_title :=
      if String.eqb link_url "" then cleaned_title
      else "[" ++ cleaned_title ++ "](" ++ link_url ++ ")" in
    let result :=
      if show_source
      then "<font color='grey'>[" ++ r_source_name title_data ++ "]</font> "
             ++ title_prefix ++ formatted_title
      else title_prefix ++ formatted_title in
    let result := if String.eqb rank_display "" then result else result ++ " " ++ rank_display in
    let result := if String.eqb time_display "" then result
                  else result ++ " <font color='grey'>- " ++ time_display ++ "</font>" in
    if (1 <? count)%Z
    then result ++ " <font color='green'>(" ++ pretty count ++ " times)</font>"
    else result
  else if String.eqb platform "dingtalk" then
    let formatted_title :=
      if String.eqb link_url "" then cleaned_title
      else "[" ++ cleaned_title ++ "](" ++ link_url ++ ")" in
    let result :=
      if show_source
      then "[" ++ r_source_name title_data ++ "] " ++ title_prefix ++ formatted_title
      else title_prefix ++ formatted_title in
    let result := if String.eqb rank_display "" then result else result ++ " " ++ rank_display in
    let result := if String.eqb time_display "" then result
                  else result ++ " - " ++ time_display in
    if (1 <? count)%Z then result ++ " (" ++ pretty count ++ " times)" else result
  else if String.eqb platform "wework" then
    let formatted_title :=
      if String.eqb link_url "" then cleaned_title
      else "[" ++ cleaned_title ++ "](" ++ link_url ++ ")" in
    let result :=
      if show_source
      then "[" ++ r_source_name title_data ++ "] " ++ title_prefix ++ formatted_title
      else title_prefix ++ formatted_title in
    let result := if String.eqb rank_display "" then result else result ++ " " ++ rank_display in
    let result := if String.eqb time_display "" then result
                  else result ++ " - " ++ time_display in
    if (1 <? count)%Z then result ++ " (" ++ pretty count ++ " times)" else result
  else if String.eqb platform "telegram" then
    let formatted_title :=
      if String.eqb link_url "" then cleaned_title
      else "<a href=" ++ Text.dq ++ link_url ++ Text.dq ++ ">"
             ++ Text.html_escape cleaned_title ++ "</a>" in
    let result :=
      if show_source
      then "[" ++ r_source_name title_data ++ "] " ++ title_prefix ++ formatted_title
      else title_prefix ++ formatted_title in
    let result := if String.eqb rank_display "" then result else result ++ " " ++ rank_display in
    let result := if String.eqb time_display "" then result
                  else result ++ " <code>- " ++ time_display ++ "</code>" in
    if (1 <? count)%Z then result ++ " <code>(" ++ pretty count ++ " times)</code>"
    else result
  else if String.eqb platform "ntfy" then
    let formatted_title :=
      if String.eqb link_url "" then cleaned_title
      else "[" ++ cleaned_title ++ "](" ++ link_url ++ ")" in
    let result :=
      if show_source
      then "[" ++ r_source_name title_data ++ "] " ++ title_prefix ++ formatted_title
      else title_prefix ++ formatted_title in
    let result := if String.eqb rank_display "" then result else result ++ " " ++ rank_display in
    let result := if String.eqb time_display "" then result
                  else result ++ " `- " ++ time_display ++ "`" in
    if (1 <? count)%Z then result ++ " `(" ++ pretty count ++ " times)`" else result
  else if String.eqb platform "html" then
    let rank_display :=
      Text.format_rank_display (r_ranks title_data) (r_rank_threshold title_data) "html" in
    let link_url := py_or (r_mobile_url title_data) (r_url title_data) in
    let escaped_title := Text.html_escape cleaned_title in
    let escaped_source_name := Text.html_escape (r_source_name title_data) in
    let formatted_title :=
      if String.eqb link_url "" then
        "[" ++ escaped_source_name ++ "] <span class=" ++ Text.dq ++ "no-link" ++ Text.dq
          ++ ">" ++ escaped_title ++ "</span>"
      else
        let escaped_url := Text.html_escape link_url in
        "[" ++ escaped_source_name ++ "] <a href=" ++ Text.dq ++ escaped_url ++ Text.dq
          ++ " target=" ++ Text.dq ++ "_blank" ++ Text.dq ++ " class=" ++ Text.dq
          ++ "news-link" ++ Text.dq ++ ">" ++ escaped_title ++ "</a>" in
    let formatted_title :=
      if String.eqb rank_display "" then formatted_title
      else formatted_title ++ " " ++ rank_display in
    let formatted_title :=
      if String.eqb time_display "" then formatted_title
      else let escaped_time := Text.html_escape time_display in
           formatted_title ++ " <font color='grey'>- " ++ escaped_time ++ "</font>" in
    let formatted_title :=
      if (1 <? count)%Z
      then formatted_title ++ " <font color='green'>(" ++ pretty count ++ " times)</font>"
      else formatted_title in
    if r_is_new title_data
    then "<div class='new-title'>🆕 " ++ formatted_title ++ "</div>"
    else formatted_title
  else cleaned_title.

End Report.

(* ================================================================== *)
(** ** The input selection of [count_word_frequency] by report mode *)

Module Mode.
Import Ledger.
Local Open Scope string_scope.

(** One [title_data] of the [latest_time] loop of the [current] mode:
    [if last_time: if latest_time is None or last_time > latest_time:
    latest_time = last_time]. Python compares strings by code point, which
    is the byte order of their UTF-8 encodings, as [String.ltb] does. *)
Definition latest_step (latest_time : option string) (title_data : Info) : option string :=
  let lt := last_time title_data in
  if String.eqb lt "" then latest_time
  else
    match latest_time with
    | None => Some lt
    | Some l => if String.ltb l lt then Some lt else latest_time
    end.

(** [for source_titles in title_info.values(): for title_data in
    source_titles.values(): ...] *)
Definition find_latest_time (title_info : gmap string (gmap string Info)) : option string :=
  fold_left (fun acc '(_, source_titles) =>
      fold_left (fun acc '(_, title_data) => latest_step acc title_data)
        (map_to_list source_titles) acc)
    (map_to_list title_info) None.

(** The [results_to_process] of the [current] mode once [latest_time] is
    known: per source of [results] present in [title_info], the titles whose
    [last_time] is [latest_time], sources with none left out. *)
Definition filter_current (title_info : gmap string (gmap string Info))
    (latest_time : string) (results : list (string * TitleData))
    : list (string * TitleData) :=
  omap (fun '(source_id, source_titles) =>
      match title_info !! source_id with
      | None => None
      | Some infos =>
          let filtered_titles :=
            List.filter (fun '(title, _) =>
                match infos !! title with
                | Some info => String.eqb (last_time info) latest_time
                | None => false
                end) source_titles in
          match filtered_titles with
          | [] => None
          | _ => Some (source_id, filtered_titles)
          end
      end) results.

(** [results_to_process] and [all_news_are_new]; [new_titles] and
    [title_info] are [Optional] and falsy when [None] or empty. *)
Definition select_results (mode : string) (is_first_today : bool)
    (results : list (string * TitleData))
    (new_titles : option (list (string * TitleData)))
    (title_info : option (gmap string (gmap string Info)))
    : list (string * TitleData) * bool :=
  if String.eqb mode "incremental" then
    if is_first_today then (results, true)
    else
      (match new_titles with
       | Some ((_ :: _) as nt) => nt
       | _ => []
       end, true)
  else if String.eqb mode "current" then
    (match title_info with
     | Some ti =>
         if Nat.eqb (size ti) 0 then results
         else
           match find_latest_time ti with
           | Some latest_time =>
               if String.eqb latest_time "" then results
               else filter_current ti latest_time results
           | None => results
           end
     | None => results
     end, false)
  else (results, false).

End Mode.

(* ================================================================== *)
(** * Proofs *)

Lemma assoc_None_not_in {V} (l : list (string * V)) k :
  k ∉ map fst l -> assoc l k = None.
Proof.
  induction l as [|[k' v] l IH]; simpl; intros Hn; [done|].
  destruct (String.eqb_spec k' k) as [->|]; [set_solver|].
  apply IH; set_solver.
Qed.

Module LedgerFacts.
Import Ledger.

Lemma fold_insert_lookup {A} (f : Obs -> A) (td : TitleData) (m : gmap string A) t :
  NoDup (map fst td) ->
  fold_left (fun m '(t, d) => <[t := f d]> m) td m !! t =
  match assoc td t with Some d => Some (f d) | None => m !! t end.
Proof.
  revert m. induction td as [|[t0 d0] td IH]; intros m Hnd; simpl; [done|].
  inversion Hnd as [|? ? Hnin Hnd']; subst.
  rewrite IH by done.
  destruct (String.eqb_spec t0 t) as [->|Hne].
  - rewrite assoc_None_not_in by done. by rewrite lookup_insert_eq.
  - destruct (assoc td t); [done|]. by rewrite lookup_insert_ne.
Qed.

Lemma fold_insert_synced (time_info : string) (td : TitleData) ar ti :
  synced_inner ar ti ->
  synced_inner (fold_left (fun m '(t, d) => <[t := d]> m) td ar)
               (fold_left (fun m '(t, d) => <[t := new_info time_info d]> m) td ti).
Proof.
  revert ar ti. induction td as [|[t0 d0] td IH]; intros ar ti Hs; simpl; [done|].
  apply IH. intros t. destruct (decide (t0 = t)) as [->|Hne].
  - by rewrite !lookup_insert_eq.
  - rewrite !lookup_insert_ne by done. apply Hs.
Qed.

Lemma merge_step_synced time_info ar ti item :
  synced_inner ar ti ->
  synced_inner (merge_step time_info (ar, ti) item).1
               (merge_step time_info (ar, ti) item).2.
Proof.
  destruct item as [t0 d]. intros Hs. simpl.
  pose proof (Hs t0) as H0.
  destruct (ar !! t0) as [ex|] eqn:Ea; destruct (ti !! t0) as [i|] eqn:Ei;
    try contradiction; simpl; intros t;
    (destruct (decide (t0 = t)) as [->|Hne];
     [rewrite !lookup_insert_eq; simpl; try done
     |rewrite !lookup_insert_ne by done; apply Hs]).
Qed.

Lemma merge_fold_spec time_info (td : TitleData) ar ti :
  synced_inner ar ti -> NoDup (map fst td) ->
  synced_inner (fold_left (merge_step time_info) td (ar, ti)).1
               (fold_left (merge_step time_info) td (ar, ti)).2 /\
  forall t, (fold_left (merge_step time_info) td (ar, ti)).2 !! t =
    match assoc td t with
    | Some d => Some (upd_entry time_info d (ti !! t))
    | None => ti !! t
    end.
Proof.
  revert ar ti. induction td as [|[t0 d0] td IH]; intros ar ti Hs Hnd;
    cbn [fold_left assoc]; [done|].
  inversion Hnd as [|? ? Hnin Hnd']; subst.
  pose proof (merge_step_synced time_info ar ti (t0, d0) Hs) as Hs1.
  destruct (merge_step time_info (ar, ti) (t0, d0)) as [ar1 ti1] eqn:Estep.
  destruct (IH ar1 ti1 Hs1 Hnd') as [IHs IHl]. split; [done|].
  intros t. rewrite IHl.
  assert (Hti1 : ti1 !! t = if String.eqb t0 t then Some (upd_entry time_info d0 (ti !! t))
                            else ti !! t).
  { simpl in Estep. pose proof (Hs t0) as H0.
    destruct (ar !! t0) as [ex|] eqn:Ea; destruct (ti !! t0) as [i|] eqn:Ei;
      try contradiction; injection Estep as <- <-;
      (destruct (String.eqb_spec t0 t) as [->|Hne];
       [rewrite lookup_insert_eq, Ei; simpl; try done
       |by rewrite lookup_insert_ne]).
    unfold merge_info. by rewrite H0. }
  rewrite Hti1.
  destruct (String.eqb_spec t0 t) as [->|Hne].
  - by rewrite assoc_None_not_in.
  - done.
Qed.

Lemma merge_step_keep time_info ar ti item :
  synced_inner ar ti ->
  forall t e, ti !! t = Some e ->
  exists e', (merge_step time_info (ar, ti) item).2 !! t = Some e' /\ fill_once_kept e e'.
Proof.
  destruct item as [t0 d]. intros Hs t e He. simpl.
  pose proof (Hs t0) as H0.
  destruct (ar !! t0) as [ex|] eqn:Ea; destruct (ti !! t0) as [i|] eqn:Ei;
    try contradiction; simpl.
  - destruct (decide (t0 = t)) as [->|Hne].
    + rewrite lookup_insert_eq. eexists; split; [done|].
      rewrite Ei in He. injection He as ->. simpl.
      repeat split; intros Hne; by apply String.eqb_neq in Hne as ->.
    + rewrite lookup_insert_ne by done. exists e. by repeat split.
  - destruct (decide (t0 = t)) as [->|Hne]; [congruence|].
    rewrite lookup_insert_ne by done. exists e. by repeat split.
Qed.

Lemma fill_once_kept_trans e1 e2 e3 :
  fill_once_kept e1 e2 -> fill_once_kept e2 e3 -> fill_once_kept e1 e3.
Proof.
  intros (H1 & H2 & H3) (G1 & G2 & G3).
  repeat split; intros Hn; [rewrite G1|rewrite G2|rewrite G3]; auto;
    [rewrite H1|rewrite H2|rewrite H3]; auto.
Qed.

Lemma fill_once_kept_refl e : fill_once_kept e e.
Proof. by repeat split. Qed.

Lemma merge_fold_keep time_info (td : TitleData) ar ti :
  synced_inner ar ti ->
  synced_inner (fold_left (merge_step time_info) td (ar, ti)).1
               (fold_left (merge_step time_info) td (ar, ti)).2 /\
  forall t e, ti !! t = Some e ->
  exists e', (fold_left (merge_step time_info) td (ar, ti)).2 !! t = Some e' /\
             fill_once_kept e e'.
Proof.
  revert ar ti. induction td as [|item td IH]; intros ar ti Hs; cbn [fold_left].
  - split; [done|]. intros t e He. exists e. split; [done|]. apply fill_once_kept_refl.
  - pose proof (merge_step_synced time_info ar ti item Hs) as Hs1.
    pose proof (merge_step_keep time_info ar ti item Hs) as Hk1.
    destruct (merge_step time_info (ar, ti) item) as [ar1 ti1] eqn:Estep.
    destruct (IH ar1 ti1 Hs1) as [IHs IHk]. split; [done|].
    intros t e He. destruct (Hk1 t e He) as (e1 & He1 & Hk).
    destruct (IHk t e1 He1) as (e2 & He2 & Hk2).
    exists e2. split; [done|]. by eapply fill_once_kept_trans.
Qed.

Lemma process_keep sid td time_info st :
  synced st ->
  synced (process_source_data sid td time_info st) /\
  forall s t e, ledger_entry st s t = Some e ->
  exists e', ledger_entry (process_source_data sid td time_info st) s t = Some e' /\
             fill_once_kept e e'.
Proof.
  intros Hs. unfold process_source_data, ledger_entry.
  pose proof (Hs sid) as H0.
  destruct (all_results st !! sid) as [ar|] eqn:Ea;
    destruct (title_info st !! sid) as [ti|] eqn:Ei; try contradiction.
  - destruct (merge_fold_keep time_info td ar ti H0) as [Hs1 Hk].
    simpl. destruct (fold_left (merge_step time_info) td (ar, ti)) as [ar1 ti1] eqn:Ef.
    simpl in *. split.
    + intros s. simpl. destruct (decide (sid = s)) as [->|Hne].
      * by rewrite !lookup_insert_eq.
      * rewrite !lookup_insert_ne by done. apply Hs.
    + intros s t e He. destruct (decide (sid = s)) as [->|Hne].
      * rewrite lookup_insert_eq. rewrite Ei in He. simpl in *. by apply Hk.
      * rewrite lookup_insert_ne by done. exists e. split; [done|].
        apply fill_once_kept_refl.
  - simpl. split.
    + intros s. simpl. destruct (decide (sid = s)) as [->|Hne].
      * rewrite !lookup_insert_eq. apply fold_insert_synced. intros t.
        by rewrite !lookup_empty.
      * rewrite !lookup_insert_ne by done. apply Hs.
    + intros s t e He. destruct (decide (sid = s)) as [->|Hne].
      * rewrite Ei in He. discriminate.
      * rewrite lookup_insert_ne by done. exists e. split; [done|].
        apply fill_once_kept_refl.
Qed.

Lemma process_spec sid td time_info st :
  synced st -> NoDup (map fst td) ->
  forall s t, ledger_entry (process_source_data sid td time_info st) s t =
    if bool_decide (s = sid) then
      match assoc td t with
      | Some d => Some (upd_entry time_info d (ledger_entry st s t))
      | None => ledger_entry st s t
      end
    else ledger_entry st s t.
Proof.
  intros Hs Hnd s t. unfold process_source_data, ledger_entry.
  pose proof (Hs sid) as H0.
  destruct (all_results st !! sid) as [ar|] eqn:Ea;
    destruct (title_info st !! sid) as [ti|] eqn:Ei; try contradiction.
  - destruct (merge_fold_spec time_info td ar ti H0 Hnd) as [_ Hl].
    simpl. destruct (fold_left (merge_step time_info) td (ar, ti)) as [ar1 ti1] eqn:Ef.
    simpl in *. case_bool_decide as Hsid.
    + subst s. rewrite lookup_insert_eq, Ei. simpl. apply Hl.
    + by rewrite lookup_insert_ne.
  - simpl. case_bool_decide as Hsid.
    + subst s. rewrite lookup_insert_eq, Ei. simpl.
      rewrite fold_insert_lookup by done. by rewrite lookup_empty.
    + by rewrite lookup_insert_ne.
Qed.

Lemma process_snapshot_keep ids st f :
  synced st ->
  synced (process_snapshot ids st f) /\
  forall s t e, ledger_entry st s t = Some e ->
  exists e', ledger_entry (process_snapshot ids st f) s t = Some e' /\
             fill_once_kept e e'.
Proof.
  unfold process_snapshot. generalize (filter_platforms ids f.2) as l.
  intros l. revert st. induction l as [|[sid td] l IH]; intros st Hs; cbn [fold_left].
  - split; [done|]. intros s t e He. exists e. split; [done|]. apply fill_once_kept_refl.
  - destruct (process_keep sid td f.1 st Hs) as [Hs1 Hk1].
    destruct (IH _ Hs1) as [Hs2 Hk2]. split; [done|].
    intros s t e He. destruct (Hk1 s t e He) as (e1 & He1 & K1).
    destruct (Hk2 s t e1 He1) as (e2 & He2 & K2).
    exists e2. split; [done|]. by eapply fill_once_kept_trans.
Qed.

Lemma filter_platforms_wf ids (l : list (string * TitleData)) (P : string * TitleData -> Prop) :
  NoDup (map fst l) -> Forall P l ->
  NoDup (map fst (filter_platforms ids l)) /\ Forall P (filter_platforms ids l).
Proof.
  destruct ids as [ids|]; simpl; [|done].
  induction l as [|p l IH]; intros Hnd HP; simpl; [split; constructor|].
  inversion Hnd as [|? ? Hnin Hnd']; subst. inversion HP; subst.
  destruct IH as [IH1 IH2]; [done|done|].
  rewrite filter_cons. case_decide; [|done].
  split; [|by constructor]. simpl. constructor; [|done].
  intros Hin. apply Hnin. apply list_elem_of_fmap in Hin as (q & -> & Hq).
  apply list_elem_of_filter in Hq as [_ Hq]. by apply list_elem_of_fmap_2.
Qed.

Lemma process_snapshot_spec ids st f :
  synced st -> wf_snapshot f ->
  forall s t, ledger_entry (process_snapshot ids st f) s t =
    match obs_in ids f s t with
    | Some d => Some (upd_entry f.1 d (ledger_entry st s t))
    | None => ledger_entry st s t
    end.
Proof.
  intros Hs [Hnd Hall] s t. unfold process_snapshot, obs_in.
  destruct (filter_platforms_wf ids f.2 _ Hnd Hall) as [Hnd' Hall'].
  generalize dependent (filter_platforms ids f.2). intros l Hnd' Hall'.
  revert st Hs. induction l as [|[sid td] l IH]; intros st Hs; cbn [fold_left assoc]; [done|].
  inversion Hnd' as [|? ? Hnin Hnd'']; subst. inversion Hall' as [|? ? [Hk _] Hall'']; subst.
  simpl in *.
  destruct (process_keep sid td f.1 st Hs) as [Hs1 _].
  rewrite (IH Hnd'' Hall'' _ Hs1).
  destruct (String.eqb_spec sid s) as [->|Hne].
  - rewrite (assoc_None_not_in l s Hnin). simpl.
    rewrite process_spec by done. rewrite bool_decide_eq_true_2 by done.
    by destruct (assoc td t).
  - rewrite process_spec by done. rewrite bool_decide_eq_false_2 by congruence.
    by destruct (assoc l s ≫= (λ td : list (string * Obs), assoc td t)).
Qed.

Lemma read_all_snoc ids files f :
  read_all_today_titles ids (files ++ [f]) =
  process_snapshot ids (read_all_today_titles ids files) f.
Proof. unfold read_all_today_titles. by rewrite fold_left_app. Qed.

Lemma synced_reachable ids files : synced (read_all_today_titles ids files).
Proof.
  induction files as [|f files IH] using rev_ind.
  - intros sid. simpl. by rewrite !lookup_empty.
  - rewrite read_all_snoc. by apply process_snapshot_keep.
Qed.

(** Ranks bookkeeping *)

Lemma merge_ranks_dedup (a l : list Z) : merge_ranks a l = a ++ dedup_first a l.
Proof.
  unfold merge_ranks. revert a. induction l as [|r l IH]; intros a; simpl.
  - by rewrite app_nil_r.
  - rewrite IH. case_bool_decide; [done|]. by rewrite <- app_assoc.
Qed.

Lemma dedup_first_app (seen l1 l2 : list Z) :
  dedup_first seen (l1 ++ l2) =
  dedup_first seen l1 ++ dedup_first (seen ++ dedup_first seen l1) l2.
Proof.
  revert seen. induction l1 as [|r l1 IH]; intros seen; simpl.
  - by rewrite app_nil_r.
  - case_bool_decide; [apply IH|]. simpl. f_equal. rewrite IH.
    by rewrite <- app_assoc.
Qed.

Lemma dedup_first_nodup (seen l : list Z) :
  NoDup seen -> NoDup (seen ++ dedup_first seen l).
Proof.
  revert seen. induction l as [|r l IH]; intros seen Hnd; simpl.
  - by rewrite app_nil_r.
  - case_bool_decide as Hin; [by apply IH|].
    replace (seen ++ r :: dedup_first (seen ++ [r]) l)
      with ((seen ++ [r]) ++ dedup_first (seen ++ [r]) l)
      by by rewrite <- app_assoc.
    apply IH. apply NoDup_app. split; [done|]. split; [|apply NoDup_singleton].
    intros x Hx Hx'. apply list_elem_of_singleton in Hx' as ->. done.
Qed.

Lemma dedup_first_id (seen l : list Z) :
  NoDup l -> (forall x, x ∈ l -> x ∉ seen) -> dedup_first seen l = l.
Proof.
  revert seen. induction l as [|r l IH]; intros seen Hnd Hdis; simpl; [done|].
  inversion Hnd as [|? ? Hnin Hnd']; subst.
  rewrite bool_decide_eq_false_2 by (apply Hdis; set_solver).
  f_equal. apply IH; [done|]. intros x Hx Hx'.
  apply elem_of_app in Hx' as [Hx'|Hx']; [apply (Hdis x); set_solver|].
  apply list_elem_of_singleton in Hx' as ->. done.
Qed.

Lemma assoc_in {V} (l : list (string * V)) k v : assoc l k = Some v -> (k, v) ∈ l.
Proof.
  induction l as [|[k' v'] l IH]; simpl; [done|].
  destruct (String.eqb_spec k' k) as [->|]; intros H.
  - injection H as ->. left.
  - right. by apply IH.
Qed.

Lemma obs_in_wf ids f s t d :
  wf_snapshot f -> obs_in ids f s t = Some d -> NoDup (ob_ranks d).
Proof.
  intros [Hnd Hall] Hobs. unfold obs_in in Hobs.
  destruct (filter_platforms_wf ids f.2 _ Hnd Hall) as [_ Hall'].
  destruct (assoc (filter_platforms ids f.2) s) as [td|] eqn:Etd; [|discriminate].
  simpl in Hobs. apply assoc_in in Etd, Hobs.
  rewrite Forall_forall in Hall'. destruct (Hall' _ Etd) as [_ Hq].
  rewrite Forall_forall in Hq. apply (Hq _ Hobs).
Qed.

Lemma observed_ranks_snoc ids files f s t :
  observed_ranks ids (files ++ [f]) s t =
  observed_ranks ids files s t ++
  match obs_in ids f s t with Some d => ob_ranks d | None => [] end.
Proof.
  unfold observed_ranks. rewrite map_app, concat_app. simpl. by rewrite app_nil_r.
Qed.

Lemma occurrences_snoc ids files f s t :
  occurrences ids (files ++ [f]) s t =
  occurrences ids files s t + match obs_in ids f s t with Some _ => 1 | None => 0 end.
Proof.
  unfold occurrences. rewrite filter_app, length_app, Nat2Z.inj_add. f_equal.
  rewrite filter_cons. case_decide as H; destruct (obs_in ids f s t); simpl; try done.
  by destruct H.
Qed.

Lemma ledger_history ids files :
  Forall wf_snapshot files -> forall s t,
  match ledger_entry (read_all_today_titles ids files) s t with
  | None => observed_ranks ids files s t = [] /\ occurrences ids files s t = 0
  | Some e => ranks e = dedup_first [] (observed_ranks ids files s t) /\
              count e = occurrences ids files s t
  end.
Proof.
  induction files as [|f files IH] using rev_ind; intros Hwf s t.
  - unfold ledger_entry. simpl. by rewrite lookup_empty.
  - apply Forall_app in Hwf as [Hwf Hf]. inversion Hf as [|? ? Hf' _]; subst.
    rewrite read_all_snoc, process_snapshot_spec by (done || apply synced_reachable).
    rewrite observed_ranks_snoc, occurrences_snoc.
    specialize (IH Hwf s t).
    destruct (obs_in ids f s t) as [d|] eqn:Ed.
    + pose proof (obs_in_wf ids f s t d Hf' Ed) as Hd.
      destruct (ledger_entry (read_all_today_titles ids files) s t) as [e|];
        simpl; destruct IH as [IH1 IH2].
      * split; [|lia]. rewrite merge_ranks_dedup, dedup_first_app, IH1. done.
      * rewrite IH1, IH2. simpl. split; [|lia].
        symmetry. apply dedup_first_id; [done|set_solver].
    + rewrite !app_nil_r. destruct (ledger_entry _ s t); destruct IH; split; lia || done.
Qed.

(** Example inputs: two parsed snapshots of one source. *)
Definition ex_obs (r : Z) : Obs := mkObs [r] "" "" "".
Definition ex_snap1 : Snapshot := ("08-00", [("src", [("X", ex_obs 3)])]).
Definition ex_snap2 : Snapshot :=
  ("09-00", [("src", [("X", mkObs [1] "https://x" "" ""); ("Y", ex_obs 5)])]).

Example ex_ledger_X :
  ledger_entry (read_all_today_titles None [ex_snap1; ex_snap2]) "src" "X" =
  Some (mkInfo "08-00" "09-00" 2 [3; 1] "https://x" "" "").
Proof. reflexivity. Qed.

(** C3 (counterexample): calling [process_source_data] a second time with
    the same source data counts the title a second time. *)
Lemma process_twice_counts_twice :
  let td := [("X", ex_obs 3)] in
  let st1 := process_source_data "src" td "08-00" empty_state in
  count_of st1 "src" "X" = 1 /\
  count_of (process_source_data "src" td "08-00" st1) "src" "X" = 2.
Proof. split; reflexivity. Qed.

(** C3 (amended): folding a parsed snapshot into a ledger built by
    [read_all_today_titles] adds exactly 1 to the count of every
    (source_id, title) it contains (a title occurs at most once in a
    snapshot, being a dict key); no repeated-snapshot check exists, so
    folding the same snapshot twice adds 2. *)
Theorem snapshot_count_increment (ids : option (list string)) (files : list Snapshot)
    (f : Snapshot) (s t : string) :
  wf_snapshot f -> is_Some (obs_in ids f s t) ->
  let st := read_all_today_titles ids files in
  count_of (process_snapshot ids st f) s t = count_of st s t + 1 /\
  count_of (process_snapshot ids (process_snapshot ids st f) f) s t =
  count_of st s t + 2.
Proof.
  intros Hwf [d Hd] st.
  assert (Hs : synced st) by apply synced_reachable.
  assert (Hs1 : synced (process_snapshot ids st f)) by (by apply process_snapshot_keep).
  unfold count_of.
  rewrite (process_snapshot_spec ids _ f Hs1 Hwf s t), Hd.
  rewrite (process_snapshot_spec ids st f Hs Hwf s t), Hd.
  destruct (ledger_entry st s t); simpl; lia.
Qed.

Lemma snapshot_count_increment_witness :
  wf_snapshot ex_snap1 /\ is_Some (obs_in None ex_snap1 "src" "X") /\
  count_of (process_snapshot None (read_all_today_titles None [ex_snap1]) ex_snap1) "src" "X" =
  count_of (read_all_today_titles None [ex_snap1]) "src" "X" + 1 /\
  count_of (process_snapshot None (process_snapshot None
     (read_all_today_titles None [ex_snap1]) ex_snap1) ex_snap1) "src" "X" =
  count_of (read_all_today_titles None [ex_snap1]) "src" "X" + 2.
Proof.
  assert (Hwf : wf_snapshot ex_snap1).
  { split; simpl; repeat constructor; set_solver. }
  assert (Hobs : is_Some (obs_in None ex_snap1 "src" "X")) by (eexists; reflexivity).
  split; [exact Hwf|]. split; [exact Hobs|].
  exact (snapshot_count_increment None [ex_snap1] ex_snap1 "src" "X" Hwf Hobs).
Defined.

(** C5: over parsed snapshots folded in order, every entry's ranks are
    duplicate free and equal to all observed ranks with only first
    occurrences kept; one more snapshot only appends to the ranks and adds
    at most 1 to the count; an entry created by a snapshot holds that
    observation's ranks deduplicated and count 1. *)
Theorem ledger_ranks_invariants (ids : option (list string)) (files : list Snapshot) :
  Forall wf_snapshot files ->
  (forall s t e, ledger_entry (read_all_today_titles ids files) s t = Some e ->
     NoDup (ranks e) /\ ranks e = dedup_first [] (observed_ranks ids files s t)) /\
  (forall f s t, wf_snapshot f ->
     match ledger_entry (read_all_today_titles ids files) s t,
           ledger_entry (read_all_today_titles ids (files ++ [f])) s t with
     | Some e, Some e' => ranks e `prefix_of` ranks e' /\
                          count e <= count e' <= count e + 1
     | Some _, None => False
     | None, Some e' => exists d, obs_in ids f s t = Some d /\
                          ranks e' = dedup_first [] (ob_ranks d) /\ count e' = 1
     | None, None => True
     end).
Proof.
  intros Hwf. split.
  - intros s t e He. pose proof (ledger_history ids files Hwf s t) as H.
    rewrite He in H. destruct H as [H1 _]. split; [|done].
    rewrite H1. apply (dedup_first_nodup []). constructor.
  - intros f s t Hf. rewrite read_all_snoc.
    rewrite process_snapshot_spec by (done || apply synced_reachable).
    destruct (obs_in ids f s t) as [d|] eqn:Ed;
      destruct (ledger_entry (read_all_today_titles ids files) s t) as [e|]; simpl.
    + split; [|lia]. rewrite merge_ranks_dedup. by eexists.
    + exists d. split; [done|]. split; [|done].
      symmetry. apply dedup_first_id; [by eapply obs_in_wf|set_solver].
    + split; [done|lia].
    + done.
Qed.

Lemma ledger_ranks_invariants_witness :
  Forall wf_snapshot [ex_snap1; ex_snap2] /\
  ledger_entry (read_all_today_titles None [ex_snap1; ex_snap2]) "src" "X" =
  Some (mkInfo "08-00" "09-00" 2 [3; 1] "https://x" "" "") /\
  NoDup [3; 1] /\ [3; 1] = dedup_first [] (observed_ranks None [ex_snap1; ex_snap2] "src" "X").
Proof.
  assert (Hwf : Forall wf_snapshot [ex_snap1; ex_snap2]).
  { repeat constructor; simpl; set_solver. }
  split; [exact Hwf|]. split; [reflexivity|].
  exact (proj1 (ledger_ranks_invariants None [ex_snap1; ex_snap2] Hwf)
           "src" "X" _ eq_refl).
Defined.

(** C9: once an entry's [url], [mobileUrl] or [summary] is non-empty, every
    later snapshot folded into the ledger keeps it unchanged. *)
Theorem fill_once_monotone (ids : option (list string)) (files1 files2 : list Snapshot)
    (s t : string) (e : Info) :
  ledger_entry (read_all_today_titles ids files1) s t = Some e ->
  exists e', ledger_entry (read_all_today_titles ids (files1 ++ files2)) s t = Some e' /\
             fill_once_kept e e'.
Proof.
  unfold read_all_today_titles at 2. rewrite fold_left_app.
  pose proof (synced_reachable ids files1) as Hs. unfold read_all_today_titles in Hs |- *.
  generalize dependent (fold_left (process_snapshot ids) files1 empty_state).
  intros st Hs He. revert st Hs e He.
  induction files2 as [|f files2 IH]; intros st Hs e He; simpl.
  - exists e. split; [done|]. apply fill_once_kept_refl.
  - destruct (process_snapshot_keep ids st f Hs) as [Hs1 Hk].
    destruct (Hk s t e He) as (e1 & He1 & K1).
    destruct (IH _ Hs1 e1 He1) as (e2 & He2 & K2).
    exists e2. split; [done|]. by eapply fill_once_kept_trans.
Qed.

Lemma fill_once_monotone_witness :
  exists e', ledger_entry (read_all_today_titles None ([ex_snap2] ++ [ex_snap1])) "src" "X"
             = Some e' /\
  fill_once_kept (mkInfo "09-00" "09-00" 1 [1] "https://x" "" "") e'.
Proof.
  apply (fill_once_monotone None [ex_snap2] [ex_snap1] "src" "X"). reflexivity.
Defined.

End LedgerFacts.

Module FreqFacts.
Import Ledger Freq.

Lemma inject_Z_sum (l : list Z) :
  (inject_Z (Z_sum l) == fold_right Qplus 0 (map inject_Z l))%Q.
Proof.
  induction l as [|z l IH]; simpl; [reflexivity|].
  rewrite inject_Z_plus, IH. reflexivity.
Qed.

(** C7: [calculate_news_weight] is 0 on empty ranks (no division happens),
    and otherwise the configured combination of the mean rank score, the
    capped frequency score and the hotness percentage. *)
Theorem calculate_news_weight_spec (cfg : WeightConfig) (x : StatTitle) (rank_threshold : Z) :
  (t_ranks x = [] -> calculate_news_weight cfg x rank_threshold = 0%Q) /\
  (t_ranks x <> [] ->
   Qeq (calculate_news_weight cfg x rank_threshold) (weight_formula cfg x rank_threshold)).
Proof.
  unfold calculate_news_weight, weight_formula. split.
  - intros ->. reflexivity.
  - destruct (t_ranks x) as [|r rs] eqn:E; [done|]. intros _.
    rewrite <- E. unfold Z_sum. rewrite inject_Z_sum, map_map.
    unfold Qdiv. ring.
Qed.

Example calculate_news_weight_ex :
  Qeq_bool (calculate_news_weight (mkWeightConfig (6#10) (3#10) (1#10))
    (mkStatTitle "X" "src" "" "" "" 2 [3; 1] 5 "" "" false) 5) (107#5) = true.
Proof. reflexivity. Qed.

Lemma Sorted_mono {A} (R R' : A -> A -> Prop) l :
  (forall a b, R a b -> R' a b) -> Sorted R l -> Sorted R' l.
Proof.
  intros HR Hs. induction Hs as [|x l Hs IH Hhd]; constructor; [done|].
  destruct Hhd; constructor. by apply HR.
Qed.

(** Insertion sort sorts. *)
Section SortBy.
Context {A : Type} (le : A -> A -> bool).
Lemma insert_by_elem x y l : y ∈ insert_by le x l <-> y = x \/ y ∈ l.
Proof.
  induction l as [|z l IH]; simpl; [set_solver|].
  destruct (le x z); set_solver.
Qed.

Lemma sort_by_elem y l : y ∈ sort_by le l <-> y ∈ l.
Proof.
  induction l as [|z l IH]; simpl; [done|].
  rewrite insert_by_elem, IH. set_solver.
Qed.

Hypothesis le_total : forall a b, le a b = false -> le b a = true.

Lemma insert_by_sorted x l :
  Sorted (fun a b => le a b = true) l ->
  Sorted (fun a b => le a b = true) (insert_by le x l).
Proof.
  induction l as [|y l IH]; intros Hs; simpl.
  - repeat constructor.
  - destruct (le x y) eqn:Exy.
    + constructor; [done|]. by constructor.
    + apply Sorted_inv in Hs as [Hs Hhd]. constructor; [by apply IH|].
      destruct l as [|z l]; simpl.
      * constructor. by apply le_total.
      * destruct (le x z); constructor; [by apply le_total|].
        by inversion Hhd.
Qed.

Lemma sort_by_sorted l : Sorted (fun a b => le a b = true) (sort_by le l).
Proof.
  induction l as [|x l IH]; simpl; [constructor|]. by apply insert_by_sorted.
Qed.
End SortBy.

Lemma title_key_le_total cfg rank_threshold a b :
  title_key_le rank_threshold cfg a b = false -> title_key_le rank_threshold cfg b a = true.
Proof.
  unfold title_key_le.
  set (wa := (- calculate_news_weight cfg a rank_threshold)%Q).
  set (wb := (- calculate_news_weight cfg b rank_threshold)%Q).
  intros H. apply orb_false_iff in H as [H1 H2].
  apply negb_false_iff, Qle_bool_iff in H1.
  destruct (Qeq_bool wa wb) eqn:Eq.
  - apply Qeq_bool_iff in Eq. rewrite andb_true_l in H2.
    apply orb_false_iff in H2 as [H2 H3]. apply Z.ltb_ge in H2.
    assert (Eq' : Qeq_bool wb wa = true) by (apply Qeq_bool_iff; by symmetry).
    rewrite Eq'. apply orb_true_iff. right.
    destruct (Z.eq_dec (min_rank_key a) (min_rank_key b)) as [Em|Hm].
    + rewrite Em, Z.eqb_refl, andb_true_l in H3. apply Z.leb_gt in H3.
      rewrite Em, Z.ltb_irrefl, Z.eqb_refl. simpl. apply Z.leb_le. lia.
    + apply orb_true_iff. left. apply Z.ltb_lt. lia.
  - apply orb_true_iff. left. apply negb_true_iff.
    apply not_true_iff_false. intros Hle. apply Qle_bool_iff in Hle.
    apply not_true_iff_false in Eq. apply Eq. apply Qeq_bool_iff.
    by apply Qle_antisym.
Qed.

Lemma title_key_le_order cfg rank_threshold a b :
  title_key_le rank_threshold cfg a b = true -> title_order cfg rank_threshold a b.
Proof.
  unfold title_key_le, title_order. intros H.
  apply orb_true_iff in H as [H|H].
  - left. apply negb_true_iff, not_true_iff_false in H.
    apply Qnot_le_lt. intros Hle. apply H. apply Qle_bool_iff.
    by apply Qopp_le_compat.
  - apply andb_true_iff in H as [Heq H]. apply Qeq_bool_iff in Heq.
    right. split.
    + rewrite <- (Qopp_involutive (calculate_news_weight _ a _)), Heq.
      apply Qopp_involutive.
    + apply orb_true_iff in H as [H|H]; [left; by apply Z.ltb_lt|].
      apply andb_true_iff in H as [H1 H2]. right.
      split; [by apply Z.eqb_eq|]. apply Z.leb_le in H2. lia.
Qed.

(** C6: the titles of every returned [Stat] are sorted by descending
    weight, then ascending minimum rank (999 when there are no ranks), then
    descending count; the [Stat]s are sorted by descending count. *)
Theorem count_word_frequency_sorted lower word_groups0 filter_words0 id_to_name title_info
    rank_threshold new_titles all_news_are_new cfg results_to_process :
  let stats := (count_word_frequency lower word_groups0 filter_words0 id_to_name
                  title_info rank_threshold new_titles all_news_are_new cfg
                  results_to_process).1 in
  Sorted (fun a b => stat_count b <= stat_count a) stats /\
  Forall (fun s => Sorted (title_order cfg rank_threshold) (titles s)) stats.
Proof.
  unfold count_word_frequency. simpl. split.
  - eapply Sorted_mono; [|apply sort_by_sorted].
    + intros a b H. unfold stat_count_ge in H. by apply Z.leb_le in H.
    + intros a b H. unfold stat_count_ge in *. apply Z.leb_gt in H.
      apply Z.leb_le. lia.
  - apply Forall_forall. intros st Hst. apply sort_by_elem in Hst.
    apply list_elem_of_fmap in Hst as ([key data] & -> & _). simpl.
    eapply Sorted_mono; [apply title_key_le_order|].
    apply sort_by_sorted. apply title_key_le_total.
Qed.

(** ** Group assignment *)

Lemma group_loop_cons lower word_groups0 tl g gs :
  group_loop lower word_groups0 tl (g :: gs) =
  if all_news_mode word_groups0 then Some (group_key g)
  else if group_matches lower tl g then Some (group_key g)
  else group_loop lower word_groups0 tl gs.
Proof.
  simpl. unfold group_matches.
  destruct (all_news_mode word_groups0); [done|].
  destruct (required g) as [|r rs], (normal g) as [|n ns]; simpl;
    try destruct (PyStr.contains (lower r) tl);
    try destruct (PyStr.contains (lower n) tl);
    try destruct (forallb _ rs); try destruct (existsb _ ns); done.
Qed.

Lemma group_loop_find lower word_groups0 tl gs :
  all_news_mode word_groups0 = false ->
  group_loop lower word_groups0 tl gs = option_map group_key (find (group_matches lower tl) gs).
Proof.
  intros Hm. induction gs as [|g gs IH]; [done|].
  rewrite group_loop_cons, Hm. simpl. by destruct (group_matches lower tl g).
Qed.

Lemma existsb_ext' {A} (f g : A -> bool) l :
  (forall x, f x = g x) -> existsb f l = existsb g l.
Proof. intros H. induction l as [|x l IH]; simpl; [done|]. by rewrite H, IH. Qed.

Lemma matches_existsb lower title g gs fw :
  matches_word_groups lower title (g :: gs) fw =
  if existsb (fun w => PyStr.contains (lower w) (lower title)) fw then false
  else existsb (group_matches lower (lower title)) (g :: gs).
Proof.
  unfold matches_word_groups. case_match; [done|].
  apply existsb_ext'. intros g'. unfold group_matches.
  destruct (required g') as [|r rs], (normal g') as [|n ns]; simpl;
    try destruct (PyStr.contains (lower r) (lower title));
    try destruct (PyStr.contains (lower n) (lower title));
    try destruct (forallb _ rs); try destruct (existsb _ ns); done.
Qed.

Lemma find_None_existsb {A} (f : A -> bool) l :
  existsb f l = false -> find f l = None.
Proof.
  induction l as [|x l IH]; simpl; [done|]. destruct (f x); [done|]. apply IH.
Qed.

(** What the code computes for one title, before the bookkeeping. *)
Lemma code_group_expected lower word_groups0 filter_words0 title :
  word_groups0 <> [] ->
  (if matches_word_groups lower title (word_groups word_groups0)
        (filter_words word_groups0 filter_words0)
   then group_loop lower word_groups0 (lower title) (word_groups word_groups0)
   else None) = expected_group lower word_groups0 filter_words0 title.
Proof.
  intros Hne. destruct word_groups0 as [|g gs]; [done|].
  unfold expected_group. simpl (word_groups _). simpl (filter_words _ _).
  rewrite matches_existsb.
  destruct (existsb _ filter_words0); [done|].
  destruct (existsb (group_matches lower (lower title)) (g :: gs)) eqn:Ee.
  - destruct (all_news_mode (g :: gs)) eqn:Hm.
    + unfold all_news_mode in Hm. simpl in Hm. destruct gs; [|done].
      rewrite group_loop_cons. unfold all_news_mode. simpl in *.
      rewrite Hm. rewrite orb_false_r in Ee. by rewrite Ee.
    + by apply group_loop_find.
  - by rewrite find_None_existsb.
Qed.

Lemma expected_group_key lower wg fw title k :
  expected_group lower wg fw title = Some k -> exists g, g ∈ wg /\ group_key g = k.
Proof.
  unfold expected_group. case_match; [done|].
  destruct (find _ wg) as [g|] eqn:Ef; [|done]. simpl. intros [= <-].
  exists g. split; [|done]. apply find_some in Ef as [Hin _].
  by apply list_elem_of_In.
Qed.

(** ** The triples recorded in [word_stats] *)

Lemma titles_triples_update k sid e L x :
  assoc L sid <> None ->
  x ∈ titles_triples k (assoc_update sid (fun l => l ++ [e]) L) <->
  x ∈ titles_triples k L \/ x = (k, sid, t_title e).
Proof.
  induction L as [|[s es] L IH]; simpl; [done|].
  destruct (String.eqb_spec s sid) as [->|Hne]; intros Ha; simpl.
  - rewrite !elem_of_app, fmap_app. set_solver.
  - rewrite !elem_of_app, IH by done. tauto.
Qed.

Lemma titles_triples_upsert k sid e L x :
  x ∈ titles_triples k (assoc_upsert sid [] (fun l => l ++ [e]) L) <->
  x ∈ titles_triples k L \/ x = (k, sid, t_title e).
Proof.
  unfold assoc_upsert. destruct (assoc L sid) eqn:Ea.
  - apply titles_triples_update. by rewrite Ea.
  - unfold titles_triples. rewrite flat_map_app. simpl. set_solver.
Qed.

Lemma ws_triples_update key sid e ws x :
  key ∈ map fst ws ->
  x ∈ ws_triples (assoc_update key (fun w =>
         mkWordStat (ws_count w + 1)
           (assoc_upsert sid [] (fun l => l ++ [e]) (ws_titles w))) ws) <->
  x ∈ ws_triples ws \/ x = (key, sid, t_title e).
Proof.
  induction ws as [|[k w] ws IH]; simpl; [set_solver|].
  intros Hk. destruct (String.eqb_spec k key) as [->|Hne]; simpl.
  - rewrite !elem_of_app, titles_triples_upsert. tauto.
  - rewrite !elem_of_app, IH; [tauto|]. set_solver.
Qed.

Lemma assoc_update_keys {V} k (f : V -> V) l :
  map fst (assoc_update k f l) = map fst l.
Proof.
  induction l as [|[k' v] l IH]; simpl; [done|].
  destruct (String.eqb k' k); simpl; by rewrite ?IH.
Qed.

Lemma assoc_upsert_keys {V} k v0 (f : V -> V) l x :
  x ∈ map fst (assoc_upsert k v0 f l) <-> x = k \/ x ∈ map fst l.
Proof.
  unfold assoc_upsert. destruct (assoc l k) eqn:Ea.
  - rewrite assoc_update_keys. apply LedgerFacts.assoc_in in Ea.
    split; [tauto|]. intros [->|]; [|done].
    apply list_elem_of_fmap. by exists (k, v).
  - rewrite map_app. simpl. set_solver.
Qed.

Lemma init_word_stats_spec word_groups0 :
  ws_triples (init_word_stats word_groups0) = [] /\
  forall g, g ∈ word_groups word_groups0 ->
    group_key g ∈ map fst (init_word_stats word_groups0).
Proof.
  unfold init_word_stats.
  assert (Hgen : forall gs ws,
    Forall (fun p => ws_titles p.2 = []) ws ->
    let ws' := fold_left (fun ws group =>
      assoc_upsert (group_key group) empty_word_stat (fun _ => empty_word_stat) ws) gs ws in
    Forall (fun p => ws_titles p.2 = []) ws' /\
    forall x, x ∈ map fst ws' <-> x ∈ map group_key gs \/ x ∈ map fst ws).
  { induction gs as [|g gs IH]; intros ws Hws; simpl; [set_solver|].
    destruct (IH (assoc_upsert (group_key g) empty_word_stat (fun _ => empty_word_stat) ws))
      as [H1 H2].
    - unfold assoc_upsert. destruct (assoc ws (group_key g)).
      + clear -Hws. induction Hws as [|[k w] ws Hw Hws IH]; simpl; [done|].
        destruct (String.eqb k (group_key g)); constructor; done.
      + apply Forall_app. split; [done|]. by repeat constructor.
    - split; [done|]. intros x. rewrite H2, assoc_upsert_keys. set_solver. }
  destruct (Hgen (word_groups word_groups0) [] (List.Forall_nil _)) as [H1 H2].
  split.
  - clear H2. induction H1 as [|[k w] ws Hw _ IH]; simpl in *; [done|].
    by rewrite Hw, IH.
  - intros g Hg. apply H2. left. by apply list_elem_of_fmap_2.
Qed.

Lemma build_entry_title id_to_name title_info rank_threshold new_titles all_news_are_new
    sid title d :
  t_title (build_entry id_to_name title_info rank_threshold new_titles all_news_are_new
             sid title d) = title.
Proof. unfold build_entry. by repeat case_match. Qed.

Section GroupInvariant.
Variables (lower : string -> string) (word_groups0 : list WordGroup)
  (filter_words0 : list string) (id_to_name : list (string * string))
  (title_info : gmap string (gmap string Info)) (rank_threshold : Z)
  (new_titles : list (string * TitleData)) (all_news_are_new : bool).
Hypothesis Hne : word_groups0 <> [].

(** After processing the pairs [done], the recorded triples are exactly
    the processed pairs with their expected group. *)
Definition group_inv (st : CwfState) (done : list (string * string)) : Prop :=
  (forall x, x ∈ ws_triples (word_stats st) <->
     exists sid t k, x = (k, sid, t) /\ (sid, t) ∈ done /\
       expected_group lower word_groups0 filter_words0 t = Some k) /\
  (forall p, p ∈ processed_titles st -> p ∈ done) /\
  (forall g, g ∈ word_groups0 -> group_key g ∈ map fst (word_stats st)).

Lemma process_title_inv sid st done title d :
  group_inv st done -> (sid, title) ∉ done ->
  group_inv (process_title lower word_groups0 filter_words0 id_to_name title_info
               rank_threshold new_titles all_news_are_new sid st (title, d))
            (done ++ [(sid, title)]).
Proof.
  intros (Ht & Hp & Hk) Hnew. unfold process_title.
  rewrite bool_decide_false by (intros Hin; by apply Hnew, Hp).
  pose proof (code_group_expected lower word_groups0 filter_words0 title Hne) as Hc.
  assert (Hskip : expected_group lower word_groups0 filter_words0 title = None ->
                  group_inv st (done ++ [(sid, title)])).
  { intros Hnone. split; [|split; [set_solver|done]].
    intros x. rewrite Ht. split.
    - intros (s & t & k & -> & Hin & He). exists s, t, k. set_solver.
    - intros (s & t & k & -> & Hin & He). exists s, t, k.
      rewrite elem_of_app, list_elem_of_singleton in Hin.
      destruct Hin as [Hin|[= -> ->]]; [done|]. congruence. }
  destruct (matches_word_groups _ _ _ _) eqn:Em; simpl; [|by apply Hskip].
  destruct (group_loop _ _ _ _) as [key|] eqn:Eg; [|by apply Hskip].
  destruct (expected_group_key lower word_groups0 filter_words0 title key)
    as (g & Hg & <-); [done|].
  split; [|split].
  - intros x. simpl. rewrite ws_triples_update by auto.
    rewrite build_entry_title, Ht. split.
    + intros [(s & t & k & -> & Hin & He)| ->].
      * exists s, t, k. set_solver.
      * exists sid, title, (group_key g). set_solver.
    + intros (s & t & k & -> & Hin & He).
      rewrite elem_of_app, list_elem_of_singleton in Hin.
      destruct Hin as [Hin|[= -> ->]].
      * left. by exists s, t, k.
      * right. congruence.
  - simpl. set_solver.
  - intros g' Hg'. simpl. rewrite assoc_update_keys. auto.
Qed.

Lemma fold_titles_inv sid td st done :
  group_inv st done -> NoDup (done ++ map (fun p => (sid, p.1)) td) ->
  group_inv (fold_left (process_title lower word_groups0 filter_words0 id_to_name
               title_info rank_threshold new_titles all_news_are_new sid) td st)
            (done ++ map (fun p => (sid, p.1)) td).
Proof.
  revert st done. induction td as [|[t d] td IH]; intros st done Hi Hnd;
    cbn [fold_left map fst] in *.
  - by rewrite app_nil_r.
  - rewrite cons_middle, app_assoc in Hnd |- *.
    apply IH; [|done].
    apply process_title_inv; [done|].
    apply NoDup_app in Hnd as (Hnd & _ & _).
    apply NoDup_app in Hnd as (_ & Hd & _). intros Hin.
    apply (Hd _ Hin). set_solver.
Qed.

Lemma group_titles_inv results :
  NoDup (result_pairs results) ->
  group_inv (group_titles lower word_groups0 filter_words0 id_to_name title_info
               rank_threshold new_titles all_news_are_new results)
            (result_pairs results).
Proof.
  unfold group_titles.
  assert (Hgen : forall rs st done,
    group_inv st done -> NoDup (done ++ result_pairs rs) ->
    group_inv (fold_left (process_source lower word_groups0 filter_words0 id_to_name
                 title_info rank_threshold new_titles all_news_are_new) rs st)
              (done ++ result_pairs rs)).
  { induction rs as [|[sid td] rs IH]; intros st done Hi Hnd;
      cbn [fold_left result_pairs flat_map] in *.
    - by rewrite app_nil_r.
    - rewrite app_assoc in Hnd |- *. apply IH; [|done].
      apply fold_titles_inv; [done|].
      by apply NoDup_app in Hnd as (Hnd & _ & _). }
  intros Hnd. apply (Hgen results _ []); [|done].
  destruct (init_word_stats_spec word_groups0) as [Hi Hk].
  split; [|split]; simpl.
  - intros x. rewrite Hi. split; [set_solver|].
    intros (s & t & k & _ & Hin & _). set_solver.
  - set_solver.
  - intros g Hg. apply Hk. destruct word_groups0; [done|]. done.
Qed.
End GroupInvariant.

Lemma result_pairs_fst sid t results :
  (sid, t) ∈ result_pairs results -> sid ∈ map fst results.
Proof.
  induction results as [|[s td] rs IH]; simpl; [set_solver|].
  rewrite elem_of_app. intros [Hin|Hin]; [|set_solver].
  apply list_elem_of_fmap in Hin as (p & [= -> _] & _). set_solver.
Qed.

Lemma result_pairs_NoDup results :
  NoDup (map fst results) -> Forall (fun p => NoDup (map fst p.2)) results ->
  NoDup (result_pairs results).
Proof.
  induction results as [|[sid td] rs IH]; simpl; intros Hk Hf; [constructor|].
  apply NoDup_cons in Hk as [Hsid Hk]. apply Forall_cons in Hf as [Htd Hf].
  apply NoDup_app. split; [|split].
  - replace (map (fun p => (sid, p.1)) td) with (map (pair sid) (map fst td))
      by (by rewrite map_map).
    apply NoDup_fmap_2_strong; [|done]. by intros a b _ _ [= ->].
  - intros [s t] Hin Hin'. apply list_elem_of_fmap in Hin as (p & [= -> _] & _).
    by apply Hsid, (result_pairs_fst _ t).
  - by apply IH.
Qed.

(** C8: with a non-empty group list, a title of [results_to_process]
    (a dict of dicts: distinct source ids, distinct titles per source) is
    recorded under group key [k] exactly when no filter word occurs in the
    lowered title and [k] is the key of the first group, in configured
    order, whose required words all occur and whose normal list is empty or
    has an occurring word; hence under at most one group. *)
Theorem title_single_group lower word_groups0 filter_words0 id_to_name title_info
    rank_threshold new_titles all_news_are_new results sid title k :
  word_groups0 <> [] ->
  NoDup (map fst results) -> Forall (fun p => NoDup (map fst p.2)) results ->
  (sid, title) ∈ result_pairs results ->
  (k, sid, title) ∈ ws_triples (word_stats (group_titles lower word_groups0
      filter_words0 id_to_name title_info rank_threshold new_titles
      all_news_are_new results)) <->
  expected_group lower word_groups0 filter_words0 title = Some k.
Proof.
  intros Hne Hk Hf Hin.
  destruct (group_titles_inv lower word_groups0 filter_words0 id_to_name title_info
              rank_threshold new_titles all_news_are_new Hne results
              (result_pairs_NoDup results Hk Hf)) as [Ht _].
  rewrite Ht. split.
  - intros (s & t & k' & [= -> -> ->] & _ & He). done.
  - intros He. by exists sid, title, k.
Qed.

Lemma title_single_group_witness :
  let wg := [mkWordGroup [] ["ai"] "AI"; mkWordGroup [] [] "Other"] in
  let results := [("src", [("ai news", LedgerFacts.ex_obs 1); ("sports", LedgerFacts.ex_obs 2)])] in
  wg <> [] /\ NoDup (map fst results) /\
  Forall (fun p => NoDup (map fst p.2)) results /\
  ("src", "ai news") ∈ result_pairs results /\
  ((("AI", "src", "ai news") ∈ ws_triples (word_stats (group_titles (fun s => s) wg []
      [] ∅ 5 [] true results))) <->
   expected_group (fun s => s) wg [] "ai news" = Some "AI").
Proof.
  cbv zeta. split; [discriminate|]. split; [refine (bool_decide_unpack _ _); vm_compute; reflexivity|].
  split; [refine (bool_decide_unpack _ _); vm_compute; reflexivity|].
  split; [refine (bool_decide_unpack _ _); vm_compute; reflexivity|].
  apply title_single_group;
    [discriminate|refine (bool_decide_unpack _ _); vm_compute; reflexivity ..].
Defined.

End FreqFacts.

(* ------------------------------------------------------------------ *)
(** ** The batch splitter *)

Module BatchFacts.
Import Freq Batch.
Local Open Scope string_scope.

Lemma str_app_cons ch a b : String ch a ++ b = String ch (a ++ b).
Proof. reflexivity. Qed.

Lemma str_length_app a b : String.length (a ++ b) = (String.length a + String.length b)%nat.
Proof. induction a as [|c a IH]; [done|]. rewrite str_app_cons. simpl. by rewrite IH. Qed.

Lemma str_app_assoc a b c : a ++ b ++ c = (a ++ b) ++ c.
Proof. induction a as [|ch a IH]; [done|]. by rewrite !str_app_cons, IH. Qed.

Lemma str_app_nil_r a : a ++ "" = a.
Proof. induction a as [|ch a IH]; [done|]. by rewrite str_app_cons, IH. Qed.

Lemma len_app a b : len (a ++ b) = (len a + len b)%Z.
Proof. unfold len. rewrite str_length_app. lia. Qed.

Lemma len_nl : len nl = 1%Z.
Proof. reflexivity. Qed.

Lemma prefix_app a b : String.prefix a (a ++ b) = true.
Proof.
  induction a as [|c a IH]; simpl; [by destruct b|].
  destruct (Ascii.ascii_dec c c); [done|congruence].
Qed.

Lemma contains_infix u b : str_infix u b -> PyStr.contains u b = true.
Proof.
  intros (x & y & ->). induction x as [|c x IH].
  - assert (Hp := prefix_app u y). simpl. revert Hp. destruct (u ++ y); simpl; intros Hp; by rewrite Hp.
  - rewrite str_app_cons. simpl. rewrite IH. apply orb_true_r.
Qed.

(** *** Byte bound *)
Section Bound.
Variables (bf : string) (max_bytes : Z) (R : list string).

(** A current batch that may be flushed: it fits with the footer, or it is
    one of the restart strings. *)
Definition good (cur : string) : Prop := (len cur + len bf < max_bytes)%Z \/ cur ∈ R.

Definition ok_batch (b : string) : Prop :=
  (len b <= max_bytes)%Z \/ exists r, r ∈ R /\ (b = r ++ bf \/ b = r ++ nl ++ bf).

Definition cur_ok (st : BState) : Prop :=
  has_content st = true ->
  good (current_batch st) \/ exists c, good c /\ current_batch st = c ++ nl.

Definition bound_inv (st : BState) : Prop := Forall ok_batch (batches st) /\ cur_ok st.

Lemma flush_ok cur :
  (good cur \/ exists c, good c /\ cur = c ++ nl) -> ok_batch (cur ++ bf).
Proof.
  unfold ok_batch, good. rewrite len_app.
  intros [[H|H]|(c & [H|H] & ->)].
  - left. lia.
  - right. exists cur. auto.
  - left. rewrite len_app, len_nl. lia.
  - right. exists c. split; [done|]. right. by rewrite str_app_assoc.
Qed.

Lemma add_piece_inv st piece reset :
  reset ∈ R -> bound_inv st ->
  let st' := add_piece bf max_bytes st piece reset in
  bound_inv st' /\ has_content st' = true /\ good (current_batch st').
Proof.
  intros Hr [Hb Hc]. unfold add_piece. simpl.
  destruct (Z.leb_spec max_bytes (len (current_batch st ++ piece) + len bf)) as [Ho|Ho];
    simpl.
  - split; [split|]; [|by intros _; left; right|by split; [|right]].
    destruct (has_content st) eqn:Eh; [|done].
    apply Forall_app. split; [done|]. constructor; [|constructor]. by apply flush_ok, Hc.
  - split; [split|]; [done|by intros _; left; left|by split; [|left]].
Qed.

Lemma try_piece_inv st piece : bound_inv st -> bound_inv (try_piece bf max_bytes st piece).
Proof.
  intros [Hb Hc]. unfold try_piece.
  destruct (Z.ltb_spec (len (current_batch st ++ piece) + len bf) max_bytes); [|done].
  split; [done|]. intros _. by left; left.
Qed.

Lemma exec_step_inv st s :
  (forall r, r ∈ step_resets s -> r ∈ R) -> bound_inv st ->
  bound_inv (exec_step bf max_bytes st s).
Proof.
  intros HR Hi. destruct s as [piece reset|piece|[piece reset] rest]; simpl in *.
  - apply add_piece_inv; [|done]. apply HR. set_solver.
  - by apply try_piece_inv.
  - destruct (add_piece_inv st piece reset) as (Hi1 & Hh1 & Hg1); [apply HR; set_solver|done|].
    assert (Hgen : forall rs st, (forall r, r ∈ map snd rs -> r ∈ R) ->
      bound_inv st -> has_content st = true -> good (current_batch st) ->
      let st' := fold_left (fun st '(p, r) => add_piece bf max_bytes st p r) rs st in
      bound_inv st' /\ has_content st' = true /\ good (current_batch st')).
    { induction rs as [|[p r] rs IH]; intros st0 HRs Hi0 Hh0 Hg0; simpl; [done|].
      destruct (add_piece_inv st0 p r) as (Hi2 & Hh2 & Hg2); [apply HRs; set_solver|done|].
      apply IH; [|done..]. intros r' Hr'. apply HRs. set_solver. }
    destruct (Hgen rest _ (fun r Hr => HR r (list_elem_of_further _ _ _ Hr)) Hi1 Hh1 Hg1)
      as ([Hb Hc] & Hh & Hg).
    split; [done|]. intros _. right. by eexists.
Qed.

Lemma run_steps_ok bh steps :
  (forall s, s ∈ steps -> forall r, r ∈ step_resets s -> r ∈ R) ->
  Forall ok_batch (run_steps bf max_bytes bh steps).
Proof.
  intros HR. unfold run_steps.
  assert (Hgen : forall st, bound_inv st -> bound_inv (fold_left (exec_step bf max_bytes) steps st)).
  { induction steps as [|s steps IH]; intros st Hi; simpl; [done|].
    apply IH; [intros s' Hs'; apply HR; set_solver|].
    apply exec_step_inv; [|done]. apply HR. set_solver. }
  destruct (Hgen (mkBState [] bh false)) as [Hb Hc]; [split; [constructor|done]|].
  destruct (has_content _) eqn:Eh; [|done].
  apply Forall_app. split; [done|]. constructor; [|constructor]. by apply flush_ok, Hc.
Qed.
End Bound.

Lemma resets_elem steps s r : s ∈ steps -> r ∈ step_resets s -> r ∈ resets steps.
Proof.
  unfold resets. intros Hs Hr. apply list_elem_of_In, in_concat.
  exists (step_resets s). split; apply list_elem_of_In; [|done].
  apply list_elem_of_fmap. by exists s.
Qed.

(** C1 (counterexample): with [max_bytes = 50], the empty report gives one
    batch over the limit although the report has no atomic unit; and a
    report whose group has a long second title gives a batch over the
    limit that does not contain the group's atomic unit. *)
Lemma oversized_batch_without_atomic_unit :
  let ftp := fun (_ : string) (t : StatTitle) (_ : bool) => t_title t in
  let empty := mkReportData [] [] [] 0 in
  let long := "0123456789012345678901234567890123456789012345678901234567890123456789" in
  let stat := mkStat "AI" 2 [mkStatTitle "a" "src" "" "" "" 1 [1] 5 "" "" false;
                             mkStatTitle long "src" "" "" "" 1 [2] 5 "" "" false] in
  let report := mkReportData [stat] [] [] 0 in
  ((forall u, ~ is_atomic_unit ftp empty "telegram" u) /\
   exists b, split_content_into_batches ftp "" 20000 29000 4000 "2025-01-01 08:00:00"
               empty "telegram" None (Some 50) "daily" = [b] /\ (50 < len b)%Z) /\
  ((forall u, is_atomic_unit ftp report "telegram" u ->
      u = group_unit ftp "telegram" 1 0 stat) /\
   exists b, b ∈ split_content_into_batches ftp "" 20000 29000 4000 "2025-01-01 08:00:00"
               report "telegram" None (Some 100) "daily" /\
     (100 < len b)%Z /\ PyStr.contains (group_unit ftp "telegram" 1 0 stat) b = false).
Proof.
  cbv zeta. split; split.
  - intros u [(i & stat & Hi & _)|(src & Hsrc & _)]; simpl in *.
    + by rewrite lookup_nil in Hi.
    + by apply elem_of_nil in Hsrc.
  - eexists. split; [reflexivity|]. vm_compute. reflexivity.
  - intros u [(i & stat & Hi & ->)|(src & Hsrc & _)]; simpl in *.
    + destruct i as [|i]; simpl in Hi; [by injection Hi as <-|].
      by rewrite lookup_nil in Hi.
    + by apply elem_of_nil in Hsrc.
  - eexists. split; [apply list_elem_of_In; vm_compute; right; right; left; reflexivity|].
    split; vm_compute; reflexivity.
Qed.

(** *** Atomic units *)

Definition unit_placed (u : string) (st : BState) : Prop :=
  (exists b, b ∈ batches st /\ str_infix u b) \/
  (has_content st = true /\ str_infix u (current_batch st)).

Lemma infix_app_r u a b : str_infix u a -> str_infix u (a ++ b).
Proof. intros (x & y & ->). exists x, (y ++ b). by rewrite <- !str_app_assoc. Qed.

Section Placement.
Variables (bf : string) (max_bytes : Z) (u : string).

Lemma add_piece_placed st piece reset :
  unit_placed u st -> unit_placed u (add_piece bf max_bytes st piece reset).
Proof.
  unfold add_piece.
  destruct (Z.leb _ _); intros [(b & Hb & Hu)|[Hh Hu]]; simpl.
  - left. exists b. split; [|done]. destruct (has_content st); [set_solver|done].
  - left. exists (current_batch st ++ bf). rewrite Hh. split; [set_solver|].
    by apply infix_app_r.
  - left. by exists b.
  - right. split; [done|]. by apply infix_app_r.
Qed.

Lemma add_unit_placed st x :
  unit_placed u (add_piece bf max_bytes st u (x ++ u)).
Proof.
  unfold add_piece. right. destruct (Z.leb _ _); simpl; split; try done.
  - exists x, "". by rewrite str_app_nil_r.
  - exists (current_batch st), "". by rewrite str_app_nil_r.
Qed.

Lemma fold_add_placed rs st :
  unit_placed u st ->
  unit_placed u (fold_left (fun st '(p, r) => add_piece bf max_bytes st p r) rs st).
Proof.
  revert st. induction rs as [|[p r] rs IH]; intros st Hu; simpl; [done|].
  by apply IH, add_piece_placed.
Qed.

Lemma exec_step_placed st s : unit_placed u st -> unit_placed u (exec_step bf max_bytes st s).
Proof.
  destruct s as [piece reset|piece|[piece reset] rest]; simpl.
  - apply add_piece_placed.
  - unfold try_piece. destruct (Z.ltb _ _); [|done].
    intros [(b & Hb & Hu)|[Hh Hu]]; [left; by exists b|right; simpl].
    split; [done|]. by apply infix_app_r.
  - intros Hu. pose proof (fold_add_placed rest _ (add_piece_placed st piece reset Hu))
      as [(b & Hb & Hu')|[Hh Hu']]; [left; by exists b|right; simpl].
    split; [done|]. by apply infix_app_r.
Qed.

Lemma fold_steps_placed steps st :
  unit_placed u st -> unit_placed u (fold_left (exec_step bf max_bytes) steps st).
Proof.
  revert st. induction steps as [|s steps IH]; intros st Hu; simpl; [done|].
  by apply IH, exec_step_placed.
Qed.

(** A step that places the unit, followed by any steps, leaves the unit
    contiguous in one of the returned batches. *)
Lemma run_steps_placed bh steps s :
  s ∈ steps -> (forall st, unit_placed u (exec_step bf max_bytes st s)) ->
  exists b, b ∈ run_steps bf max_bytes bh steps /\ str_infix u b.
Proof.
  intros Hs Hplace. apply list_elem_of_split in Hs as (l1 & l2 & ->).
  unfold run_steps. rewrite fold_left_app. simpl.
  destruct (fold_steps_placed l2 _ (Hplace (fold_left (exec_step bf max_bytes) l1
              (mkBState [] bh false)))) as [(b & Hb & Hu)|[Hh Hu]].
  - exists b. split; [|done]. destruct (has_content _); [set_solver|done].
  - rewrite Hh. eexists. split; [apply elem_of_app; right; by apply list_elem_of_singleton|].
    by apply infix_app_r.
Qed.
End Placement.

Lemma group_step_in format_title_for_platform sep now_str format_type report_data i stat :
  stats report_data !! i = Some stat ->
  let u := group_unit format_title_for_platform format_type (length (stats report_data)) i stat in
  exists x, SAdd u (x ++ u) ∈ all_steps format_title_for_platform sep now_str format_type report_data.
Proof.
  intros Hi. cbv zeta. unfold all_steps, stats_steps.
  destruct (stats report_data) as [|s0 ss] eqn:Es; [by rewrite lookup_nil in Hi|].
  rewrite <- Es in *.
  set (bh := base_header now_str format_type (total_titles (stats report_data))).
  set (sh := stats_header format_type (stats report_data)).
  exists (bh ++ sh). rewrite <- str_app_assoc.
  apply elem_of_app. left. apply list_elem_of_further.
  apply list_elem_of_In, in_concat.
  exists (group_steps format_title_for_platform sep format_type bh sh
            (length (stats report_data)) i stat).
  split; [|by left].
  apply list_elem_of_In. rewrite Es. apply (list_elem_of_lookup_2 _ i).
  rewrite list_lookup_imap. rewrite <- Es, Hi. reflexivity.
Qed.

Lemma source_step_in format_title_for_platform sep now_str format_type report_data src :
  src ∈ new_titles report_data ->
  let u := source_unit format_title_for_platform format_type src in
  exists x rest, SBlock (u, x ++ u) rest ∈
    all_steps format_title_for_platform sep now_str format_type report_data.
Proof.
  intros Hsrc. cbv zeta. unfold all_steps, new_steps.
  destruct (new_titles report_data) as [|s0 ss] eqn:En; [by apply elem_of_nil in Hsrc|].
  rewrite <- En in *.
  set (bh := base_header now_str format_type (total_titles (stats report_data))).
  set (nh := new_header sep format_type (total_new_count report_data)).
  eexists (bh ++ nh), _. rewrite <- str_app_assoc.
  apply elem_of_app. right. apply elem_of_app. left. apply list_elem_of_further.
  rewrite En. apply list_elem_of_fmap. exists src. rewrite <- En. split; [|done].
  reflexivity.
Qed.

(** C2: every atomic unit of the report (a keyword-group header with that
    group's first title line, or a new-titles source header with that
    source's first title line) occurs contiguously inside one of the
    batches: the header and its first line are never separated. *)
Theorem atomic_unit_in_one_batch format_title_for_platform sep d f m now_str report_data
    format_type update_info max_bytes mode u :
  is_atomic_unit format_title_for_platform report_data format_type u ->
  exists b, b ∈ split_content_into_batches format_title_for_platform sep d f m now_str
              report_data format_type update_info max_bytes mode /\ str_infix u b.
Proof.
  intros Hu. unfold split_content_into_batches.
  assert (Hne : exists s, s ∈ all_steps format_title_for_platform sep now_str format_type
                              report_data /\
                (forall bf mx st, unit_placed u (exec_step bf mx st s))).
  { destruct Hu as [(i & stat & Hi & ->)|(src & Hsrc & ->)].
    - destruct (group_step_in format_title_for_platform sep now_str format_type
                  report_data i stat Hi) as [x Hx].
      eexists. split; [apply Hx|]. intros bf mx st. apply add_unit_placed.
    - destruct (source_step_in format_title_for_platform sep now_str format_type
                  report_data src Hsrc) as (x & rest & Hx).
      eexists. split; [apply Hx|]. intros bf mx st. simpl.
      destruct (fold_add_placed bf mx (source_unit format_title_for_platform format_type src) rest _
                 (add_unit_placed bf mx _ st x))
        as [(b & Hb & Hu')|[Hh Hu']]; [left; by exists b|right; simpl].
      split; [done|]. by apply infix_app_r. }
  destruct Hne as (s & Hs & Hplace).
  assert (Hnonempty : stats report_data <> [] \/ new_titles report_data <> []).
  { destruct Hu as [(i & stat & Hi & _)|(src & Hsrc & _)].
    - left. intros He. by rewrite He, lookup_nil in Hi.
    - right. intros He. rewrite He in Hsrc. by apply elem_of_nil in Hsrc. }
  destruct (stats report_data) eqn:Es, (new_titles report_data) eqn:En;
    try (destruct Hnonempty as [[]|[]]; done);
    eapply run_steps_placed; eauto.
Qed.

Lemma atomic_unit_in_one_batch_witness :
  let ftp := fun (_ : string) (t : StatTitle) (_ : bool) => t_title t in
  let stat := mkStat "AI" 2 [mkStatTitle "a" "src" "" "" "" 1 [1] 5 "" "" false;
                             mkStatTitle "b" "src" "" "" "" 1 [2] 5 "" "" false] in
  let report := mkReportData [stat] [mkNewSource "S" [mkStatTitle "n" "S" "" "" "" 1 [1] 5 "" "" true]] [] 1 in
  is_atomic_unit ftp report "telegram" (group_unit ftp "telegram" 1 0 stat) /\
  exists b, b ∈ split_content_into_batches ftp "" 20000 29000 4000 "2025-01-01 08:00:00"
              report "telegram" None (Some 60) "daily" /\
            str_infix (group_unit ftp "telegram" 1 0 stat) b.
Proof.
  cbv zeta. assert (H : is_atomic_unit (fun (_ : string) (t : StatTitle) (_ : bool) => t_title t)
    (mkReportData [mkStat "AI" 2 [mkStatTitle "a" "src" "" "" "" 1 [1] 5 "" "" false;
                             mkStatTitle "b" "src" "" "" "" 1 [2] 5 "" "" false]]
       [mkNewSource "S" [mkStatTitle "n" "S" "" "" "" 1 [1] 5 "" "" true]] [] 1) "telegram"
    (group_unit (fun (_ : string) (t : StatTitle) (_ : bool) => t_title t) "telegram" 1 0
       (mkStat "AI" 2 [mkStatTitle "a" "src" "" "" "" 1 [1] 5 "" "" false;
                       mkStatTitle "b" "src" "" "" "" 1 [2] 5 "" "" false]))).
  { left. exists 0%nat, (mkStat "AI" 2 [mkStatTitle "a" "src" "" "" "" 1 [1] 5 "" "" false;
                                   mkStatTitle "b" "src" "" "" "" 1 [2] 5 "" "" false]).
    split; reflexivity. }
  split; [exact H|]. apply (atomic_unit_in_one_batch _ _ _ _ _ _ _ _ _ _ _ _ H).
Defined.

(** *** The group separator *)

Lemma stats_steps_ne format_title_for_platform sep format_type bh stats :
  stats <> [] ->
  stats_steps format_title_for_platform sep format_type bh stats =
  SAdd (stats_header format_type stats) (bh ++ stats_header format_type stats) ::
  concat (imap (group_steps format_title_for_platform sep format_type bh
                  (stats_header format_type stats) (length stats)) stats).
Proof. by destruct stats. Qed.

Lemma concat_imap_split {A B} (g : nat -> A -> list B) l1 x y l3 :
  concat (imap g (l1 ++ x :: y :: l3)) =
  (concat (imap g l1) ++ g (length l1) x ++ g (S (length l1)) y ++
   concat (imap (fun n => g (S (S (length l1 + n)))) l3))%list.
Proof.
  rewrite imap_app, concat_app. simpl. rewrite Nat.add_0_r, Nat.add_1_r.
  do 4 f_equal. apply imap_ext. intros n a _. simpl. f_equal. lia.
Qed.

Lemma group_steps_head format_title_for_platform sep format_type bh sh total i stat :
  exists l, group_steps format_title_for_platform sep format_type bh sh total i stat =
    SAdd (group_unit format_title_for_platform format_type total i stat)
         (bh ++ sh ++ group_unit format_title_for_platform format_type total i stat) :: l.
Proof. by eexists. Qed.

Lemma group_steps_sep format_title_for_platform sep format_type bh sh total i stat :
  (i < total - 1)%nat ->
  exists l, group_steps format_title_for_platform sep format_type bh sh total i stat =
    (SAdd (group_unit format_title_for_platform format_type total i stat)
          (bh ++ sh ++ group_unit format_title_for_platform format_type total i stat)
     :: l ++ [STry (separator sep format_type)])%list.
Proof.
  intros Hi. unfold group_steps. rewrite (proj2 (Nat.ltb_lt _ _) Hi). by eexists.
Qed.

(** C10: between keyword groups [i] and [i + 1] the splitter runs the
    separator step and then the atomic unit of group [i + 1], whose restart
    string is [base_header + stats_header + unit] (no separator); the
    separator step never flushes a batch nor changes
    [current_batch_has_content], and it appends the separator exactly when
    [current_batch + separator + footer] fits in [max_bytes], leaving the
    current batch unchanged otherwise. *)
Theorem separator_between_groups format_title_for_platform sep now_str format_type
    report_data i s1 s2 bf max_bytes :
  stats report_data !! i = Some s1 -> stats report_data !! S i = Some s2 ->
  let bh := base_header now_str format_type (total_titles (stats report_data)) in
  let sh := stats_header format_type (stats report_data) in
  let u2 := group_unit format_title_for_platform format_type (length (stats report_data)) (S i) s2 in
  let sepr := separator sep format_type in
  (exists pre post,
     all_steps format_title_for_platform sep now_str format_type report_data =
     (pre ++ [STry sepr; SAdd u2 (bh ++ sh ++ u2)] ++ post)%list) /\
  forall st,
    let st' := exec_step bf max_bytes st (STry sepr) in
    batches st' = batches st /\ has_content st' = has_content st /\
    current_batch st' =
      (if (len (current_batch st ++ sepr) + len bf <? max_bytes)%Z
       then current_batch st ++ sepr else current_batch st).
Proof.
  intros H1 H2. cbv zeta. split.
  - apply list_elem_of_split_length in H1 as (l1 & l2 & Es & ->).
    rewrite Es, lookup_app_r, Nat.sub_succ_l, Nat.sub_diag in H2 by lia.
    destruct l2 as [|s2' l3]; [done|]. simpl in H2. injection H2 as ->.
    unfold all_steps. rewrite stats_steps_ne by (rewrite Es; by destruct l1).
    set (bh := base_header now_str format_type (total_titles (stats report_data))).
    set (sh := stats_header format_type (stats report_data)).
    set (G := group_steps format_title_for_platform sep format_type bh sh
                (length (stats report_data))).
    assert (Hlen : length (stats report_data) = S (S (length l1 + length l3)))
      by (rewrite Es, length_app; simpl; lia).
    assert (Hc : concat (imap G (stats report_data)) =
      (concat (imap G l1) ++ G (length l1) s1 ++ G (S (length l1)) s2 ++
       concat (imap (fun n => G (S (S (length l1 + n)))) l3))%list)
      by (rewrite Es; apply concat_imap_split).
    destruct (group_steps_sep format_title_for_platform sep format_type bh sh
                (length (stats report_data)) (length l1) s1) as [l Hl]; [lia|].
    destruct (group_steps_head format_title_for_platform sep format_type bh sh
                (length (stats report_data)) (S (length l1)) s2) as [l' Hl'].
    rewrite Hc. unfold G. rewrite Hl, Hl'.
    eexists (SAdd sh (bh ++ sh) :: concat (imap _ l1) ++ _ :: l)%list, _.
    simpl. rewrite <- !app_assoc. simpl. rewrite <- !app_assoc. simpl. reflexivity.
  - intros st. simpl. unfold try_piece.
    destruct (Z.ltb _ _); simpl; auto.
Qed.

Lemma separator_between_groups_witness :
  let ftp := fun (_ : string) (t : StatTitle) (_ : bool) => t_title t in
  let s1 := mkStat "AI" 1 [mkStatTitle "a" "src" "" "" "" 1 [1] 5 "" "" false] in
  let s2 := mkStat "EV" 1 [mkStatTitle "b" "src" "" "" "" 1 [2] 5 "" "" false] in
  let report := mkReportData [s1; s2] [] [] 0 in
  stats report !! 0%nat = Some s1 /\ stats report !! 1%nat = Some s2 /\
  exists pre post,
    all_steps ftp "" "NOW" "telegram" report =
    (pre ++ [STry (separator "" "telegram");
             SAdd (group_unit ftp "telegram" 2 1 s2)
               (base_header "NOW" "telegram" (total_titles [s1; s2]) ++
                stats_header "telegram" [s1; s2] ++ group_unit ftp "telegram" 2 1 s2)] ++ post)%list.
Proof.
  intros ftp s1 s2 report. split; [reflexivity|]. split; [reflexivity|].
  exact (proj1 (separator_between_groups ftp "" "NOW" "telegram" report 0 s1 s2 "" 100
                  eq_refl eq_refl)).
Defined.
End BatchFacts.

(* ================================================================== *)
(** ** Snapshot line round trip *)

Module SnapshotFacts.
Import Snapshot.
Local Open Scope string_scope.

(** Claim C4: the line written for a title with a URL (or a mobile URL) and a
    summary does not parse back to what was written: the summary tag is still
    attached when the URL (resp. MOBILE) tag is split off from the right, so
    the URL (resp. mobile URL) absorbs "] [SUMMARY:s" and the summary comes
    back empty, whatever [clean_title] does to the title. *)
Lemma tagged_summary_not_recovered (clean_title : string -> string) :
  save_title_line 1 "T" "u" "" "s" = "1. T [URL:u] [SUMMARY:s]" ++ nl /\
  parse_title_line clean_title "1. T [URL:u] [SUMMARY:s]" =
    mkParsedTitle (clean_title "T") [1%nat] "u] [SUMMARY:s" "" "" /\
  save_title_line 1 "T" "" "m" "s" = "1. T [MOBILE:m] [SUMMARY:s]" ++ nl /\
  parse_title_line clean_title "1. T [MOBILE:m] [SUMMARY:s]" =
    mkParsedTitle (clean_title "T") [1%nat] "" "m] [SUMMARY:s" "".
Proof. repeat split; reflexivity. Qed.

End SnapshotFacts.

(* ================================================================== *)
(** ** New titles of the latest snapshot *)

Module NewTitlesFacts.
Import Ledger NewTitles.

Lemma fold_union_elem (td : TitleData) (s0 : gset string) t :
  t ∈ fold_left (fun s '(title, _) => {[title]} ∪ s) td s0 <-> t ∈ s0 \/ t ∈ map fst td.
Proof.
  revert s0. induction td as [|[t' d] td IH]; intros s0; simpl.
  - rewrite elem_of_nil. tauto.
  - rewrite IH, elem_of_union, elem_of_singleton, elem_of_cons. tauto.
Qed.

Lemma add_history_spec (l : list (string * TitleData)) h sid t :
  t ∈ default ∅ (add_history h l !! sid) <->
  t ∈ default ∅ (h !! sid) \/ exists td, (sid, td) ∈ l /\ t ∈ map fst td.
Proof.
  unfold add_history. revert h. induction l as [|[sid' td] l IH]; intros h; simpl.
  - split; [tauto|]. intros [?|(td & Hin & _)]; [done|]. by apply elem_of_nil in Hin.
  - rewrite IH. destruct (decide (sid' = sid)) as [->|Hne].
    + rewrite lookup_insert_eq. simpl. rewrite fold_union_elem.
      split.
      * intros [[?|?]|(td' & ? & ?)]; [tauto| |]; right; eexists; split; eauto;
          rewrite elem_of_cons; [left; done|right; done].
      * intros [?|(td' & Hin & Ht)]; [tauto|].
        rewrite elem_of_cons in Hin. destruct Hin as [Heq|Hin].
        -- injection Heq as <-. tauto.
        -- right. eauto.
    + rewrite lookup_insert_ne by done.
      split.
      * intros [?|(td' & ? & ?)]; [tauto|]. right. exists td'. split; [|done].
        rewrite elem_of_cons. by right.
      * intros [?|(td' & Hin & Ht)]; [tauto|].
        rewrite elem_of_cons in Hin. destruct Hin as [Heq|Hin]; [congruence|].
        right. eauto.
Qed.

Lemma history_spec ids (fs : list Snapshot) h sid t :
  t ∈ default ∅ (fold_left (fun h f => add_history h (filter_platforms ids f.2)) fs h !! sid) <->
  t ∈ default ∅ (h !! sid) \/
  exists f td, f ∈ fs /\ (sid, td) ∈ filter_platforms ids f.2 /\ t ∈ map fst td.
Proof.
  revert h. induction fs as [|f fs IH]; intros h; simpl.
  - split; [tauto|]. intros [?|(f & td & Hin & _)]; [done|]. by apply elem_of_nil in Hin.
  - rewrite IH, add_history_spec. split.
    + intros [[?|(td & ? & ?)]|(f' & td & ? & ? & ?)]; [tauto| |];
        right; do 2 eexists; (split; [|split; eauto]); rewrite elem_of_cons; auto.
    + intros [?|(f' & td & Hin & ? & ?)]; [tauto|].
      rewrite elem_of_cons in Hin. destruct Hin as [->|Hin]; [eauto|].
      right. eauto.
Qed.

Lemma new_fold_spec (H : gmap string (gset string)) (l : list (string * TitleData)) acc sid td :
  (sid, td) ∈ fold_left (fun new_titles '(source_id, latest_source_titles) =>
        let historical_set := default ∅ (H !! source_id) in
        let source_new_titles :=
          filter (fun p => p.1 ∉ historical_set) latest_source_titles in
        match source_new_titles with
        | [] => new_titles
        | _ => new_titles ++ [(source_id, source_new_titles)]
        end) l acc <->
  (sid, td) ∈ acc \/
  exists lst, (sid, lst) ∈ l /\ td = filter (fun p => p.1 ∉ default ∅ (H !! sid)) lst /\ td <> [].
Proof.
  revert acc. induction l as [|[sid' lst'] l IH]; intros acc; cbn [fold_left].
  - split; [tauto|]. intros [?|(lst & Hin & _)]; [done|]. by apply elem_of_nil in Hin.
  - rewrite IH. case_match eqn:Ef.
    + split.
      * intros [?|(lst & ? & ? & ?)]; [tauto|]. right. exists lst.
        rewrite elem_of_cons. auto.
      * intros [?|(lst & Hin & -> & Hne)]; [tauto|].
        rewrite elem_of_cons in Hin. destruct Hin as [Heq|Hin].
        -- injection Heq as <- <-. by rewrite Ef in Hne.
        -- right. eauto.
    + rewrite elem_of_app, list_elem_of_singleton. split.
      * intros [[?|Heq]|(lst & ? & ? & ?)]; [tauto| |].
        -- injection Heq as -> ->. right. exists lst'.
           rewrite elem_of_cons. split; [auto|]. by rewrite Ef.
        -- right. exists lst. rewrite elem_of_cons. auto.
      * intros [?|(lst & Hin & -> & Hne)]; [tauto|].
        rewrite elem_of_cons in Hin. destruct Hin as [Heq|Hin].
        -- injection Heq as <- <-. left. right. by rewrite Ef.
        -- right. eauto.
Qed.

(** [detect_latest_new_titles] reports exactly the titles of the latest
    snapshot (after platform filtering) that no earlier snapshot of the day
    has under the same source id, only when there are at least two
    snapshots, and never a source with no new title. *)
Theorem detect_latest_new_titles_spec ids (files : list Snapshot) :
  (forall sid td, (sid, td) ∈ detect_latest_new_titles ids files -> td <> []) /\
  forall sid t d,
    (exists td, (sid, td) ∈ detect_latest_new_titles ids files /\ (t, d) ∈ td) <->
    (2 <= length files)%nat /\
    (exists td, (sid, td) ∈ filter_platforms ids (default ("", []) (last files)).2 /\
                (t, d) ∈ td) /\
    ~ (exists f td, f ∈ removelast files /\ (sid, td) ∈ filter_platforms ids f.2 /\
                    t ∈ map fst td).
Proof.
  unfold detect_latest_new_titles.
  destruct (Nat.ltb_spec (length files) 2) as [Hlt|Hge].
  { split; [intros ? ? Hin; by apply elem_of_nil in Hin|].
    intros sid t d. split; [intros (td & Hin & _); by apply elem_of_nil in Hin|].
    intros [? _]. lia. }
  split.
  - intros sid td Hin. apply new_fold_spec in Hin as [Hin|(lst & _ & _ & Hne)]; [|done].
    by apply elem_of_nil in Hin.
  - intros sid t d. split.
    + intros (td & Hin & Htd). apply new_fold_spec in Hin as [Hin|(lst & Hl & -> & _)].
      { by apply elem_of_nil in Hin. }
      apply list_elem_of_filter in Htd as [Hnh Htd]. simpl in Hnh.
      split; [lia|]. split; [eauto|].
      intros Hh. apply Hnh. apply history_spec. by right.
    + intros (_ & (lst & Hl & Htd) & Hnh).
      exists (filter (fun p => p.1 ∉ default ∅
        (fold_left (fun h f => add_history h (filter_platforms ids f.2))
           (removelast files) ∅ !! sid)) lst).
      assert (Hin : (t, d) ∈ filter (fun p => p.1 ∉ default ∅
        (fold_left (fun h f => add_history h (filter_platforms ids f.2))
           (removelast files) ∅ !! sid)) lst).
      { apply list_elem_of_filter. split; [|done]. simpl.
        rewrite history_spec, lookup_empty. simpl. rewrite elem_of_empty. tauto. }
      split; [|done]. apply new_fold_spec. right. exists lst. split; [done|]. split; [done|].
      intros He. rewrite He in Hin. by apply elem_of_nil in Hin.
Qed.

End NewTitlesFacts.

(* ================================================================== *)
(** ** The ledger's time stamps, links and summary *)

Module LedgerSpecFacts.
Import Ledger LedgerSpec.

Lemma observations_snoc ids files f s t :
  observations ids (files ++ [f]) s t =
  observations ids files s t ++
  match obs_in ids f s t with Some d => [(f.1, d)] | None => [] end.
Proof.
  unfold observations. rewrite omap_app. f_equal. simpl.
  by destruct (obs_in ids f s t).
Qed.

Lemma first_nonempty_snoc l u :
  first_nonempty (l ++ [u]) =
  if String.eqb (first_nonempty l) "" then u else first_nonempty l.
Proof.
  unfold first_nonempty. induction l as [|x l IH]; simpl.
  - rewrite filter_cons, filter_nil. case_decide as H; simpl; [done|].
    destruct (String.eqb_spec u ""); [done|]. by destruct H.
  - rewrite !filter_cons. case_decide as H; simpl.
    + destruct (String.eqb_spec x ""); [by destruct H|done].
    + exact IH.
Qed.

Lemma first_nonempty_single u : first_nonempty [u] = u.
Proof. apply (first_nonempty_snoc [] u). Qed.

Definition fields_ok (obs : list (string * Obs)) (e : Info) : Prop :=
  fst <$> head obs = Some (first_time e) /\
  fst <$> last obs = Some (last_time e) /\
  url e = first_nonempty (map (ob_url ∘ snd) obs) /\
  mobileUrl e = first_nonempty (map (ob_mobileUrl ∘ snd) obs) /\
  summary e = first_nonempty (map (ob_summary ∘ snd) obs).

Lemma ledger_fields_history ids files :
  Forall wf_snapshot files -> forall s t,
  match ledger_entry (read_all_today_titles ids files) s t with
  | None => observations ids files s t = []
  | Some e => fields_ok (observations ids files s t) e
  end.
Proof.
  induction files as [|f files IH] using rev_ind; intros Hwf s t.
  - unfold ledger_entry. simpl. by rewrite lookup_empty.
  - apply Forall_app in Hwf as [Hwf Hf]. inversion Hf as [|? ? Hf' _]; subst.
    rewrite LedgerFacts.read_all_snoc,
      LedgerFacts.process_snapshot_spec by (done || apply LedgerFacts.synced_reachable).
    rewrite observations_snoc.
    specialize (IH Hwf s t).
    destruct (obs_in ids f s t) as [d|] eqn:Ed; [|by rewrite app_nil_r].
    destruct (ledger_entry (read_all_today_titles ids files) s t) as [e|] eqn:Ee;
      simpl.
    + destruct IH as (Hh & Hl & Hu & Hm & Hs).
      unfold fields_ok. rewrite head_app, last_snoc, !map_app. cbn [map compose snd].
      rewrite !first_nonempty_snoc.
      rewrite <- Hu, <- Hm, <- Hs. simpl.
      destruct (head (observations ids files s t)) as [[ft o]|] eqn:Eh; [|done].
      repeat split; try done.
    + rewrite IH. unfold fields_ok. simpl.
      split_and!; try done; symmetry; apply first_nonempty_single.
Qed.

Definition ex_files : list Snapshot :=
  [("08-00", [("src", [("X", mkObs [3] "" "" "")])]);
   ("09-00", [("src", [("Y", mkObs [1] "" "" ""); ("X", mkObs [1] "https://a" "" "s1")])]);
   ("10-00", [("src", [("X", mkObs [2] "https://b" "https://m" "s2")])])].

Lemma ex_files_wf : Forall wf_snapshot ex_files.
Proof. repeat constructor; simpl; set_solver. Qed.

(** [read_all_today_titles] keeps an entry for a (source id, title) exactly
    when some snapshot of the day has it; the entry's [first_time] is the
    time stamp of the first such snapshot and its [last_time] that of the
    last one. *)
Theorem ledger_first_last_time ids files :
  Forall wf_snapshot files ->
  (forall s t, ledger_entry (read_all_today_titles ids files) s t = None <->
               observations ids files s t = []) /\
  (forall s t e, ledger_entry (read_all_today_titles ids files) s t = Some e ->
     fst <$> head (observations ids files s t) = Some (first_time e) /\
     fst <$> last (observations ids files s t) = Some (last_time e)).
Proof.
  intros Hwf. split.
  - intros s t. pose proof (ledger_fields_history ids files Hwf s t) as H.
    destruct (ledger_entry _ s t) as [e|]; [|tauto].
    split; [discriminate|]. intros He. destruct H as [Hh _]. by rewrite He in Hh.
  - intros s t e He. pose proof (ledger_fields_history ids files Hwf s t) as H.
    rewrite He in H. destruct H as (? & ? & _). done.
Qed.

Lemma ledger_first_last_time_witness :
  Forall wf_snapshot ex_files /\
  fst <$> head (observations None ex_files "src" "X") = Some "08-00" /\
  fst <$> last (observations None ex_files "src" "X") = Some "10-00".
Proof.
  split; [exact ex_files_wf|].
  exact (proj2 (ledger_first_last_time None ex_files ex_files_wf) "src" "X"
           (mkInfo "08-00" "10-00" 3 [3; 1; 2] "https://a" "https://m" "s1") eq_refl).
Defined.

(** The [url], [mobileUrl] and [summary] of a ledger entry are the first
    non-empty value observed for the title over the day's snapshots, in
    file order ([""] when every observation had it empty). *)
Theorem ledger_links_first_nonempty ids files :
  Forall wf_snapshot files ->
  forall s t e, ledger_entry (read_all_today_titles ids files) s t = Some e ->
    url e = first_nonempty (map (ob_url ∘ snd) (observations ids files s t)) /\
    mobileUrl e = first_nonempty (map (ob_mobileUrl ∘ snd) (observations ids files s t)) /\
    summary e = first_nonempty (map (ob_summary ∘ snd) (observations ids files s t)).
Proof.
  intros Hwf s t e He. pose proof (ledger_fields_history ids files Hwf s t) as H.
  rewrite He in H. destruct H as (_ & _ & ? & ? & ?). done.
Qed.

Lemma ledger_links_first_nonempty_witness :
  Forall wf_snapshot ex_files /\
  "https://a" = first_nonempty (map (ob_url ∘ snd) (observations None ex_files "src" "X")) /\
  "https://m" = first_nonempty (map (ob_mobileUrl ∘ snd) (observations None ex_files "src" "X")) /\
  "s1" = first_nonempty (map (ob_summary ∘ snd) (observations None ex_files "src" "X")).
Proof.
  split; [exact ex_files_wf|].
  exact (ledger_links_first_nonempty None ex_files ex_files_wf "src" "X"
           (mkInfo "08-00" "10-00" 3 [3; 1; 2] "https://a" "https://m" "s1") eq_refl).
Defined.

End LedgerSpecFacts.

(* ================================================================== *)
(** ** Every batch is framed by the base header and the footer *)

Module BatchFrameFacts.
Import Freq Batch BatchFacts.
Local Open Scope string_scope.

Section Frame.
Variables (bf : string) (max_bytes : Z) (bh : string).

Definition starts (s : string) : Prop := exists x, s = bh ++ x.
Definition framed (b : string) : Prop := exists x, b = bh ++ x ++ bf.
Definition frame_inv (st : BState) : Prop :=
  Forall framed (batches st) /\ starts (current_batch st).

Lemma starts_app s y : starts s -> starts (s ++ y).
Proof. intros [x ->]. exists (x ++ y). by rewrite str_app_assoc. Qed.

Lemma flush_framed s : starts s -> framed (s ++ bf).
Proof. intros [x ->]. exists x. by rewrite str_app_assoc. Qed.

Lemma add_piece_frame st p r :
  starts r -> frame_inv st -> frame_inv (add_piece bf max_bytes st p r).
Proof.
  intros Hr [Hb Hc]. unfold add_piece.
  destruct (Z.leb _ _); simpl; [|split; [done|by apply starts_app]].
  split; [|done]. destruct (has_content st); [|done].
  apply Forall_app. split; [done|]. constructor; [|constructor]. by apply flush_framed.
Qed.

Lemma fold_add_frame (rs : list (string * string)) st :
  (forall r, r ∈ map snd rs -> starts r) -> frame_inv st ->
  frame_inv (fold_left (fun st '(p, r) => add_piece bf max_bytes st p r) rs st).
Proof.
  revert st. induction rs as [|[p r] rs IH]; intros st HR Hi; simpl; [done|].
  apply IH; [intros r' Hr'; apply HR; simpl; by apply list_elem_of_further|].
  apply add_piece_frame; [|done]. apply HR. simpl. apply elem_of_cons. by left.
Qed.

Lemma exec_step_frame st s :
  (forall r, r ∈ step_resets s -> starts r) -> frame_inv st ->
  frame_inv (exec_step bf max_bytes st s).
Proof.
  intros HR Hi. destruct s as [p r|p|[p r] rest]; simpl in *.
  - apply add_piece_frame; [|done]. apply HR. by apply elem_of_cons; left.
  - unfold try_piece. destruct (Z.ltb _ _); [|done].
    destruct Hi as [Hb Hc]. split; [done|]. by apply starts_app.
  - destruct (fold_add_frame rest (add_piece bf max_bytes st p r)) as [Hb Hc].
    + intros r' Hr'. apply HR. by apply list_elem_of_further.
    + apply add_piece_frame; [|done]. apply HR. by apply elem_of_cons; left.
    + split; [done|]. by apply starts_app.
Qed.

Lemma run_steps_framed steps :
  (forall s, s ∈ steps -> forall r, r ∈ step_resets s -> starts r) ->
  Forall framed (run_steps bf max_bytes bh steps).
Proof.
  intros HR. unfold run_steps.
  assert (Hgen : forall st, frame_inv st ->
            frame_inv (fold_left (exec_step bf max_bytes) steps st)).
  { induction steps as [|s steps IH]; intros st Hi; simpl; [done|].
    apply IH; [intros s' Hs'; apply HR; by apply list_elem_of_further|].
    apply exec_step_frame; [|done]. apply HR. by apply elem_of_cons; left. }
  destruct (Hgen (mkBState [] bh false)) as [Hb Hc].
  { split; [constructor|]. exists "". by rewrite str_app_nil_r. }
  destruct (has_content _); [|done].
  apply Forall_app. split; [done|]. constructor; [|constructor]. by apply flush_framed.
Qed.

Lemma exec_step_content st s :
  has_content st = true -> has_content (exec_step bf max_bytes st s) = true.
Proof.
  intros Hh. assert (Ha : forall st p r, has_content (add_piece bf max_bytes st p r) = true).
  { intros st' p r. unfold add_piece. by destruct (Z.leb _ _). }
  destruct s as [p r|p|[p r] rest]; simpl; [apply Ha| |].
  - unfold try_piece. by destruct (Z.ltb _ _).
  - destruct rest as [|pr rest] using rev_ind; simpl; [apply Ha|].
    rewrite fold_left_app. destruct pr. simpl. apply Ha.
Qed.

Lemma run_steps_nonempty p r rest :
  run_steps bf max_bytes bh (SAdd p r :: rest) <> [].
Proof.
  unfold run_steps. simpl.
  assert (Hgen : forall st, has_content st = true ->
            has_content (fold_left (exec_step bf max_bytes) rest st) = true).
  { induction rest as [|s rest IH]; intros st Hh; simpl; [done|].
    apply IH. by apply exec_step_content. }
  rewrite Hgen; [|unfold add_piece; by destruct (Z.leb _ _)].
  intros H. by apply app_nil in H as [_ ?].
Qed.

End Frame.

Lemma all_steps_resets_start format_title_for_platform sep now_str format_type report_data :
  let bh := base_header now_str format_type (total_titles (stats report_data)) in
  forall s, s ∈ all_steps format_title_for_platform sep now_str format_type report_data ->
  forall r, r ∈ step_resets s -> starts bh r.
Proof.
  cbv zeta. unfold all_steps.
  set (bh := base_header now_str format_type (total_titles (stats report_data))).
  intros s Hs r Hr. rewrite !elem_of_app in Hs.
  destruct Hs as [Hs|[Hs|Hs]].
  - unfold stats_steps in Hs. destruct (stats report_data) as [|s0 ss]; [by apply elem_of_nil in Hs|].
    apply elem_of_cons in Hs as [->|Hs].
    { apply list_elem_of_singleton in Hr as ->. by eexists. }
    apply list_elem_of_In, in_concat in Hs as (l & Hl & Hs).
    apply list_elem_of_In, elem_of_lookup_imap_1 in Hl as (i & stat & -> & _).
    apply list_elem_of_In in Hs. unfold group_steps in Hs.
    apply elem_of_cons in Hs as [->|Hs].
    { apply list_elem_of_singleton in Hr as ->. by eexists. }
    apply elem_of_app in Hs as [Hs|Hs].
    + apply elem_of_lookup_imap_1 in Hs as (k & t & -> & _).
      apply list_elem_of_singleton in Hr as ->. by eexists.
    + destruct (Nat.ltb _ _); [|by apply elem_of_nil in Hs].
      apply list_elem_of_singleton in Hs as ->. by apply elem_of_nil in Hr.
  - unfold new_steps in Hs. destruct (new_titles report_data) as [|src0 srcs];
      [by apply elem_of_nil in Hs|].
    apply elem_of_cons in Hs as [->|Hs].
    { apply list_elem_of_singleton in Hr as ->. by eexists. }
    apply list_elem_of_fmap in Hs as (src & -> & _).
    unfold source_step in Hr. simpl in Hr.
    apply elem_of_cons in Hr as [->|Hr]; [by eexists|].
    apply list_elem_of_fmap in Hr as (pr & -> & Hpr).
    apply elem_of_lookup_imap_1 in Hpr as (k & t & -> & _). by eexists.
  - unfold failed_steps in Hs. destruct (failed_ids report_data) as [|id0 ids];
      [by apply elem_of_nil in Hs|].
    apply elem_of_cons in Hs as [->|Hs].
    { apply list_elem_of_singleton in Hr as ->. by eexists. }
    apply list_elem_of_fmap in Hs as (id & -> & _).
    apply list_elem_of_singleton in Hr as ->. by eexists.
Qed.

Lemma all_steps_head format_title_for_platform sep now_str format_type report_data :
  (stats report_data <> [] \/ new_titles report_data <> [] \/ failed_ids report_data <> []) ->
  exists p r rest,
    all_steps format_title_for_platform sep now_str format_type report_data = SAdd p r :: rest.
Proof.
  intros H. unfold all_steps, stats_steps, new_steps, failed_steps.
  destruct (stats report_data); [|by do 3 eexists].
  destruct (new_titles report_data); [|by do 3 eexists].
  destruct (failed_ids report_data); [|by do 3 eexists].
  naive_solver.
Qed.

(** [split_content_into_batches] never returns an empty list, and every
    batch it returns starts with the report's base header and ends with
    the base footer. *)
Theorem split_batches_framed format_title_for_platform sep d f m now_str report_data
    format_type update_info max_bytes mode :
  let bh := base_header now_str format_type (total_titles (stats report_data)) in
  let bf := base_footer now_str format_type update_info in
  let out := split_content_into_batches format_title_for_platform sep d f m now_str
               report_data format_type update_info max_bytes mode in
  out <> [] /\ Forall (fun b => exists x, b = bh ++ x ++ bf) out.
Proof.
  cbv zeta. unfold split_content_into_batches.
  set (bh := base_header now_str format_type (total_titles (stats report_data))).
  set (bf := base_footer now_str format_type update_info).
  set (mx := effective_max_bytes d f m format_type max_bytes).
  assert (Hf : Forall (framed bf bh)
    (run_steps bf mx bh (all_steps format_title_for_platform sep now_str format_type report_data))).
  { apply run_steps_framed. apply all_steps_resets_start. }
  assert (Hne : (stats report_data <> [] \/ new_titles report_data <> [] \/
                 failed_ids report_data <> []) ->
    run_steps bf mx bh (all_steps format_title_for_platform sep now_str format_type report_data)
    <> []).
  { intros H. destruct (all_steps_head format_title_for_platform sep now_str format_type
                          report_data H) as (p & r & rest & ->).
    apply run_steps_nonempty. }
  destruct (stats report_data) eqn:Es, (new_titles report_data) eqn:En,
    (failed_ids report_data) eqn:Efl;
  try (split; [apply Hne; rewrite ?Es, ?En, ?Efl; naive_solver|exact Hf]).
  split; [done|]. constructor; [|constructor].
  exists ("📭 " ++ mode_text mode ++ nl ++ nl). unfold no_content_batch.
  by rewrite <- !str_app_assoc.
Qed.

End BatchFrameFacts.

(* ================================================================== *)
(** ** [html_escape] *)

Module HtmlFacts.
Import Text.
Local Open Scope string_scope.

Fixpoint map_chars (g : Ascii.ascii -> string) (s : string) : string :=
  match s with
  | EmptyString => EmptyString
  | String c r => g c ++ map_chars g r
  end.

Fixpoint str_forallb (p : Ascii.ascii -> bool) (s : string) : bool :=
  match s with
  | EmptyString => true
  | String c r => p c && str_forallb p r
  end.

Lemma map_chars_app g a b : map_chars g (a ++ b) = map_chars g a ++ map_chars g b.
Proof.
  induction a as [|c a IH]; [done|]. simpl. rewrite IH. apply BatchFacts.str_app_assoc.
Qed.

Lemma str_forallb_app p a b : str_forallb p (a ++ b) = str_forallb p a && str_forallb p b.
Proof. induction a as [|c a IH]; [done|]. simpl. rewrite IH. apply andb_assoc. Qed.

Lemma substring_full s m : (String.length s <= m)%nat -> String.substring 0 m s = s.
Proof.
  revert m. induction s as [|c s IH]; intros [|m] Hm; simpl in *; try done; [lia|].
  rewrite IH; [done|lia].
Qed.

(** [s.replace(c, new)] for a one-character [c] replaces every occurrence
    of [c] and keeps every other character. *)
Lemma replace_single c new s :
  PyStr.replace (String c EmptyString) new s =
  map_chars (fun ch => if Ascii.ascii_dec ch c then new else String ch EmptyString) s.
Proof.
  unfold PyStr.replace. generalize (Nat.lt_succ_diag_r (String.length s)).
  generalize (S (String.length s)) as n. intros n.
  revert s. induction n as [|n IH]; intros s Hn; [lia|].
  destruct s as [|ch s']; [done|]. simpl in Hn |- *.
  destruct (Ascii.ascii_dec c ch) as [->|Hne].
  - simpl. destruct (Ascii.ascii_dec ch ch) as [_|]; [|done]. f_equal.
    rewrite substring_full by lia.
    replace (String.prefix "" s') with true by (destruct s'; reflexivity).
    f_equal. apply IH. lia.
  - destruct (Ascii.ascii_dec ch c) as [->|_]; [done|]. simpl. f_equal. apply IH. lia.
Qed.

Lemma escape_point ch :
  let g c new := fun ch => if Ascii.ascii_dec ch c then new else String ch EmptyString in
  map_chars (g (Ascii.ascii_of_nat 39) "&#x27;")
    (map_chars (g (Ascii.ascii_of_nat 34) "&quot;")
      (map_chars (g (Ascii.ascii_of_nat 62) "&gt;")
        (map_chars (g (Ascii.ascii_of_nat 60) "&lt;")
          (g (Ascii.ascii_of_nat 38) "&amp;" ch)))) = escape_char ch.
Proof. destruct ch as [[] [] [] [] [] [] [] []]; reflexivity. Qed.

Lemma escape_char_safe ch :
  str_forallb (fun c => negb (bool_decide (c = Ascii.ascii_of_nat 60 \/ c = Ascii.ascii_of_nat 62 \/
                                          c = Ascii.ascii_of_nat 34 \/ c = Ascii.ascii_of_nat 39)))
    (escape_char ch) = true.
Proof. destruct ch as [[] [] [] [] [] [] [] []]; reflexivity. Qed.

Lemma contains_single_false c s :
  str_forallb (fun ch => negb (bool_decide (ch = c))) s = true ->
  PyStr.contains (String c EmptyString) s = false.
Proof.
  induction s as [|ch s IH]; [done|]. simpl.
  intros [Hc Hs]%andb_prop. rewrite IH by done.
  case_bool_decide as H; [done|]. destruct (Ascii.ascii_dec c ch); [subst; done|done].
Qed.

Lemma escape_each_safe s :
  str_forallb (fun c => negb (bool_decide (c = Ascii.ascii_of_nat 60 \/ c = Ascii.ascii_of_nat 62 \/
                                          c = Ascii.ascii_of_nat 34 \/ c = Ascii.ascii_of_nat 39)))
    (escape_each s) = true.
Proof.
  induction s as [|ch s IH]; [done|]. simpl. rewrite str_forallb_app, IH, escape_char_safe. done.
Qed.

Lemma str_forallb_impl (p q : Ascii.ascii -> bool) s :
  (forall c, p c = true -> q c = true) -> str_forallb p s = true -> str_forallb q s = true.
Proof.
  intros Hpq. induction s as [|c s IH]; [done|]. simpl.
  intros [Hc Hs]%andb_prop. rewrite (Hpq c Hc). by apply IH.
Qed.

Lemma html_escape_each s : html_escape s = escape_each s.
Proof.
  unfold html_escape, dq. rewrite !replace_single.
  induction s as [|ch s IH]; [done|]. cbn [map_chars escape_each].
  rewrite !map_chars_app, IH. f_equal. apply escape_point.
Qed.

(** [html_escape] escapes character by character: each of [&], [<], [>],
    the double quote and the single quote becomes its entity, every other
    character is kept, and the entities it introduces are not escaped
    again. In particular its output never contains [<], [>], a double
    quote or a single quote. *)
Theorem html_escape_spec s :
  html_escape s = escape_each s /\
  PyStr.contains "<" (html_escape s) = false /\
  PyStr.contains ">" (html_escape s) = false /\
  PyStr.contains dq (html_escape s) = false /\
  PyStr.contains "'" (html_escape s) = false.
Proof.
  pose proof (html_escape_each s) as He. rewrite He. pose proof (escape_each_safe s) as Hs.
  split_and!; [done| | | |]; apply contains_single_false;
    (eapply str_forallb_impl; [|exact Hs]); intros c Hc;
    apply negb_true_iff in Hc; apply negb_true_iff;
    apply bool_decide_eq_false; apply bool_decide_eq_false in Hc; tauto.
Qed.

Lemma escape_char_app_inj c1 c2 r1 r2 :
  escape_char c1 ++ r1 = escape_char c2 ++ r2 -> c1 = c2 /\ r1 = r2.
Proof.
  unfold escape_char. intros Heq.
  repeat case_bool_decide; subst; simpl in Heq; simplify_eq; try done;
    try (exfalso; match goal with Hn : ~ (_ = _) |- _ => apply Hn; reflexivity end).
Qed.

(** [html_escape] loses no information: different texts are escaped to
    different strings. *)
Theorem html_escape_injective s1 s2 : html_escape s1 = html_escape s2 <-> s1 = s2.
Proof.
  split; [|by intros ->].
  rewrite !html_escape_each.
  revert s2. induction s1 as [|c1 s1 IH]; intros [|c2 s2]; simpl; intros H; try done.
  - exfalso. unfold escape_char in H. repeat case_bool_decide; discriminate.
  - exfalso. unfold escape_char in H. repeat case_bool_decide; discriminate.
  - apply escape_char_app_inj in H as [-> H]. f_equal. by apply IH.
Qed.

End HtmlFacts.

(* ================================================================== *)
(** ** [format_rank_display] *)

Module RankDisplayFacts.
Import Text.
Local Open Scope string_scope.

Lemma list_min_spec (l : list Z) :
  l <> [] -> Freq.list_min l ∈ l /\ forall y, y ∈ l -> (Freq.list_min l <= y)%Z.
Proof.
  induction l as [|r l IH]; [done|]. intros _.
  destruct l as [|r' l].
  - simpl. split; [by apply elem_of_cons; left|]. intros y Hy.
    apply list_elem_of_singleton in Hy. lia.
  - destruct IH as [Hin Hle]; [done|].
    change (Freq.list_min (r :: r' :: l)) with (Z.min r (Freq.list_min (r' :: l))).
    split.
    + destruct (Z.min_spec r (Freq.list_min (r' :: l))) as [[_ ->]|[_ ->]].
      * by apply elem_of_cons; left.
      * by apply elem_of_cons; right.
    + intros y Hy. apply elem_of_cons in Hy as [->|Hy]; [lia|]. specialize (Hle y Hy). lia.
Qed.

Lemma list_max_spec (l : list Z) :
  l <> [] -> list_max l ∈ l /\ forall y, y ∈ l -> (y <= list_max l)%Z.
Proof.
  induction l as [|r l IH]; [done|]. intros _.
  destruct l as [|r' l].
  - simpl. split; [by apply elem_of_cons; left|]. intros y Hy.
    apply list_elem_of_singleton in Hy. lia.
  - destruct IH as [Hin Hle]; [done|].
    change (list_max (r :: r' :: l)) with (Z.max r (list_max (r' :: l))).
    split.
    + destruct (Z.max_spec r (list_max (r' :: l))) as [[_ ->]|[_ ->]].
      * by apply elem_of_cons; right.
      * by apply elem_of_cons; left.
    + intros y Hy. apply elem_of_cons in Hy as [->|Hy]; [lia|]. specialize (Hle y Hy). lia.
Qed.

Definition zle (a b : Z) : Prop := Z.leb a b = true.

Lemma zle_trans : Transitive zle.
Proof. intros a b c. unfold zle. rewrite !Z.leb_le. lia. Qed.

Lemma sorted_head_le a l : Sorted zle (a :: l) -> forall y, y ∈ a :: l -> (a <= y)%Z.
Proof.
  intros Hs. apply (Sorted_StronglySorted zle_trans) in Hs.
  apply StronglySorted_inv in Hs as [_ Hf]. intros y Hy.
  apply elem_of_cons in Hy as [->|Hy]; [lia|].
  rewrite Forall_forall in Hf.
  specialize (Hf y Hy). unfold zle in Hf. lia.
Qed.

Lemma sorted_last_ge l b : Sorted zle l -> last l = Some b -> forall y, y ∈ l -> (y <= b)%Z.
Proof.
  intros Hs. apply (Sorted_StronglySorted zle_trans) in Hs.
  induction Hs as [|a l Hs IH Hf]; [done|]. intros Hl y Hy.
  destruct l as [|a' l].
  - simpl in Hl. injection Hl as ->. apply list_elem_of_singleton in Hy. lia.
  - rewrite last_cons_cons in Hl. apply elem_of_cons in Hy as [->|Hy]; [|by apply IH].
    assert (Hb : b ∈ a' :: l).
    { apply last_Some in Hl as [l' Hl']. rewrite Hl'. apply elem_of_app. right.
      by apply list_elem_of_singleton. }
    rewrite Forall_forall in Hf.
    specialize (Hf b Hb). unfold zle in Hf. lia.
Qed.

(** The highlight markers chosen by [format_rank_display] for a format. *)
Definition rank_markers (format_type : string) : string * string :=
  if String.eqb format_type "html" then ("<font color='red'><strong>", "</strong></font>")
  else if String.eqb format_type "feishu" then ("<font color='red'>**", "**</font>")
  else if String.eqb format_type "dingtalk" then ("**", "**")
  else if String.eqb format_type "wework" then ("**", "**")
  else if String.eqb format_type "telegram" then ("<b>", "</b>")
  else ("**", "**").

Lemma rank_display_nonempty ranks rank_threshold format_type :
  ranks <> [] ->
  let min_rank := Freq.list_min ranks in
  let max_rank := list_max ranks in
  let body := if (min_rank =? max_rank)%Z then "[" ++ pretty min_rank ++ "]"
              else "[" ++ pretty min_rank ++ " - " ++ pretty max_rank ++ "]" in
  format_rank_display ranks rank_threshold format_type =
  if (min_rank <=? rank_threshold)%Z
  then (rank_markers format_type).1 ++ body ++ (rank_markers format_type).2 else body.
Proof.
  intros Hne. destruct ranks as [|r0 rs]; [done|]. clear Hne.
  unfold format_rank_display. cbv beta iota zeta.
  set (ranks := r0 :: rs).
  assert (Hne : ranks <> []) by done.
  set (u := Freq.sort_by Z.leb (remove_dups ranks)).
  assert (Hu : forall y, y ∈ u <-> y ∈ ranks).
  { intros y. unfold u. rewrite FreqFacts.sort_by_elem. apply elem_of_remove_dups. }
  assert (Hs : Sorted zle u).
  { apply FreqFacts.sort_by_sorted. intros a b Hab. apply Z.leb_gt in Hab.
    apply Z.leb_le. lia. }
  destruct (list_min_spec ranks Hne) as [Hmin_in Hmin_le].
  destruct (list_max_spec ranks Hne) as [Hmax_in Hmax_le].
  assert (Hh : head u = Some (Freq.list_min ranks)).
  { destruct u as [|a l] eqn:Eu.
    - apply Hu in Hmin_in. by apply elem_of_nil in Hmin_in.
    - simpl. f_equal. apply Z.le_antisymm.
      + apply (sorted_head_le a l Hs). by apply Hu.
      + apply Hmin_le. apply Hu. by apply elem_of_cons; left. }
  assert (Hl : last u = Some (list_max ranks)).
  { destruct (last u) as [b|] eqn:Eb.
    - f_equal. apply Z.le_antisymm.
      + apply Hmax_le. apply Hu. apply last_Some in Eb as [l' ->].
        apply elem_of_app. right. by apply list_elem_of_singleton.
      + apply (sorted_last_ge u b Hs Eb). by apply Hu.
    - apply last_None in Eb. apply Hu in Hmin_in. rewrite Eb in Hmin_in.
      by apply elem_of_nil in Hmin_in. }
  rewrite Hh, Hl. cbn [default]. unfold id, rank_markers.
  destruct (String.eqb format_type "html");
    [|destruct (String.eqb format_type "feishu");
    [|destruct (String.eqb format_type "dingtalk");
    [|destruct (String.eqb format_type "wework");
    [|destruct (String.eqb format_type "telegram")]]]];
    destruct (Z.leb _ _), (Z.eqb _ _); cbn [fst snd];
    rewrite <- ?BatchFacts.str_app_assoc; reflexivity.
Qed.

(** Each format has a fixed pair of non-empty highlight markers:
    [format_rank_display] shows nothing for no rank; otherwise it shows the
    best (smallest) rank, and the worst (largest) one after a dash when
    they differ, wrapped in these markers exactly when the best rank is
    within the threshold. *)
Theorem format_rank_display_spec format_type :
  exists hs he, hs <> "" /\ he <> "" /\
  forall ranks rank_threshold,
  match ranks with
  | [] => format_rank_display ranks rank_threshold format_type = ""
  | _ =>
      let min_rank := Freq.list_min ranks in
      let max_rank := list_max ranks in
      let body := if (min_rank =? max_rank)%Z then "[" ++ pretty min_rank ++ "]"
                  else "[" ++ pretty min_rank ++ " - " ++ pretty max_rank ++ "]" in
      format_rank_display ranks rank_threshold format_type =
      if (min_rank <=? rank_threshold)%Z then hs ++ body ++ he else body
  end.
Proof.
  exists (rank_markers format_type).1, (rank_markers format_type).2.
  split_and!.
  - unfold rank_markers. by repeat case_match.
  - unfold rank_markers. by repeat case_match.
  - intros [|r0 rs] rank_threshold; [done|].
    by apply rank_display_nonempty.
Qed.

End RankDisplayFacts.

(* ================================================================== *)
(** ** [load_frequency_words] *)

Module ConfigFacts.
Import Freq Config.

(** The words of a list that go to the filters, to the required words and
    to the normal words. *)
Definition filt_words (ws : list string) : list string :=
  map drop_first (filter (fun w => String.prefix "!"%string w = true) ws).
Definition req_words (ws : list string) : list string :=
  map drop_first (filter (fun w => String.prefix "!"%string w = false /\
                                   String.prefix "+"%string w = true) ws).
Definition norm_words (ws : list string) : list string :=
  filter (fun w => String.prefix "!"%string w = false /\
                   String.prefix "+"%string w = false) ws.

(** The groups produced for one block. *)
Definition block_groups (b : string) : list WordGroup :=
  let ws := block_words b in
  match req_words ws, norm_words ws with
  | [], [] => []
  | r, n => [mkWordGroup r n (match n with
                               | [] => String.concat " " r
                               | _ => String.concat " " n
                               end)]
  end.

Lemma word_step_eq r n g f w :
  word_step (r, n, g, f) w =
  if String.prefix "!" w then (r, n, g ++ [drop_first w], f ++ [drop_first w])
  else if String.prefix "+" w then (r ++ [drop_first w], n, g, f)
  else (r, n ++ [w], g, f).
Proof. reflexivity. Qed.

Lemma word_fold ws r n g f :
  fold_left word_step ws (r, n, g, f) =
  (r ++ req_words ws, n ++ norm_words ws, g ++ filt_words ws, f ++ filt_words ws).
Proof.
  revert r n g f. unfold req_words, norm_words, filt_words.
  induction ws as [|w ws IH]; intros r n g f.
  - simpl. by rewrite !app_nil_r.
  - cbn [fold_left]. rewrite word_step_eq, !filter_cons.
    destruct (String.prefix "!" w) eqn:E1; [|destruct (String.prefix "+" w) eqn:E2];
      rewrite IH; repeat case_decide; try (intuition congruence); simpl;
      by rewrite <- !app_assoc.
Qed.

Lemma group_step_spec gs fws b :
  group_step (gs, fws) b = (gs ++ block_groups b, fws ++ filt_words (block_words b)).
Proof.
  unfold group_step, block_groups. rewrite word_fold. simpl.
  destruct (req_words (block_words b)), (norm_words (block_words b)); simpl;
    rewrite ?app_nil_r; done.
Qed.

Lemma load_spec content :
  load_frequency_words content =
  (List.concat (map block_groups (blocks content)),
   List.concat (map (fun b => filt_words (block_words b)) (blocks content))).
Proof.
  unfold load_frequency_words.
  assert (H : forall bs gs fws,
    fold_left group_step bs (gs, fws) =
    (gs ++ List.concat (map block_groups bs),
     fws ++ List.concat (map (fun b => filt_words (block_words b)) bs))).
  { induction bs as [|b bs IH]; intros gs fws.
    - simpl. by rewrite !app_nil_r.
    - cbn [fold_left map List.concat]. rewrite group_step_spec, IH.
      by rewrite <- !app_assoc. }
  by rewrite H.
Qed.


Lemma req_words_concat L :
  req_words (List.concat L) = List.concat (map req_words L).
Proof.
  induction L as [|l L IH]; [done|]. simpl.
  unfold req_words in *. by rewrite filter_app, map_app, IH.
Qed.

Lemma norm_words_concat L :
  norm_words (List.concat L) = List.concat (map norm_words L).
Proof.
  induction L as [|l L IH]; [done|]. simpl.
  unfold norm_words in *. by rewrite filter_app, IH.
Qed.

Lemma block_groups_required b :
  List.concat (map required (block_groups b)) = req_words (block_words b).
Proof.
  unfold block_groups.
  destruct (req_words (block_words b)), (norm_words (block_words b)); simpl;
    rewrite ?app_nil_r; done.
Qed.

Lemma block_groups_normal b :
  List.concat (map normal (block_groups b)) = norm_words (block_words b).
Proof.
  unfold block_groups.
  destruct (req_words (block_words b)), (norm_words (block_words b)); simpl;
    rewrite ?app_nil_r; done.
Qed.

Lemma concat_map_concat {A B} (f : A -> list B) (L : list (list A)) :
  List.concat (map f (List.concat L)) = List.concat (map (fun l => List.concat (map f l)) L).
Proof.
  induction L as [|l L IH]; [done|]. simpl. by rewrite map_app, concat_app, IH.
Qed.

Lemma block_words_nonempty b : Forall (fun w => w <> ""%string) (block_words b).
Proof. unfold block_words. apply Forall_forall. intros w Hw. by apply list_elem_of_filter in Hw as [? _]. Qed.

Lemma block_groups_shape b g :
  g ∈ block_groups b ->
  (required g <> [] \/ normal g <> []) /\
  group_key g = String.concat " " (match normal g with [] => required g | _ => normal g end) /\
  normal g = norm_words (block_words b).
Proof.
  unfold block_groups.
  destruct (req_words (block_words b)) as [|r rs] eqn:Er,
           (norm_words (block_words b)) as [|n ns] eqn:En;
    intros Hg; [by apply elem_of_nil in Hg| | |];
    apply list_elem_of_singleton in Hg as ->; simpl;
    (split; [first [left; discriminate | right; discriminate]|]); done.
Qed.

Lemma groups_words_empty ws :
  req_words ws = [] /\ norm_words ws = [] <->
  Forall (fun w => String.prefix "!"%string w = true) ws.
Proof.
  unfold req_words, norm_words. induction ws as [|w ws IH]; simpl.
  - split; [constructor|done].
  - rewrite !filter_cons, Forall_cons.
    destruct (String.prefix "!" w) eqn:E1; [|destruct (String.prefix "+" w) eqn:E2];
      repeat case_decide; try (intuition congruence); simpl; rewrite <- IH; intuition congruence.
Qed.

Lemma block_groups_nil b :
  block_groups b = [] <-> req_words (block_words b) = [] /\ norm_words (block_words b) = [].
Proof.
  unfold block_groups.
  destruct (req_words (block_words b)), (norm_words (block_words b)); simpl;
    intuition congruence.
Qed.


(** Every group returned by [load_frequency_words] has a required or a
    normal word; its [group_key] is its normal words joined by spaces, or
    its required words when it has no normal word; and its normal words
    are non-empty and start with neither "!" nor "+". *)
Theorem load_frequency_words_groups content :
  Forall (fun g =>
    (required g <> [] \/ normal g <> []) /\
    group_key g = String.concat " " (match normal g with [] => required g | _ => normal g end) /\
    Forall (fun w => w <> ""%string /\ String.prefix "!"%string w = false /\
                     String.prefix "+"%string w = false) (normal g))
    (load_frequency_words content).1.
Proof.
  rewrite load_spec. simpl. apply Forall_forall. intros g Hg.
  apply list_elem_of_In, in_concat in Hg as (l & Hl & Hg).
  apply in_map_iff in Hl as (b & <- & _). apply list_elem_of_In in Hg.
  destruct (block_groups_shape b g Hg) as (Hne & Hk & Hn).
  split_and!; [done|done|]. rewrite Hn.
  pose proof (block_words_nonempty b) as Hw. unfold norm_words.
  apply Forall_forall. intros w Hw'. apply list_elem_of_filter in Hw' as [Hp Hin].
  rewrite Forall_forall in Hw. split; [by apply Hw|done].
Qed.

(** A keyword file all of whose words start with "!" (and only such a file)
    yields no group; [matches_word_groups] then accepts every title, also
    one that contains a filter word: the filter words are ignored. *)
Theorem load_frequency_words_only_filters content :
  let '(gs, fws) := load_frequency_words content in
  (gs = [] <-> Forall (fun w => String.prefix "!"%string w = true) (config_words content)) /\
  (gs = [] -> forall lower title, matches_word_groups lower title gs fws = true).
Proof.
  rewrite load_spec. unfold config_words. split; [|by intros ->].
  induction (blocks content) as [|b bs IH]; simpl; [split; [constructor|done]|].
  rewrite Forall_app, <- IH, <- groups_words_empty, <- block_groups_nil.
  split; [intros Hn; apply app_eq_nil in Hn as [-> ->]; done|].
  intros [-> ->]. done.
Qed.

End ConfigFacts.

(* ================================================================== *)
(** ** [prepare_report_data] *)

Module ReportFacts.
Import Ledger Freq Report.

Definition nonempty {A} (l : list A) : bool := match l with [] => false | _ => true end.

Lemma fold_omap {A B} (f : list B -> A -> list B) (g : A -> option B) :
  (forall acc x, f acc x = acc ++ from_option (fun y => [y]) [] (g x)) ->
  forall l acc, fold_left f l acc = acc ++ omap g l.
Proof.
  intros Hf l. induction l as [|x l IH]; intros acc; simpl; [by rewrite app_nil_r|].
  rewrite IH, Hf. destruct (g x); simpl; by rewrite <- app_assoc.
Qed.

Section Prepare.
Variable lower : string -> string.
Variable rank_threshold : Z.
Variable word_groups : list WordGroup.
Variable filter_words : list string.

(** The titles of a source that match the keyword groups. *)
Definition matching (td : list (string * Obs)) : list (string * Obs) :=
  filter (fun p => matches_word_groups lower p.1 word_groups filter_words = true) td.

(** The new-titles section: every source with a matching title, in order,
    named after [id_to_name] (its id when it has no name), with the
    entries of its matching titles. *)
Definition new_sources (id_to_name : list (string * string))
    (new_titles : list (string * TitleData)) : list ReportSource :=
  map (fun p => let name := default p.1 (assoc id_to_name p.1) in
         mkReportSource p.1 name (map (new_title_entry rank_threshold name) p.2))
    (filter (fun p => nonempty p.2 = true)
       (map (fun p => (p.1, matching p.2)) new_titles)).

Lemma prepare_new_titles_eq stats failed_ids new_titles id_to_name mode :
  let R := prepare_report_data lower rank_threshold word_groups filter_words
             stats failed_ids new_titles id_to_name mode in
  r_new_titles R =
    (if negb (String.eqb mode "incremental") && nonempty id_to_name
     then new_sources id_to_name new_titles else []).
Proof.
  unfold prepare_report_data. cbn zeta. cbn [r_new_titles].
  destruct (String.eqb mode "incremental"); [done|]. cbn [negb andb].
  destruct id_to_name as [|i is]; [by destruct new_titles|]. cbn [nonempty].
  set (g1 := fun p : string * TitleData =>
               match matching p.2 with [] => None | ft => Some (p.1, ft) end).
  set (g2 := fun p : string * TitleData =>
               let name := default p.1 (assoc (i :: is) p.1) in
               match map (new_title_entry rank_threshold name) p.2 with
               | [] => None
               | st => Some (mkReportSource p.1 name st)
               end).
  rewrite (fold_omap _ g1); [|intros acc [sid td]; unfold g1, matching; cbn;
                                case_match; cbn; by rewrite ?app_nil_r].
  rewrite (fold_omap _ g2); [|intros acc [sid td]; unfold g2; cbn;
                                destruct td; cbn; by rewrite ?app_nil_r].
  assert (E1 : match new_titles with [] => [] | _ :: _ => [] ++ omap g1 new_titles end
               = omap g1 new_titles) by (by destruct new_titles).
  rewrite E1. clear E1.
  assert (E2 : omap g2 (omap g1 new_titles) = new_sources (i :: is) new_titles).
  { unfold new_sources. induction new_titles as [|[sid td] l IH]; [done|].
    cbn [map fst snd]. rewrite filter_cons. cbn [fst snd].
    change (omap g1 ((sid, td) :: l)) with
      (match g1 (sid, td) with Some y => y :: omap g1 l | None => omap g1 l end).
    unfold g1 at 1. cbn [fst snd].
    destruct (matching td) as [|p ps]; cbn [nonempty]; case_decide as Hd;
      try discriminate; try (exfalso; apply Hd; reflexivity); [exact IH|].
    change (omap g2 ((sid, p :: ps) :: omap g1 l)) with
      (match g2 (sid, p :: ps) with
       | Some y => y :: omap g2 (omap g1 l)
       | None => omap g2 (omap g1 l)
       end).
    unfold g2 at 1. cbn [fst snd map]. by rewrite IH. }
  rewrite <- E2. by destruct (omap g1 new_titles).
Qed.

Lemma matching_app l1 l2 : matching (l1 ++ l2) = matching l1 ++ matching l2.
Proof. apply filter_app. Qed.

Lemma new_sources_count id_to_name new_titles :
  sum_list_with (fun source => length (rn_titles source)) (new_sources id_to_name new_titles) =
  length (matching (List.concat (map snd new_titles))).
Proof.
  unfold new_sources. induction new_titles as [|[sid td] l IH]; [done|].
  cbn [map List.concat fst snd]. rewrite filter_cons. cbn [fst snd].
  rewrite matching_app, length_app, <- IH.
  destruct (matching td) as [|p ps] eqn:Em; cbn [nonempty];
    case_decide as Hd; try discriminate; try (exfalso; apply Hd; reflexivity);
    [done|]. cbn [map sum_list_with rn_titles fst snd length]. rewrite length_map. lia.
Qed.

(** The new-titles section of [prepare_report_data] is shown only outside
    the incremental mode and only when [id_to_name] is not empty: it then
    lists, in order, every source with a new title that matches the keyword
    groups, with exactly those titles, each marked new with a count of 1,
    no time, the configured rank threshold and its own ranks and links; a
    source is named after [id_to_name], or by its id when it has no name.
    [total_new_count] is the number of matching new titles shown. *)
Theorem prepare_report_new_titles stats failed_ids new_titles id_to_name mode :
  let R := prepare_report_data lower rank_threshold word_groups filter_words
             stats failed_ids new_titles id_to_name mode in
  let shown := negb (String.eqb mode "incremental") && nonempty id_to_name in
  r_new_titles R = (if shown then new_sources id_to_name new_titles else []) /\
  r_total_new_count R =
    (if shown then Z.of_nat (length (matching (List.concat (map snd new_titles)))) else 0%Z).
Proof.
  pose proof (prepare_new_titles_eq stats failed_ids new_titles id_to_name mode) as H.
  cbv zeta in *. split; [exact H|].
  change (r_total_new_count _) with
    (Z.of_nat (sum_list_with (fun source => length (rn_titles source))
       (r_new_titles (prepare_report_data lower rank_threshold word_groups filter_words
                        stats failed_ids new_titles id_to_name mode)))).
  rewrite H. destruct (_ && _); [by rewrite new_sources_count|done].
Qed.

End Prepare.
End ReportFacts.

(* ================================================================== *)
(** ** [format_title_for_platform] on the html platform *)

Module FormatFacts.
Import Report.
Local Open Scope string_scope.

(** The number of occurrences of the character [c] in [s]. *)
Fixpoint count_char (c : Ascii.ascii) (s : string) : nat :=
  match s with
  | EmptyString => 0
  | String a r => (if Ascii.eqb a c then 1 else 0) + count_char c r
  end.

(** The markup characters of html: [<], [>], the double quote and the
    single quote. *)
Definition markup_chars : list Ascii.ascii :=
  map Ascii.ascii_of_nat [60; 62; 34; 39]%nat.

(** The title data with its texts replaced by placeholders: no title, no
    source name, a time display and a link exactly when the title has them. *)
Definition html_placeholder (td : ReportTitle) : ReportTitle :=
  mkReportTitle "" ""
    (if String.eqb (r_time_display td) "" then "" else "t")
    (r_count td) (r_ranks td) (r_rank_threshold td)
    (if String.eqb (py_or (r_mobile_url td) (r_url td)) "" then "" else "u")
    "" (r_is_new td).

Lemma count_app c a b : count_char c (a ++ b) = (count_char c a + count_char c b)%nat.
Proof. induction a as [|x a IH]; simpl; [done|]. rewrite IH. lia. Qed.

Lemma count_forallb p c s :
  HtmlFacts.str_forallb p s = true -> p c = false -> count_char c s = 0%nat.
Proof.
  induction s as [|x s IH]; [done|]. simpl. intros [Hx Hs]%andb_prop Hc.
  rewrite IH by done. destruct (Ascii.eqb_spec x c) as [->|]; [congruence|done].
Qed.

Lemma count_escape c s : c ∈ markup_chars -> count_char c (Text.html_escape s) = 0%nat.
Proof.
  intros Hc. rewrite HtmlFacts.html_escape_each.
  eapply count_forallb; [apply HtmlFacts.escape_each_safe|].
  apply negb_false_iff. apply bool_decide_eq_true.
  unfold markup_chars in Hc. simpl in Hc.
  repeat (apply elem_of_cons in Hc as [->|Hc]; [tauto|]). by apply elem_of_nil in Hc.
Qed.

Lemma format_html td show :
  format_title_for_platform "html" td show =
  (let rank_display :=
     Text.format_rank_display (r_ranks td) (r_rank_threshold td) "html" in
   let link_url := py_or (r_mobile_url td) (r_url td) in
   let escaped_title := Text.html_escape (Text.clean_title (r_title td)) in
   let escaped_source_name := Text.html_escape (r_source_name td) in
   let formatted_title :=
     if String.eqb link_url "" then
       "[" ++ escaped_source_name ++ "] <span class=" ++ Text.dq ++ "no-link" ++ Text.dq
         ++ ">" ++ escaped_title ++ "</span>"
     else
       "[" ++ escaped_source_name ++ "] <a href=" ++ Text.dq ++ Text.html_escape link_url
         ++ Text.dq ++ " target=" ++ Text.dq ++ "_blank" ++ Text.dq ++ " class=" ++ Text.dq
         ++ "news-link" ++ Text.dq ++ ">" ++ escaped_title ++ "</a>" in
   let formatted_title :=
     if String.eqb rank_display "" then formatted_title
     else formatted_title ++ " " ++ rank_display in
   let formatted_title :=
     if String.eqb (r_time_display td) "" then formatted_title
     else formatted_title ++ " <font color='grey'>- " ++ Text.html_escape (r_time_display td)
            ++ "</font>" in
   let formatted_title :=
     if (1 <? r_count td)%Z
     then formatted_title ++ " <font color='green'>(" ++ pretty (r_count td) ++ " times)</font>"
     else formatted_title in
   if r_is_new td then "<div class='new-title'>🆕 " ++ formatted_title ++ "</div>"
   else formatted_title).
Proof. reflexivity. Qed.

(** On the html platform, the title, the source name, the link and the time
    display cannot add markup to the line of a title: they are escaped, so
    the line has as many [<], [>], double and single quotes as the line of
    the same title data with these texts replaced by placeholders. *)
Theorem html_title_markup_fixed td show :
  Forall (fun c => count_char c (format_title_for_platform "html" td show) =
                   count_char c (format_title_for_platform "html" (html_placeholder td) show))
    markup_chars.
Proof.
  apply Forall_forall. intros c Hc0. rewrite !format_html. cbn zeta.
  unfold html_placeholder.
  cbn [r_title r_source_name r_time_display r_count r_ranks r_rank_threshold r_url
       r_mobile_url r_is_new].
  assert (HL : forall x, String.eqb (py_or "" (if String.eqb x "" then "" else "u")) ""
                         = String.eqb x "") by (intros x; by destruct (String.eqb x "")).
  assert (HT : forall x, String.eqb (if String.eqb x "" then "" else "t") ""
                         = String.eqb x "") by (intros x; by destruct (String.eqb x "")).
  rewrite HL, HT.
  destruct (String.eqb (py_or (r_mobile_url td) (r_url td)) ""),
           (String.eqb (Text.format_rank_display (r_ranks td) (r_rank_threshold td) "html") ""),
           (String.eqb (r_time_display td) ""), (1 <? r_count td)%Z, (r_is_new td);
    rewrite !count_app, ?(count_escape c) by exact Hc0;
    unfold markup_chars in Hc0; cbn in Hc0;
    repeat (apply elem_of_cons in Hc0 as [->|Hc0]; [cbn [count_char Ascii.eqb Ascii.ascii_of_nat]; lia|]);
    by apply elem_of_nil in Hc0.
Qed.

End FormatFacts.

(* ================================================================== *)
(** ** [split_content_into_batches]: no line of the report is lost *)

Module CoverageFacts.
Import Freq Batch BatchFacts.
Local Open Scope string_scope.

(** The title lines of one keyword group, as the splitter writes them. *)
Definition stat_lines ftp (format_type : string) (stat : Stat) : list string :=
  first_news_line ftp format_type stat ::
  imap (fun k t => news_line ftp format_type stat (S k) t) (drop 1 (titles stat)).

(** The title lines of one source of the new-titles section. *)
Definition source_lines ftp (format_type : string) (src : NewSource) : list string :=
  source_first_line ftp format_type src ::
  imap (fun k t => source_news_line ftp format_type (S k) t) (drop 1 (src_titles src)).

(** Every title line and every failed-id line of a report. *)
Definition report_lines ftp (format_type : string) (report_data : ReportData) : list string :=
  (List.concat (map (stat_lines ftp format_type) (stats report_data)) ++
   List.concat (map (source_lines ftp format_type) (new_titles report_data)) ++
   map (failed_line format_type) (failed_ids report_data))%list.

Lemma infix_trans a b c : str_infix a b -> str_infix b c -> str_infix a c.
Proof.
  intros (x1 & y1 & ->) (x2 & y2 & ->).
  exists (x2 ++ x1), (y1 ++ y2). by rewrite <- !str_app_assoc.
Qed.

Lemma infix_suffix a b : str_infix b (a ++ b).
Proof. exists a, "". by rewrite str_app_nil_r. Qed.

Lemma infix_prefix a b : str_infix a (a ++ b).
Proof. by exists "", b. Qed.

Lemma block_rest_placed bf mx u piece reset rest x st :
  (u, x ++ u) ∈ rest -> unit_placed u (exec_step bf mx st (SBlock (piece, reset) rest)).
Proof.
  intros Hin. apply list_elem_of_split in Hin as (r1 & r2 & ->). cbn [exec_step].
  rewrite fold_left_app. cbn [fold_left].
  match goal with |- context [fold_left _ r2 (add_piece bf mx ?s0 u (x ++ u))] =>
    destruct (fold_add_placed bf mx u r2 _ (add_unit_placed bf mx u s0 x))
      as [(b & Hb & Hu)|[Hh Hu]]; [left; by exists b|right; simpl] end.
  split; [done|]. by apply infix_app_r.
Qed.

Lemma block_first_placed bf mx u rest x st :
  unit_placed u (exec_step bf mx st (SBlock (u, x ++ u) rest)).
Proof.
  cbn [exec_step].
  destruct (fold_add_placed bf mx u rest _ (add_unit_placed bf mx u st x))
    as [(b & Hb & Hu)|[Hh Hu]]; [left; by exists b|right; simpl].
  split; [done|]. by apply infix_app_r.
Qed.

Lemma split_run ftp sep d f m now_str report_data format_type update_info max_bytes mode s :
  s ∈ all_steps ftp sep now_str format_type report_data ->
  split_content_into_batches ftp sep d f m now_str report_data format_type update_info
    max_bytes mode =
  run_steps (base_footer now_str format_type update_info)
    (effective_max_bytes d f m format_type max_bytes)
    (base_header now_str format_type (total_titles (stats report_data)))
    (all_steps ftp sep now_str format_type report_data).
Proof.
  unfold split_content_into_batches.
  destruct (stats report_data) eqn:Es, (new_titles report_data) eqn:En,
    (failed_ids report_data) eqn:Ef; try reflexivity.
  unfold all_steps, stats_steps, new_steps, failed_steps. rewrite Es, En, Ef.
  intros Hs. by apply elem_of_nil in Hs.
Qed.

Lemma placed_in_split ftp sep d f m now_str report_data format_type update_info max_bytes
    mode u s :
  s ∈ all_steps ftp sep now_str format_type report_data ->
  (forall bf mx st, unit_placed u (exec_step bf mx st s)) ->
  exists b, b ∈ split_content_into_batches ftp sep d f m now_str report_data format_type
              update_info max_bytes mode /\ str_infix u b.
Proof.
  intros Hs Hp. rewrite (split_run _ _ _ _ _ _ _ _ _ _ _ _ Hs).
  eapply run_steps_placed; eauto.
Qed.

Lemma stat_line_step ftp sep now_str format_type report_data i stat k t :
  stats report_data !! i = Some stat -> drop 1 (titles stat) !! k = Some t ->
  let line := news_line ftp format_type stat (S k) t in
  exists x, SAdd line (x ++ line) ∈ all_steps ftp sep now_str format_type report_data.
Proof.
  intros Hi Hk. cbv zeta. unfold all_steps, stats_steps.
  destruct (stats report_data) as [|s0 ss] eqn:Es; [by rewrite lookup_nil in Hi|].
  rewrite <- Es in *.
  exists (base_header now_str format_type (total_titles (stats report_data)) ++
          stats_header format_type (stats report_data) ++
          word_header format_type
            ("[" ++ pretty (S i) ++ "/" ++ pretty (length (stats report_data)) ++ "]")
            (word stat) (stat_count stat)).
  rewrite <- !str_app_assoc.
  apply elem_of_app. left. apply list_elem_of_further.
  apply list_elem_of_In, in_concat. eexists. split.
  - apply list_elem_of_In. rewrite Es. apply (list_elem_of_lookup_2 _ i).
    rewrite list_lookup_imap. rewrite <- Es, Hi. reflexivity.
  - apply list_elem_of_In. unfold group_steps. apply list_elem_of_further.
    apply elem_of_app. left.
    apply (elem_of_lookup_imap_2 (fun k t =>
      let line := news_line ftp format_type stat (S k) t in
      SAdd line (base_header now_str format_type (total_titles (stats report_data)) ++
                 stats_header format_type (stats report_data) ++
                 word_header format_type
                   ("[" ++ pretty (S i) ++ "/" ++ pretty (length (stats report_data)) ++ "]")
                   (word stat) (stat_count stat) ++ line)) _ _ _ Hk).
Qed.

Lemma source_step_elem ftp sep now_str format_type report_data src :
  src ∈ new_titles report_data ->
  exists bh nh,
    source_step ftp format_type bh nh src ∈ all_steps ftp sep now_str format_type report_data.
Proof.
  intros Hsrc. unfold all_steps, new_steps.
  destruct (new_titles report_data) as [|s0 ss] eqn:En; [by apply elem_of_nil in Hsrc|].
  rewrite <- En in *. do 2 eexists.
  apply elem_of_app. right. apply elem_of_app. left. apply list_elem_of_further.
  rewrite En. apply list_elem_of_fmap. exists src. rewrite <- En. split; [reflexivity|done].
Qed.

Lemma failed_line_step ftp sep now_str format_type report_data id :
  id ∈ failed_ids report_data ->
  exists x, SAdd (failed_line format_type id) (x ++ failed_line format_type id)
              ∈ all_steps ftp sep now_str format_type report_data.
Proof.
  intros Hid. unfold all_steps, failed_steps.
  destruct (failed_ids report_data) as [|s0 ss] eqn:Ef; [by apply elem_of_nil in Hid|].
  rewrite <- Ef in *.
  exists (base_header now_str format_type (total_titles (stats report_data)) ++
          failed_header sep format_type).
  rewrite <- str_app_assoc.
  apply elem_of_app. right. apply elem_of_app. right. apply list_elem_of_further.
  rewrite Ef. apply list_elem_of_fmap. eexists. rewrite <- Ef. split; [reflexivity|done].
Qed.

(** No title line is lost by the splitter: every title line of every keyword
    group, every title line of every new-titles source and every failed-id
    line occurs whole inside one of the returned batches, whatever the byte
    limit. *)
Theorem report_lines_in_batches ftp sep d f m now_str report_data format_type
    update_info max_bytes mode :
  Forall (fun line =>
    exists b, b ∈ split_content_into_batches ftp sep d f m now_str report_data format_type
                update_info max_bytes mode /\ str_infix line b)
    (report_lines ftp format_type report_data).
Proof.
  apply Forall_forall. intros line Hl. unfold report_lines in Hl.
  apply elem_of_app in Hl as [Hl|Hl]; [|apply elem_of_app in Hl as [Hl|Hl]].
  - apply list_elem_of_In, in_concat in Hl as (ls & Hls & Hl).
    apply in_map_iff in Hls as (stat & <- & Hstat).
    apply list_elem_of_In in Hstat, Hl. apply list_elem_of_lookup_1 in Hstat as [i Hi].
    unfold stat_lines in Hl. apply elem_of_cons in Hl as [->|Hl].
    + destruct (group_step_in ftp sep now_str format_type report_data i stat Hi) as [x Hx].
      destruct (placed_in_split ftp sep d f m now_str report_data format_type update_info
                  max_bytes mode _ _ Hx (fun bf mx st => add_unit_placed bf mx _ st x))
        as (b & Hb & Hu).
      exists b. split; [done|]. eapply infix_trans; [|exact Hu].
      unfold group_unit. apply infix_suffix.
    + apply elem_of_lookup_imap_1 in Hl as (k & t & -> & Hk).
      destruct (stat_line_step ftp sep now_str format_type report_data i stat k t Hi Hk)
        as [x Hx].
      eapply placed_in_split; [exact Hx|]. intros bf mx st. apply add_unit_placed.
  - apply list_elem_of_In, in_concat in Hl as (ls & Hls & Hl).
    apply in_map_iff in Hls as (src & <- & Hsrc).
    apply list_elem_of_In in Hsrc, Hl.
    destruct (source_step_elem ftp sep now_str format_type report_data src Hsrc)
      as (bh & nh & Hs).
    unfold source_lines in Hl. apply elem_of_cons in Hl as [->|Hl].
    + destruct (placed_in_split ftp sep d f m now_str report_data format_type update_info
                  max_bytes mode (source_unit ftp format_type src) _ Hs)
        as (b & Hb & Hu).
      { intros bf mx st. unfold source_step. cbv zeta. rewrite str_app_assoc.
        apply block_first_placed. }
      exists b. split; [done|]. eapply infix_trans; [|exact Hu].
      unfold source_unit. apply infix_suffix.
    + apply elem_of_lookup_imap_1 in Hl as (k & t & -> & Hk).
      eapply placed_in_split; [exact Hs|]. intros bf mx st. unfold source_step.
      apply (block_rest_placed _ _ _ _ _ _ (bh ++ nh ++ source_header format_type src)).
      rewrite <- !str_app_assoc.
      apply (elem_of_lookup_imap_2 (fun k t =>
        let line := source_news_line ftp format_type (S k) t in
        (line, bh ++ nh ++ source_header format_type src ++ line)) _ _ _ Hk).
  - apply list_elem_of_fmap in Hl as (id & -> & Hid).
    destruct (failed_line_step ftp sep now_str format_type report_data id Hid) as [x Hx].
    eapply placed_in_split; [exact Hx|]. intros bf mx st. apply add_unit_placed.
Qed.

End CoverageFacts.

(* ================================================================== *)
(** ** [count_word_frequency]: the titles processed in [current] mode *)

Module ModeFacts.
Import Ledger Mode.
Local Open Scope string_scope.

(** [L] is the greatest non-empty [last_time] of [title_info]. *)
Definition is_latest (title_info : gmap string (gmap string Info)) (L : string) : Prop :=
  L <> "" /\
  (exists sid infos t i, title_info !! sid = Some infos /\ infos !! t = Some i /\
                         last_time i = L) /\
  (forall sid infos t i, title_info !! sid = Some infos -> infos !! t = Some i ->
                         last_time i = "" \/ String.leb (last_time i) L = true).

(** All the [title_data] of [title_info], in the loop's order. *)
Definition all_infos (title_info : gmap string (gmap string Info)) : list Info :=
  List.concat (map (fun '(_, infos) => map snd (map_to_list infos)) (map_to_list title_info)).

Lemma ascii_compare_N a b :
  Ascii.compare a b = N.compare (Ascii.N_of_ascii a) (Ascii.N_of_ascii b).
Proof. reflexivity. Qed.

Lemma ascii_compare_eq a b : Ascii.compare a b = Eq -> a = b.
Proof. apply Ascii.compare_eq_iff. Qed.

Lemma str_leb_refl s : String.leb s s = true.
Proof.
  unfold String.leb. induction s as [|c s IH]; [done|]. simpl.
  rewrite ascii_compare_N, N.compare_refl. destruct (String.compare s s); done.
Qed.

Lemma str_compare_trans a b c :
  String.compare a b <> Gt -> String.compare b c <> Gt -> String.compare a c <> Gt.
Proof.
  revert b c. induction a as [|x a IH]; intros [|y b] [|z c]; simpl; try done.
  rewrite !ascii_compare_N.
  destruct (N.compare_spec (Ascii.N_of_ascii x) (Ascii.N_of_ascii y)) as [Hxy|Hxy|Hxy];
  destruct (N.compare_spec (Ascii.N_of_ascii y) (Ascii.N_of_ascii z)) as [Hyz|Hyz|Hyz];
  try done.
  - rewrite Hxy, Hyz, N.compare_refl. apply IH.
  - rewrite Hxy. intros _ _. rewrite (proj2 (N.compare_lt_iff _ _) Hyz). done.
  - rewrite <- Hyz. intros _ _. rewrite (proj2 (N.compare_lt_iff _ _) Hxy). done.
  - intros _ _. rewrite (proj2 (N.compare_lt_iff _ _)); [done|lia].
Qed.

Lemma str_leb_trans a b c :
  String.leb a b = true -> String.leb b c = true -> String.leb a c = true.
Proof.
  unfold String.leb. intros H1 H2.
  pose proof (str_compare_trans a b c) as H.
  destruct (String.compare a b), (String.compare b c), (String.compare a c); try done;
    exfalso; apply H; done.
Qed.

Lemma str_ltb_leb a b : String.ltb a b = true -> String.leb a b = true.
Proof. unfold String.ltb, String.leb. by destruct (String.compare a b). Qed.

Lemma str_not_ltb_leb a b : String.ltb a b = false -> String.leb b a = true.
Proof.
  unfold String.ltb, String.leb. rewrite String.compare_antisym.
  by destruct (String.compare b a).
Qed.

Lemma latest_fold l acc :
  (forall a, acc = Some a -> a <> "") ->
  match fold_left latest_step l acc with
  | None => acc = None /\ Forall (fun i => last_time i = "") l
  | Some L =>
      L <> "" /\ (acc = Some L \/ exists i, i ∈ l /\ last_time i = L) /\
      (forall a, acc = Some a -> String.leb a L = true) /\
      Forall (fun i => last_time i = "" \/ String.leb (last_time i) L = true) l
  end.
Proof.
  revert acc. induction l as [|i l IH]; intros acc Hacc; simpl.
  - destruct acc as [a|]; [|done]. split; [by apply Hacc|].
    split; [by left|]. split; [|done]. intros a' [= ->]. apply str_leb_refl.
  - assert (Hacc' : forall a, latest_step acc i = Some a -> a <> "").
    { unfold latest_step. intros a.
      destruct (String.eqb_spec (last_time i) "") as [E|E]; [by apply Hacc|].
      destruct acc as [l0|]; [|by intros [= <-]].
      destruct (String.ltb l0 (last_time i)); [by intros [= <-]|by apply Hacc]. }
    specialize (IH _ Hacc').
    destruct (fold_left latest_step l (latest_step acc i)) as [L|] eqn:E.
    + destruct IH as (HL & Hsrc & Hge & Hall). split; [done|].
      unfold latest_step in Hsrc, Hge.
      destruct (String.eqb_spec (last_time i) "") as [Ei|Ei].
      * split; [destruct Hsrc as [Hs|(j & Hj & Hjl)]; [by left|right; exists j; split; [by apply elem_of_cons; right|done]]|].
        split; [done|]. constructor; [by left|done].
      * destruct acc as [l0|].
        -- destruct (String.ltb l0 (last_time i)) eqn:Elt.
           ++ split.
              { right. destruct Hsrc as [[= <-]|(j & Hj & Hjl)];
                [exists i; split; [apply elem_of_cons; by left|done]|
                 exists j; split; [by apply elem_of_cons; right|done]]. }
              split.
              { intros a [= <-]. eapply str_leb_trans; [by apply str_ltb_leb|]. by apply Hge. }
              constructor; [right; by apply Hge|done].
           ++ split.
              { destruct Hsrc as [Hs|(j & Hj & Hjl)]; [by left|right; exists j; split; [by apply elem_of_cons; right|done]]. }
              split; [done|].
              constructor; [|done]. right. eapply str_leb_trans; [by apply str_not_ltb_leb|]. by apply Hge.
        -- split.
           { right. destruct Hsrc as [[= <-]|(j & Hj & Hjl)];
             [exists i; split; [apply elem_of_cons; by left|done]|
              exists j; split; [by apply elem_of_cons; right|done]]. }
           split; [done|]. constructor; [right; by apply Hge|done].
    + destruct IH as [Hn Hall]. unfold latest_step in Hn.
      destruct (String.eqb_spec (last_time i) "") as [Ei|Ei].
      * split; [done|]. by constructor.
      * destruct acc as [l0|]; [destruct (String.ltb l0 (last_time i)); discriminate|discriminate].
Qed.

Lemma find_latest_time_all ti : find_latest_time ti = fold_left latest_step (all_infos ti) None.
Proof.
  unfold find_latest_time, all_infos. generalize (@None string).
  induction (map_to_list ti) as [|[sid infos] l IH]; intros acc; [done|].
  cbn [fold_left map List.concat]. rewrite fold_left_app, <- IH. f_equal.
  generalize acc. induction (map_to_list infos) as [|[t i] l' IH']; intros acc'; [done|].
  simpl. apply IH'.
Qed.

Lemma all_infos_elem ti i :
  i ∈ all_infos ti <-> exists sid infos t, ti !! sid = Some infos /\ infos !! t = Some i.
Proof.
  unfold all_infos. rewrite list_elem_of_In, in_concat. split.
  - intros (l & Hl & Hi). apply in_map_iff in Hl as ([sid infos] & <- & Hs).
    apply list_elem_of_In, elem_of_map_to_list in Hs.
    apply list_elem_of_In, list_elem_of_fmap in Hi as ([t i'] & -> & Ht).
    apply elem_of_map_to_list in Ht. by exists sid, infos, t.
  - intros (sid & infos & t & Hs & Ht). eexists. split.
    + apply in_map_iff. exists (sid, infos). split; [done|].
      apply list_elem_of_In, elem_of_map_to_list, Hs.
    + apply list_elem_of_In, list_elem_of_fmap. exists (t, i). split; [done|].
      by apply elem_of_map_to_list.
Qed.

Lemma find_latest_time_spec ti :
  match find_latest_time ti with
  | None => forall sid infos t i, ti !! sid = Some infos -> infos !! t = Some i ->
                                  last_time i = ""
  | Some L => is_latest ti L
  end.
Proof.
  rewrite find_latest_time_all.
  pose proof (latest_fold (all_infos ti) None ltac:(done)) as H.
  destruct (fold_left latest_step (all_infos ti) None) as [L|].
  - destruct H as (HL & [Hs|(i & Hi & Hil)] & _ & Hall); [done|].
    split; [done|]. split.
    + apply all_infos_elem in Hi as (sid & infos & t & Hs & Ht). by exists sid, infos, t, i.
    + intros sid infos t i' Hs Ht. rewrite Forall_forall in Hall. apply Hall.
      apply all_infos_elem. by exists sid, infos, t.
  - destruct H as [_ Hall]. intros sid infos t i Hs Ht. rewrite Forall_forall in Hall.
    apply Hall, all_infos_elem. by exists sid, infos, t.
Qed.

Lemma is_latest_unique ti L L' : is_latest ti L -> is_latest ti L' -> L = L'.
Proof.
  intros (HL & (s1 & m1 & t1 & i1 & H1 & H1' & E1) & Hge1)
         (HL' & (s2 & m2 & t2 & i2 & H2 & H2' & E2) & Hge2).
  destruct (Hge1 _ _ _ _ H2 H2') as [E|E]; [congruence|].
  destruct (Hge2 _ _ _ _ H1 H1') as [E'|E']; [congruence|].
  apply String.leb_antisym; congruence.
Qed.

Lemma filter_current_spec ti L results :
  Forall (fun p => p.2 <> []) (filter_current ti L results) /\
  forall sid t d,
    (exists tds, (sid, tds) ∈ filter_current ti L results /\ (t, d) ∈ tds) <->
    (exists tds, (sid, tds) ∈ results /\ (t, d) ∈ tds) /\
    exists infos i, ti !! sid = Some infos /\ infos !! t = Some i /\ last_time i = L.
Proof.
  split.
  - apply Forall_forall. intros [sid tds] Hp. unfold filter_current in Hp.
    apply list_elem_of_omap in Hp as ([sid' tds'] & _ & Hf).
    destruct (ti !! sid') as [infos|]; [|done].
    destruct (List.filter _ tds') eqn:Ef; [done|]. injection Hf as <- <-. done.
  - intros sid t d. unfold filter_current. split.
    + intros (tds & Hp & Ht). apply list_elem_of_omap in Hp as ([sid' tds'] & Hin & Hf).
      destruct (ti !! sid') as [infos|] eqn:Es; [|done].
      destruct (List.filter _ tds') eqn:Ef; [done|]. injection Hf as <- <-.
      rewrite <- Ef in Ht. apply list_elem_of_In, filter_In in Ht as [Ht Hk].
      destruct (infos !! t) as [i|] eqn:Ei; [|done].
      apply String.eqb_eq in Hk.
      split; [exists tds'; split; [done|by apply list_elem_of_In]|].
      by exists infos, i.
    + intros [(tds & Hp & Ht) (infos & i & Es & Ei & El)].
      set (keep := fun '((title, _) : string * Obs) =>
                     match infos !! title with
                     | Some info => String.eqb (last_time info) L
                     | None => false
                     end : bool).
      assert (Hin : In (t, d) (List.filter keep tds)).
      { apply filter_In. split; [by apply list_elem_of_In|]. unfold keep.
        rewrite Ei, El. apply String.eqb_refl. }
      exists (List.filter keep tds). split; [|by apply list_elem_of_In].
      apply list_elem_of_omap. exists (sid, tds). split; [exact Hp|].
      rewrite Es. fold keep.
      destruct (List.filter keep tds); [done|]. reflexivity.
Qed.

(** In [current] mode with a [title_info], [count_word_frequency] marks no
    title as new, processes all of [results] when no title has a
    [last_time], and otherwise processes exactly the titles of [results]
    whose [last_time] in [title_info] is the latest [last_time] of all
    titles, leaving out the sources with no such title. *)
Theorem current_mode_titles is_first_today results new_titles ti :
  let '(results_to_process, all_news_are_new) :=
    select_results "current" is_first_today results new_titles (Some ti) in
  all_news_are_new = false /\
  ((forall sid infos t i, ti !! sid = Some infos -> infos !! t = Some i ->
                          last_time i = "") ->
   results_to_process = results) /\
  (forall L, is_latest ti L ->
     Forall (fun p => p.2 <> []) results_to_process /\
     forall sid t d,
       (exists tds, (sid, tds) ∈ results_to_process /\ (t, d) ∈ tds) <->
       (exists tds, (sid, tds) ∈ results /\ (t, d) ∈ tds) /\
       exists infos i, ti !! sid = Some infos /\ infos !! t = Some i /\ last_time i = L).
Proof.
  unfold select_results. cbn [String.eqb Ascii.eqb Bool.eqb andb].
  split; [done|].
  pose proof (find_latest_time_spec ti) as Hspec.
  destruct (Nat.eqb_spec (size ti) 0) as [Hz|Hz].
  - apply map_size_empty_inv in Hz. subst ti. split; [done|].
    intros L (_ & (sid & infos & t & i & Hs & _) & _). by rewrite lookup_empty in Hs.
  - destruct (find_latest_time ti) as [L0|] eqn:EL.
    + destruct (String.eqb_spec L0 "") as [E0|E0];
        [destruct Hspec as [HL _]; done|].
      split.
      * intros Hall. destruct Hspec as (_ & (sid & infos & t & i & Hs & Ht & El) & _).
        exfalso. apply E0. rewrite <- El. by apply (Hall sid infos t).
      * intros L HL. rewrite <- (is_latest_unique _ _ _ Hspec HL).
        apply filter_current_spec.
    + split; [done|].
      intros L (HL & (sid & infos & t & i & Hs & Ht & El) & _).
      exfalso. apply HL. rewrite <- El. by apply (Hspec sid infos t).
Qed.

End ModeFacts.

(* ================================================================== *)
(** ** The byte bound of the batch splitter, with the restart pieces *)

Module BatchBoundFacts.
Import Freq Batch BatchFacts CoverageFacts.
Local Open Scope string_scope.

(** The pieces that [split_content_into_batches] adds to the current batch
    only after checking [max_bytes], each with the section text [ctx] the
    splitter writes again when it starts a new batch for it: a batch
    restarted for the piece [p] starts as [base_header ++ ctx ++ p]. *)
Inductive batch_piece ftp (sep format_type : string) (rd : ReportData)
    : string -> string -> Prop :=
  | bp_stats :
      stats rd <> [] ->
      batch_piece ftp sep format_type rd (stats_header format_type (stats rd)) ""
  | bp_group i stat :
      stats rd !! i = Some stat ->
      batch_piece ftp sep format_type rd
        (group_unit ftp format_type (length (stats rd)) i stat)
        (stats_header format_type (stats rd))
  | bp_group_line i stat k t :
      stats rd !! i = Some stat -> drop 1 (titles stat) !! k = Some t ->
      batch_piece ftp sep format_type rd
        (news_line ftp format_type stat (S k) t)
        (stats_header format_type (stats rd) ++
         word_header format_type
           ("[" ++ pretty (S i) ++ "/" ++ pretty (length (stats rd)) ++ "]")
           (word stat) (stat_count stat))
  | bp_new :
      new_titles rd <> [] ->
      batch_piece ftp sep format_type rd (new_header sep format_type (total_new_count rd)) ""
  | bp_source src :
      src ∈ new_titles rd ->
      batch_piece ftp sep format_type rd (source_unit ftp format_type src)
        (new_header sep format_type (total_new_count rd))
  | bp_source_line src k t :
      src ∈ new_titles rd -> drop 1 (src_titles src) !! k = Some t ->
      batch_piece ftp sep format_type rd (source_news_line ftp format_type (S k) t)
        (new_header sep format_type (total_new_count rd) ++ source_header format_type src)
  | bp_failed :
      failed_ids rd <> [] ->
      batch_piece ftp sep format_type rd (failed_header sep format_type) ""
  | bp_failed_line id :
      id ∈ failed_ids rd ->
      batch_piece ftp sep format_type rd (failed_line format_type id)
        (failed_header sep format_type).

(** The [(piece, reset)] pairs of a step. *)
Definition step_pairs (s : Step) : list (string * string) :=
  match s with
  | SAdd p r => [(p, r)]
  | STry _ => []
  | SBlock pr rest => pr :: rest
  end.

Lemma step_resets_pairs s : step_resets s = map snd (step_pairs s).
Proof. by destruct s as [p r|p|[p r] rest]. Qed.

Lemma resets_pairs steps r :
  r ∈ resets steps -> exists s p, s ∈ steps /\ (p, r) ∈ step_pairs s.
Proof.
  unfold resets. intros H. apply list_elem_of_In, in_concat in H as (l & Hl & Hr).
  apply in_map_iff in Hl as (s & <- & Hs). rewrite step_resets_pairs in Hr.
  apply in_map_iff in Hr as ([p r'] & Heq & Hpr). simpl in Heq. subst r'.
  exists s, p. split; by apply list_elem_of_In.
Qed.

Lemma pairs_piece ftp sep now_str ft rd s p r :
  s ∈ all_steps ftp sep now_str ft rd -> (p, r) ∈ step_pairs s ->
  exists ctx, batch_piece ftp sep ft rd p ctx /\
    r = base_header now_str ft (total_titles (stats rd)) ++ ctx ++ p.
Proof.
  unfold all_steps. cbv zeta.
  set (bh := base_header now_str ft (total_titles (stats rd))).
  intros Hs Hp. apply elem_of_app in Hs as [Hs|Hs]; [|apply elem_of_app in Hs as [Hs|Hs]].
  - unfold stats_steps in Hs.
    destruct (stats rd) as [|s0 ss] eqn:Es; [by apply elem_of_nil in Hs|].
    rewrite <- Es in *. cbv zeta in Hs.
    apply elem_of_cons in Hs as [->|Hs].
    + simpl in Hp. apply list_elem_of_singleton in Hp. injection Hp as -> ->.
      exists "". split; [apply bp_stats; by rewrite Es|reflexivity].
    + apply list_elem_of_In, in_concat in Hs as (l & Hl & Hs).
      apply list_elem_of_In in Hl, Hs.
      apply elem_of_lookup_imap_1 in Hl as (i & stat & -> & Hi).
      unfold group_steps in Hs. cbv zeta in Hs. apply elem_of_cons in Hs as [->|Hs].
      * simpl in Hp. apply list_elem_of_singleton in Hp. injection Hp as -> ->.
        exists (stats_header ft (stats rd)). split; [by apply bp_group|reflexivity].
      * apply elem_of_app in Hs as [Hs|Hs].
        -- apply elem_of_lookup_imap_1 in Hs as (k & t & -> & Hk).
           simpl in Hp. apply list_elem_of_singleton in Hp. injection Hp as -> ->.
           eexists. split; [by apply bp_group_line|].
           f_equal. apply str_app_assoc.
        -- destruct (_ <? _)%nat; [|by apply elem_of_nil in Hs].
           apply list_elem_of_singleton in Hs as ->. by apply elem_of_nil in Hp.
  - unfold new_steps in Hs.
    destruct (new_titles rd) as [|s0 ss] eqn:En; [by apply elem_of_nil in Hs|].
    rewrite <- En in *. cbv zeta in Hs.
    apply elem_of_cons in Hs as [->|Hs].
    + simpl in Hp. apply list_elem_of_singleton in Hp. injection Hp as -> ->.
      exists "". split; [apply bp_new; by rewrite En|reflexivity].
    + apply list_elem_of_fmap in Hs as (src & -> & Hsrc).
      unfold source_step in Hp. cbv zeta in Hp. simpl in Hp.
      apply elem_of_cons in Hp as [Hp|Hp].
      * injection Hp as -> ->. eexists. split; [by apply bp_source|reflexivity].
      * apply elem_of_lookup_imap_1 in Hp as (k & t & Heq & Hk).
        injection Heq as -> ->. eexists. split; [by apply bp_source_line|].
        f_equal. apply str_app_assoc.
  - unfold failed_steps in Hs.
    destruct (failed_ids rd) as [|s0 ss] eqn:Ef; [by apply elem_of_nil in Hs|].
    rewrite <- Ef in *. cbv zeta in Hs.
    apply elem_of_cons in Hs as [->|Hs].
    + simpl in Hp. apply list_elem_of_singleton in Hp. injection Hp as -> ->.
      exists "". split; [apply bp_failed; by rewrite Ef|reflexivity].
    + apply list_elem_of_fmap in Hs as (id & -> & Hid).
      simpl in Hp. apply list_elem_of_singleton in Hp. injection Hp as -> ->.
      eexists. split; [by apply bp_failed_line|reflexivity].
Qed.

Lemma pair_placed s p x bf mx st :
  (p, x ++ p) ∈ step_pairs s -> unit_placed p (exec_step bf mx st s).
Proof.
  destruct s as [p' r|p'|[p' r] rest]; simpl; intros H.
  - apply list_elem_of_singleton in H. injection H as <- <-. apply add_unit_placed.
  - by apply elem_of_nil in H.
  - apply elem_of_cons in H as [H|H].
    + injection H as <- <-. apply (block_first_placed _ _ _ _ x).
    + by apply (block_rest_placed _ _ _ _ _ _ x).
Qed.

Lemma piece_pair ftp sep now_str ft rd p ctx :
  batch_piece ftp sep ft rd p ctx ->
  exists s x, s ∈ all_steps ftp sep now_str ft rd /\ (p, x ++ p) ∈ step_pairs s.
Proof.
  set (bh := base_header now_str ft (total_titles (stats rd))).
  intros Hpc. destruct Hpc as [Hne|i stat Hi|i stat k t Hi Hk|Hne|src Hsrc|src k t Hsrc Hk
                              |Hne|id Hid].
  - exists (SAdd (stats_header ft (stats rd)) (bh ++ stats_header ft (stats rd))), bh.
    split; [|by apply list_elem_of_singleton].
    unfold all_steps, stats_steps. destruct (stats rd) eqn:Es; [done|].
    apply elem_of_app. left. apply list_elem_of_here.
  - destruct (group_step_in ftp sep now_str ft rd i stat Hi) as [x Hx].
    eexists _, x. split; [exact Hx|by apply list_elem_of_singleton].
  - destruct (stat_line_step ftp sep now_str ft rd i stat k t Hi Hk) as [x Hx].
    eexists _, x. split; [exact Hx|by apply list_elem_of_singleton].
  - set (nh := new_header sep ft (total_new_count rd)).
    exists (SAdd nh (bh ++ nh)), bh. split; [|by apply list_elem_of_singleton].
    unfold all_steps, new_steps. destruct (new_titles rd) eqn:En; [done|].
    apply elem_of_app. right. apply elem_of_app. left. apply list_elem_of_here.
  - destruct (source_step_elem ftp sep now_str ft rd src Hsrc) as (bh' & nh & Hs).
    exists (source_step ftp ft bh' nh src), (bh' ++ nh). split; [exact Hs|].
    unfold source_step. cbv zeta. simpl. rewrite <- str_app_assoc. apply list_elem_of_here.
  - destruct (source_step_elem ftp sep now_str ft rd src Hsrc) as (bh' & nh & Hs).
    exists (source_step ftp ft bh' nh src), (bh' ++ nh ++ source_header ft src).
    split; [exact Hs|].
    unfold source_step. cbv zeta. simpl. apply list_elem_of_further.
    rewrite <- !str_app_assoc.
    apply (elem_of_lookup_imap_2 (fun k t =>
      let line := source_news_line ftp ft (S k) t in
      (line, bh' ++ nh ++ source_header ft src ++ line)) _ _ _ Hk).
  - set (fh := failed_header sep ft).
    exists (SAdd fh (bh ++ fh)), bh. split; [|by apply list_elem_of_singleton].
    unfold all_steps, failed_steps. destruct (failed_ids rd) eqn:Ef; [done|].
    apply elem_of_app. right. apply elem_of_app. right. apply list_elem_of_here.
  - destruct (failed_line_step ftp sep now_str ft rd id Hid) as [x Hx].
    eexists _, x. split; [exact Hx|by apply list_elem_of_singleton].
Qed.

(** C1 (amended): every batch fits in [max_bytes] bytes, or it is a batch
    restarted for a single piece that did not fit: [base_header], the
    section text written again for that piece (nothing for a section
    header; the stats header before a group's header and first title line;
    the stats header and the group's header before a later title line of
    the group; the new-titles header before a source's header and first
    title line; the new-titles header and the source's header before a
    later title line of the source; the failed header before a failed id),
    the piece, possibly one newline, and [base_footer]; or it is the
    no-content batch of an empty report, returned whatever [max_bytes] is.
    No piece is dropped: each one occurs whole in some batch, whatever
    [max_bytes] is. *)
Theorem batch_bytes_bound ftp sep d f m now_str report_data format_type update_info
    max_bytes mode :
  let mx := effective_max_bytes d f m format_type max_bytes in
  let bh := base_header now_str format_type (total_titles (stats report_data)) in
  let bf := base_footer now_str format_type update_info in
  let out := split_content_into_batches ftp sep d f m now_str report_data format_type
               update_info max_bytes mode in
  Forall (fun b =>
    (len b <= mx)%Z \/
    (exists p ctx, batch_piece ftp sep format_type report_data p ctx /\
       (b = bh ++ ctx ++ p ++ bf \/ b = bh ++ ctx ++ p ++ nl ++ bf)) \/
    (stats report_data = [] /\ new_titles report_data = [] /\ failed_ids report_data = [] /\
     b = no_content_batch bh bf mode)) out /\
  (forall p ctx, batch_piece ftp sep format_type report_data p ctx ->
     exists b, b ∈ out /\ str_infix p b).
Proof.
  cbv zeta. split.
  - unfold split_content_into_batches.
    set (steps := all_steps ftp sep now_str format_type report_data).
    assert (Hrun : forall bh,
      Forall (fun b =>
        (len b <= effective_max_bytes d f m format_type max_bytes)%Z \/
        (exists p ctx, batch_piece ftp sep format_type report_data p ctx /\
          (b = base_header now_str format_type (total_titles (stats report_data)) ++ ctx ++
               p ++ base_footer now_str format_type update_info \/
           b = base_header now_str format_type (total_titles (stats report_data)) ++ ctx ++
               p ++ nl ++ base_footer now_str format_type update_info)))
        (run_steps (base_footer now_str format_type update_info)
           (effective_max_bytes d f m format_type max_bytes) bh steps)).
    { intros bh.
      eapply Forall_impl; [apply (run_steps_ok _ _ (resets steps))|].
      - intros s Hs r Hr. by apply (resets_elem _ s).
      - intros b [Hb|(r & Hr & Hb)]; [by left|right].
        destruct (resets_pairs _ _ Hr) as (s & p & Hs & Hp).
        destruct (pairs_piece _ _ _ _ _ _ _ _ Hs Hp) as (ctx & Hpc & ->).
        exists p, ctx. split; [done|]. rewrite <- !str_app_assoc in Hb. exact Hb. }
    destruct (stats report_data) eqn:Es, (new_titles report_data) eqn:En,
      (failed_ids report_data) eqn:Ef;
    try (eapply Forall_impl; [apply Hrun|]; intros b [Hb|Hb]; [left|right; left]; done).
    constructor; [|constructor]. right. right. done.
  - intros p ctx Hpc.
    destruct (piece_pair ftp sep now_str format_type report_data p ctx Hpc)
      as (s & x & Hs & Hp).
    apply (placed_in_split ftp sep d f m now_str report_data format_type update_info
             max_bytes mode p s Hs).
    intros bf mx st. by apply (pair_placed s p x).
Qed.

End BatchBoundFacts.

(* ================================================================== *)
(** ** Snapshot files: a saved title line read back *)

Module TitleLineFacts.
Import Snapshot.
Local Open Scope string_scope.

(** [s] has no character of code [n]. *)
Definition no_char (n : nat) (s : string) : bool :=
  HtmlFacts.str_forallb (fun ch => negb (Nat.eqb (Ascii.nat_of_ascii ch) n)) s.

(** The tag [" [" ++ r] written after a title. *)
Definition tag (r : string) : string :=
  String (Ascii.ascii_of_nat 32) (String (Ascii.ascii_of_nat 91) r).

Lemma no_char_app n a b : no_char n (a ++ b) = no_char n a && no_char n b.
Proof. apply HtmlFacts.str_forallb_app. Qed.

Lemma contains_cons sep c s :
  PyStr.contains sep (String c s) = String.prefix sep (String c s) || PyStr.contains sep s.
Proof. reflexivity. Qed.

Lemma rsplit1_cons sep c s :
  rsplit1 sep (String c s) =
  match rsplit1 sep s with
  | Some (a, b) => Some (String c a, b)
  | None =>
      if String.prefix sep (String c s)
      then Some (EmptyString, String.substring (String.length sep) (String.length (String c s))
                                (String c s))
      else None
  end.
Proof. reflexivity. Qed.

Lemma split1_cons sep c s :
  split1 sep (String c s) =
  if String.prefix sep (String c s)
  then Some (EmptyString, String.substring (String.length sep) (String.length (String c s))
                            (String c s))
  else match split1 sep s with
       | Some (a, b) => Some (String c a, b)
       | None => None
       end.
Proof. reflexivity. Qed.



(** The tags written after a title, [" [URL:"], [" [MOBILE:"] and
    [" [SUMMARY:"], start with a space and a [\[]: they cannot occur in a
    text without [\[]. *)
Lemma contains_nobr sp r s :
  no_char 91 s = true -> PyStr.contains (String sp (String (Ascii.ascii_of_nat 91) r)) s = false.
Proof.
  induction s as [|x s IH]; [done|]. unfold no_char. cbn [HtmlFacts.str_forallb].
  intros [Hx Hs]%andb_prop. rewrite contains_cons, IH by done.
  rewrite orb_false_r. cbn [String.prefix].
  destruct (Ascii.ascii_dec sp x); [|done].
  destruct s as [|y s]; [done|]. cbn [String.prefix].
  destruct (Ascii.ascii_dec (Ascii.ascii_of_nat 91) y) as [<-|]; [|done].
  unfold no_char in Hs. simpl in Hs. discriminate.
Qed.


Lemma rsplit1_none sep s : PyStr.contains sep s = false -> rsplit1 sep s = None.
Proof.
  induction s as [|x s IH]; [done|]. rewrite contains_cons, rsplit1_cons.
  intros [Hp Hc]%orb_false_elim. rewrite IH by done. by rewrite Hp.
Qed.


Lemma pretty_N_char_digit d : is_digit (pretty_N_char d) = true.
Proof. unfold pretty_N_char. by repeat case_match. Qed.

Lemma pretty_N_char_value d :
  (d < 10)%N -> (Ascii.nat_of_ascii (pretty_N_char d) - 48)%nat = N.to_nat d.
Proof.
  intros Hd.
  assert (d = 0 \/ d = 1 \/ d = 2 \/ d = 3 \/ d = 4 \/ d = 5 \/ d = 6 \/ d = 7 \/
          d = 8 \/ d = 9)%N as Hc by lia.
  by repeat destruct Hc as [->|Hc]; [..|subst d].
Qed.

Lemma pretty_N_go_digits x s : all_digits (pretty_N_go x s) = all_digits s.
Proof.
  revert s. induction (N.lt_wf_0 x) as [x _ IH]; intros s.
  destruct (N.eq_dec x 0%N) as [->|Hx]; [by rewrite pretty_N_go_0|].
  rewrite pretty_N_go_step by lia. rewrite IH by (apply N.div_lt; lia).
  cbn [all_digits]. by rewrite pretty_N_char_digit.
Qed.

Lemma pretty_N_go_value x s :
  digits_value_acc 0 (pretty_N_go x s) = digits_value_acc (N.to_nat x) s.
Proof.
  revert s. induction (N.lt_wf_0 x) as [x _ IH]; intros s.
  destruct (N.eq_dec x 0%N) as [->|Hx]; [by rewrite pretty_N_go_0|].
  rewrite pretty_N_go_step by lia. rewrite IH by (apply N.div_lt; lia).
  cbn [digits_value_acc]. rewrite pretty_N_char_value by (apply N.mod_lt; lia).
  f_equal. pose proof (N.div_mod x 10%N ltac:(lia)). lia.
Qed.

(** The rank written by [f"{rank}"] is a non-empty string of digits that
    [int] reads back. *)
Lemma pretty_nat_digits n :
  pretty n <> "" /\ all_digits (pretty n) = true /\ int_of_digits (pretty n) = n.
Proof.
  unfold pretty at 1 2 3, pretty_nat, pretty, pretty_N, int_of_digits.
  case_decide as Hn.
  - assert (n = 0%nat) as -> by lia. done.
  - rewrite pretty_N_go_digits, pretty_N_go_value. cbn [digits_value_acc all_digits].
    rewrite Nat2N.id. split; [|done].
    intros He. pose proof (pretty_N_go_value (N.of_nat n) "") as Hv.
    rewrite He in Hv. cbn in Hv. rewrite Nat2N.id in Hv. lia.
Qed.

Lemma digit_not_dot c : is_digit c = true -> c <> Ascii.ascii_of_nat 46.
Proof. intros H ->. discriminate. Qed.


(** Text that starts with an ASCII character, or is empty. *)
Definition ascii_head (b : string) : Prop :=
  match b with EmptyString => True | String c _ => (Ascii.nat_of_ascii c < 128)%nat end.

(** *** Whitespace of [str.strip] on UTF-8 text *)

Lemma ws_len_tail a b c r r' :
  Text.ws_len (String a (String b (String c r))) =
  Text.ws_len (String a (String b (String c r'))).
Proof. reflexivity. Qed.

Lemma str_app_nil_l b : "" ++ b = b.
Proof. reflexivity. Qed.

Ltac if_cases :=
  repeat (match goal with |- context [if ?b then _ else _] =>
            let E := fresh "E" in destruct b eqn:E end; cbn beta iota).

Ltac bool_lia :=
  repeat progress rewrite ?andb_true_iff, ?orb_true_iff, ?Nat.eqb_eq, ?Nat.leb_le in *;
  unfold Text.byte in *; lia.

Lemma ws_len_le s : (Text.ws_len s <= String.length s)%nat.
Proof.
  destruct s as [|a [|b [|c r]]]; cbn [Text.ws_len String.length]; if_cases; lia.
Qed.

Lemma ws_len_app s b k : Text.ws_len s = S k -> Text.ws_len (s ++ b) = S k.
Proof.
  destruct s as [|a [|b0 [|c r]]]; [discriminate| | |].
  - rewrite ?BatchFacts.str_app_cons, ?str_app_nil_l; cbn [Text.ws_len]. if_cases; intros; congruence.
  - rewrite ?BatchFacts.str_app_cons, ?str_app_nil_l; cbn [Text.ws_len]. if_cases; intros; congruence.
  - intros H. rewrite <- H. rewrite !BatchFacts.str_app_cons. apply ws_len_tail.
Qed.

Lemma ws_len_app_zero s b :
  s <> "" -> Text.ws_len s = 0%nat -> ascii_head b -> Text.ws_len (s ++ b) = 0%nat.
Proof.
  intros Hs H Hb. destruct s as [|a [|b0 [|c r]]]; [done| | |].
  - revert H. rewrite ?BatchFacts.str_app_cons, ?str_app_nil_l; cbn [Text.ws_len].
    destruct b as [|b1 [|c1 r1]]; cbn beta iota; cbn [ascii_head] in Hb;
      if_cases; intros; first [reflexivity | discriminate | exfalso; bool_lia].
  - revert H. rewrite ?BatchFacts.str_app_cons, ?str_app_nil_l; cbn [Text.ws_len].
    destruct b as [|b1 r1]; cbn beta iota; cbn [ascii_head] in Hb;
      if_cases; intros; first [reflexivity | discriminate | exfalso; bool_lia].
  - rewrite <- H. rewrite !BatchFacts.str_app_cons. apply ws_len_tail.
Qed.
Lemma drop_bytes_app k s b :
  (k <= String.length s)%nat -> Text.drop_bytes k (s ++ b) = Text.drop_bytes k s ++ b.
Proof.
  revert s. induction k as [|k IH]; intros s Hk; [reflexivity|].
  destruct s as [|c s]; simpl in Hk; [lia|]. simpl. apply IH. lia.
Qed.

Lemma drop_bytes_length k s :
  String.length (Text.drop_bytes k s) = (String.length s - k)%nat.
Proof.
  revert s. induction k as [|k IH]; intros s; [simpl; lia|].
  destruct s as [|c s]; simpl; [done|]. apply IH.
Qed.

Lemma skip_ws_fuel f f' s :
  (String.length s < f)%nat -> (String.length s < f')%nat ->
  Text.skip_ws f s = Text.skip_ws f' s.
Proof.
  revert f' s. induction f as [|f IH]; intros f' s Hf Hf'; [lia|].
  destruct f' as [|f']; [lia|]. cbn [Text.skip_ws].
  destruct (Text.ws_len s) as [|k] eqn:E; [reflexivity|].
  pose proof (ws_len_le s) as Hle. rewrite E in Hle.
  apply IH; rewrite drop_bytes_length; lia.
Qed.

Lemma lstrip_stop s : Text.ws_len s = 0%nat -> Text.lstrip s = s.
Proof. intros H. unfold Text.lstrip. cbn [Text.skip_ws]. by rewrite H. Qed.

Lemma lstrip_step s k :
  Text.ws_len s = S k -> Text.lstrip s = Text.lstrip (Text.drop_bytes (S k) s).
Proof.
  intros H. unfold Text.lstrip at 1. cbn [Text.skip_ws]. rewrite H.
  pose proof (ws_len_le s) as Hle. rewrite H in Hle.
  apply skip_ws_fuel; rewrite drop_bytes_length; lia.
Qed.



Lemma lstrip_app s b :
  ascii_head b ->
  Text.lstrip (s ++ b) = if Text.all_ws s then Text.lstrip b else Text.lstrip s ++ b.
Proof.
  intros Hb. remember (String.length s) as n eqn:En. revert s En.
  induction n as [n IH] using lt_wf_ind. intros s ->.
  unfold Text.all_ws.
  destruct (Text.ws_len s) as [|k] eqn:E.
  - destruct s as [|c s']; [reflexivity|].
    rewrite (lstrip_stop (String c s')) by done.
    rewrite lstrip_stop by (apply ws_len_app_zero; done).
    reflexivity.
  - pose proof (ws_len_le s) as Hle. rewrite E in Hle.
    rewrite (lstrip_step s k E), (lstrip_step (s ++ b) k) by (by apply ws_len_app).
    rewrite drop_bytes_app by lia.
    rewrite (IH (String.length (Text.drop_bytes (S k) s))); [reflexivity| |reflexivity].
    rewrite drop_bytes_length; lia.
Qed.

Lemma all_ws_false s : Text.all_ws s = false -> Text.lstrip s <> "".
Proof. unfold Text.all_ws. intros H He. by rewrite He in H. Qed.

Lemma all_ws_app s b :
  ascii_head b -> Text.all_ws (s ++ b) = Text.all_ws s && Text.all_ws b.
Proof.
  intros Hb. unfold Text.all_ws at 1. rewrite lstrip_app by done.
  destruct (Text.all_ws s) eqn:E; [reflexivity|]. simpl.
  apply String.eqb_neq. intros He. apply (all_ws_false s E).
  destruct (Text.lstrip s); [done|discriminate].
Qed.

Lemma rstrip_nonempty_ws b : Text.rstrip b <> "" -> Text.all_ws b = false.
Proof.
  destruct b as [|c r]; [done|]. cbn [Text.rstrip].
  destruct (Text.all_ws (String c r)); [done|reflexivity].
Qed.

(** Whitespace at the end is removed by [rstrip]. *)
Lemma rstrip_ws_end x w :
  Text.all_ws w = true -> ascii_head w -> Text.rstrip (x ++ w) = Text.rstrip x.
Proof.
  intros Hw Ha. induction x as [|c x IH].
  - destruct w as [|c r]; [reflexivity|]. rewrite str_app_nil_l. cbn [Text.rstrip].
    by rewrite Hw.
  - change (String c x ++ w) with (String c (x ++ w)). cbn [Text.rstrip].
    change (String c (x ++ w)) with (String c x ++ w).
    by rewrite all_ws_app, Hw, andb_true_r, IH.
Qed.

(** [rstrip] leaves the text before a non-blank ASCII-headed end. *)
Lemma rstrip_app_ascii a b :
  ascii_head b -> Text.rstrip b <> "" -> Text.rstrip (a ++ b) = a ++ Text.rstrip b.
Proof.
  intros Ha Hb. pose proof (rstrip_nonempty_ws b Hb) as Hw.
  induction a as [|c a IH]; [reflexivity|].
  change (String c a ++ b) with (String c (a ++ b)). cbn [Text.rstrip].
  change (String c (a ++ b)) with (String c a ++ b).
  by rewrite all_ws_app, Hw, andb_false_r, IH.
Qed.




Lemma lstrip_digit d r : is_digit d = true -> Text.lstrip (String d r) = String d r.
Proof.
  intros Hd. apply lstrip_stop.
  destruct d as [[] [] [] [] [] [] [] []]; try discriminate;
    destruct r as [|b [|c r]]; reflexivity.
Qed.








Lemma take_tag_absent tag s : PyStr.contains tag s = false -> take_tag tag s = (s, "").
Proof. intros H. unfold take_tag. by rewrite rsplit1_none. Qed.






Lemma contains_tag_nobr r s : no_char 91 s = true -> PyStr.contains (tag r) s = false.
Proof. apply contains_nobr. Qed.

Lemma digits_no_char n p :
  (n < 48 \/ 57 < n)%nat -> all_digits p = true -> no_char n p = true.
Proof.
  intros Hn. induction p as [|d p IH]; [done|]. cbn [all_digits]. intros [Hd Hp]%andb_prop.
  unfold no_char. cbn [HtmlFacts.str_forallb]. apply andb_true_intro. split; [|by apply IH].
  apply negb_true_iff, Nat.eqb_neq.
  destruct d as [[] [] [] [] [] [] [] []]; try discriminate; vm_compute; lia.
Qed.

Lemma pretty_no_char n (rank : nat) : (n < 48 \/ 57 < n)%nat -> no_char n (pretty rank) = true.
Proof.
  intros Hn. apply digits_no_char; [done|]. apply (pretty_nat_digits rank).
Qed.






Lemma split1_digits_dot p : all_digits p = true -> split1 ". " (p ++ ".") = None.
Proof.
  induction p as [|d p IH]; [reflexivity|].
  cbn [all_digits]. intros [Hd Hp]%andb_prop. rewrite BatchFacts.str_app_cons, split1_cons.
  cbn [String.prefix]. destruct (Ascii.ascii_dec _ d) as [Ed|_].
  - exfalso. apply (digit_not_dot d Hd). rewrite <- Ed. reflexivity.
  - by rewrite IH.
Qed.

Lemma strip_rank_dot p s :
  all_digits p = true -> p <> "" -> Text.all_ws s = true -> ascii_head s ->
  Text.strip (p ++ "." ++ s) = p ++ ".".
Proof.
  intros Hd Hne Hw Ha. destruct p as [|d p]; [done|].
  cbn [all_digits] in Hd. apply andb_prop in Hd as [Hd _].
  unfold Text.strip. rewrite BatchFacts.str_app_cons, lstrip_digit, <- BatchFacts.str_app_cons
    by done.
  rewrite BatchFacts.str_app_assoc, rstrip_ws_end by done.
  apply rstrip_app_ascii; [cbv; lia|discriminate].
Qed.

(** X16: a title that [clean_title] reduced to the empty string, with no
    link and no summary, is written as the line ["N. "] and its ["\n"];
    [parse_file_titles] reads the line ["N. "] back as the title ["N."]
    with the default rank 1. *)
Theorem empty_title_line_misread cl rank :
  save_title_line rank "" "" "" "" = pretty rank ++ ". " ++ nl /\
  parse_title_line cl (pretty rank ++ ". ") =
  mkParsedTitle (cl (pretty rank ++ ".")) [1%nat] "" "" "".
Proof.
  destruct (pretty_nat_digits rank) as (Hne & Hd & _). split.
  { unfold save_title_line. cbv zeta. cbn [String.eqb].
    rewrite <- !BatchFacts.str_app_assoc. reflexivity. }
  assert (Hs : Text.strip (pretty rank ++ ". ") = pretty rank ++ ".")
    by (apply (strip_rank_dot _ " "); [done|done|reflexivity|cbv; lia]).
  assert (Hs' : Text.strip (pretty rank ++ ".") = pretty rank ++ ".")
    by (apply (strip_rank_dot _ ""); [done|done|reflexivity|done]).
  assert (Hb : no_char 91 (pretty rank ++ ".") = true)
    by (rewrite no_char_app, pretty_no_char by lia; reflexivity).
  unfold parse_title_line. rewrite Hs, split1_digits_dot by done.
  change " [URL:" with (tag "URL:"); change " [MOBILE:" with (tag "MOBILE:");
  change " [SUMMARY:" with (tag "SUMMARY:").
  rewrite !(take_tag_absent _ (pretty rank ++ ".")) by (by apply contains_tag_nobr).
  cbn beta iota. by rewrite Hs'.
Qed.

End TitleLineFacts.
